(** * Cesium: DynamicExternalDocument and BoundingRectangle

    A shallow embedding of [Source/DynamicScene/DynamicExternalDocument.js]
    and [Source/Core/BoundingRectangle.js].

    - JavaScript Numbers are IEEE 754 binary64 values: Rocq's primitive
      [float], with the comparisons [<], [>] and [===] of the source read
      as [ltb] and [eqb].
    - JavaScript objects live in a heap and are passed by reference; a
      function of the source becomes a computation in a state-and-exception
      monad over that heap.
    - [undefined] is [None]. *)

From Stdlib Require Import Floats ZArith Lia Ascii String.
From stdpp Require Import base option list strings.

(** ** Completions, errors and the heap monad *)

Module JS.

(** The exceptions the two files can raise or let through. *)
Inductive error :=
| DeveloperError (message : string)
| TypeError (message : string)
| OtherError (name message : string).

Inductive completion (A : Type) :=
| Normal (a : A)
| Throw (e : error).
Arguments Normal {A} a.
Arguments Throw {A} e.

(** A computation over a heap [H]: the heap after it, and how it ended.
    What was written before a [throw] stays written. *)
Definition M (H A : Type) : Type := H -> H * completion A.

Definition ret {H A} (a : A) : M H A := fun h => (h, Normal a).
Definition throw {H A} (e : error) : M H A := fun h => (h, Throw e).
Definition bind {H A B} (c : M H A) (k : A -> M H B) : M H B :=
  fun h =>
    match c h with
    | (h', Normal a) => k a h'
    | (h', Throw e) => (h', Throw e)
    end.

(** An object reference: the index of the object in its heap. *)
Abbreviation ref := nat.

End JS.

Export JS.

Declare Scope js_scope.
Delimit Scope js_scope with js.
Notation "x <- c1 ;; c2" := (bind c1 (fun x => c2))
  (at level 100, c1 at next level, right associativity) : js_scope.
Notation "c1 ;; c2" := (bind c1 (fun _ => c2))
  (at level 100, right associativity) : js_scope.

(** ** Numbers *)

Module Number.

Open Scope float_scope.

Definition isNaN (a : float) : bool := negb (a =? a).

Definition isFinite (a : float) : bool :=
  match classify a with
  | NaN | PInf | NInf => false
  | _ => true
  end.

Definition isNegativeZero (a : float) : bool :=
  match classify a with
  | NZero => true
  | _ => false
  end.

(** [Math.min] and [Math.max] on two arguments (ECMAScript 15.8.2.11 and
    15.8.2.12): NaN if either argument is NaN; [-0] is smaller than
    [+0]. *)
Definition min (a b : float) : float :=
  if isNaN a || isNaN b then nan
  else if a <? b then a
  else if b <? a then b
  else if isNegativeZero a then a else b.

Definition max (a b : float) : float :=
  if isNaN a || isNaN b then nan
  else if a <? b then b
  else if b <? a then a
  else if isNegativeZero a then b else a.

(** A binary64 value, in [SpecFloat]'s representation, that is not below
    zero: NaN, a zero, [+Infinity] or a positive number. *)
Definition SFnotNegative (r : spec_float) : Prop :=
  match r with
  | S754_infinity s | S754_finite s _ _ => s = false
  | _ => True
  end.

End Number.

(** ** Core/Cartesian2: a 2D point, as far as BoundingRectangle uses it *)

Module Cartesian2.

Record Cartesian2 := { x : float; y : float }.

End Cartesian2.

(** ** Core/BoundingRectangle.js *)

Module BoundingRectangle.

Import Number.
Open Scope float_scope.
Open Scope js_scope.

Record BoundingRectangle := {
  x : float;
  y : float;
  width : float;
  height : float
}.

(** The rectangles allocated so far; a reference is an index. *)
Abbreviation heap := (list BoundingRectangle).

(** Modelled from the spec: [defaultValue] (Core/defaultValue.js is not
    among the sources): the first argument unless it is undefined, else
    the second. *)
Definition defaultValue {A} (a : option A) (b : A) : A :=
  match a with
  | Some v => v
  | None => b
  end.

(** [new BoundingRectangle(x, y, width, height)] *)
Definition new (x y width height : option float) : M heap ref :=
  fun h =>
    (h ++ [ {| x := defaultValue x 0;
               y := defaultValue y 0;
               width := defaultValue width 0;
               height := defaultValue height 0 |} ],
     Normal (length h)).

(** Reading the fields of the object behind a reference. A reference
    that denotes no object is no rectangle: property access fails as it
    does on [undefined]. *)
Definition read (r : ref) : M heap BoundingRectangle :=
  fun h =>
    match h !! r with
    | Some o => (h, Normal o)
    | None => (h, Throw (TypeError "Cannot read property of undefined"))
    end.

Definition write (r : ref) (f : BoundingRectangle -> BoundingRectangle) : M heap unit :=
  fun h =>
    match h !! r with
    | Some o => (<[r := f o]> h, Normal tt)
    | None => (h, Throw (TypeError "Cannot set property of undefined"))
    end.

Definition set_x (v : float) (o : BoundingRectangle) :=
  {| x := v; y := y o; width := width o; height := height o |}.
Definition set_y (v : float) (o : BoundingRectangle) :=
  {| x := x o; y := v; width := width o; height := height o |}.
Definition set_width (v : float) (o : BoundingRectangle) :=
  {| x := x o; y := y o; width := v; height := height o |}.
Definition set_height (v : float) (o : BoundingRectangle) :=
  {| x := x o; y := y o; width := width o; height := v |}.

(** [BoundingRectangle.union(left, right, result)] *)
Definition union (left right result : option ref) : M heap ref :=
  match left with
  | None => throw (DeveloperError "left is required.")
  | Some left' =>
    match right with
    | None => throw (DeveloperError "right is required.")
    | Some right' =>
      result <- match result with
                | None => new None None None None
                | Some result => ret result
                end ;;
      l <- read left' ;;
      r <- read right' ;;
      let lowerLeft :=
        {| Cartesian2.x := min (x l) (x r);
           Cartesian2.y := min (y l) (y r) |} in
      let upperRight :=
        {| Cartesian2.x := max (x l + width l) (x r + width r);
           Cartesian2.y := max (y l + height l) (y r + height r) |} in
      write result (set_x (Cartesian2.x lowerLeft)) ;;
      write result (set_y (Cartesian2.y lowerLeft)) ;;
      write result (set_width (Cartesian2.x upperRight - Cartesian2.x lowerLeft)) ;;
      write result (set_height (Cartesian2.y upperRight - Cartesian2.y lowerLeft)) ;;
      ret result
    end
  end.

(** [BoundingRectangle.clone(rect, result)] *)
Definition clone (rect result : option ref) : M heap ref :=
  match rect with
  | None => throw (DeveloperError "rect is required")
  | Some rect =>
    match result with
    | None =>
      r <- read rect ;;
      new (Some (x r)) (Some (y r)) (Some (width r)) (Some (height r))
    | Some result =>
      r <- read rect ;; write result (set_x (x r)) ;;
      r <- read rect ;; write result (set_y (y r)) ;;
      r <- read rect ;; write result (set_width (width r)) ;;
      r <- read rect ;; write result (set_height (height r)) ;;
      ret result
    end
  end.

(** [BoundingRectangle.equals(left, right)]: the same reference (or both
    undefined), or both defined with [===] components. *)
Definition equals (left right : option ref) : M heap bool :=
  if bool_decide (left = right) then ret true
  else
    match left, right with
    | Some left', Some right' =>
      l <- read left' ;;
      r <- read right' ;;
      ret ((x l =? x r) && (y l =? y r) &&
           (width l =? width r) && (height l =? height r))
    | _, _ => ret false
    end.

(** The four running extrema of the loop of [fromPoints]. *)
Record extrema := {
  minimumX : float;
  minimumY : float;
  maximumX : float;
  maximumY : float
}.

(** One iteration of the loop body, at [p = positions[i]]. *)
Definition fromPoints_step (e : extrema) (p : Cartesian2.Cartesian2) : extrema :=
  let x := Cartesian2.x p in
  let y := Cartesian2.y p in
  {| minimumX := if x <? minimumX e then x else minimumX e;
     maximumX := if maximumX e <? x then x else maximumX e;
     minimumY := if y <? minimumY e then y else minimumY e;
     maximumY := if maximumY e <? y then y else maximumY e |}.

(** [BoundingRectangle.fromPoints(positions)] *)
Definition fromPoints (positions : option (list Cartesian2.Cartesian2)) : M heap ref :=
  match positions with
  | None => throw (DeveloperError "positions is required.")
  | Some positions =>
    if bool_decide (length positions <= 1)%nat
    then throw (DeveloperError "positions must have a length greater than one.")
    else
      match positions with
      | [] => throw (TypeError "Cannot read property 'x' of undefined")
      | p0 :: rest =>
        let e := fold_left fromPoints_step rest
                   {| minimumX := Cartesian2.x p0; minimumY := Cartesian2.y p0;
                      maximumX := Cartesian2.x p0; maximumY := Cartesian2.y p0 |} in
        let width := maximumX e - minimumX e in
        let height := maximumY e - minimumY e in
        new (Some (minimumX e)) (Some (minimumY e)) (Some width) (Some height)
      end
  end.

(** [BoundingRectangle.intersect(rect1, rect2)] *)
Definition intersect (rect1 rect2 : option ref) : M heap bool :=
  match rect1 with
  | None => throw (DeveloperError "rect1 is required.")
  | Some rect1 =>
    match rect2 with
    | None => throw (DeveloperError "rect2 is required.")
    | Some rect2 =>
      a <- read rect1 ;;
      b <- read rect2 ;;
      ret (negb ((x b + width b <? x a) ||
                 (x a + width a <? x b) ||
                 (y a + height a <? y b) ||
                 (y b + height b <? y a)))
    end
  end.

(** The methods of a rectangle; [this] is the rectangle they are called
    on. *)
Module prototype.

(** [BoundingRectangle.prototype.union(rectangle, result)] *)
Definition union (this : ref) (rectangle result : option ref) : M heap ref :=
  match rectangle with
  | None => throw (DeveloperError "rectangle is required.")
  | Some _ => union (Some this) rectangle result
  end.

(** [BoundingRectangle.prototype.intersect(rect)] *)
Definition intersect (this : ref) (rect : option ref) : M heap bool :=
  match rect with
  | None => throw (DeveloperError "rect is required.")
  | Some _ => intersect (Some this) rect
  end.

(** [BoundingRectangle.prototype.clone(result)] *)
Definition clone (this : ref) (result : option ref) : M heap ref :=
  clone (Some this) result.

(** [BoundingRectangle.prototype.equals(right)] *)
Definition equals (this : ref) (right : option ref) : M heap bool :=
  equals (Some this) right.

End prototype.

(** *** Vocabulary of the statements below *)

Definition point (x y : float) : Cartesian2.Cartesian2 :=
  {| Cartesian2.x := x; Cartesian2.y := y |}.

(** [m] is a minimum of [vs] for the [<] of the source: one of them, and
    none of them is below it. [minimumOf vs m] and no NaN among [vs]
    give [m <= v] for every [v] (lemma [minimumOf_leb]). *)
Definition minimumOf (vs : list float) (m : float) : Prop :=
  m ∈ vs /\ forall v, v ∈ vs -> (v <? m) = false.

Definition maximumOf (vs : list float) (m : float) : Prop :=
  m ∈ vs /\ forall v, v ∈ vs -> (m <? v) = false.

Definition hasNaN (r : BoundingRectangle) : bool :=
  isNaN (x r) || isNaN (y r) || isNaN (width r) || isNaN (height r).

Definition allFinite (r : BoundingRectangle) : bool :=
  isFinite (x r) && isFinite (y r) && isFinite (width r) && isFinite (height r).

(** An optional argument that, when given, is a rectangle of the heap. *)
Definition rectangleOrUndefined (h : heap) (o : option ref) : Prop :=
  forall r, o = Some r -> is_Some (h !! r).

(** The variables of [fromPoints] before its loop. *)
Definition fromPoints_start (p0 : Cartesian2.Cartesian2) : extrema :=
  {| minimumX := Cartesian2.x p0; minimumY := Cartesian2.y p0;
     maximumX := Cartesian2.x p0; maximumY := Cartesian2.y p0 |}.

(** The loop invariant: after the points [seen], the four variables hold
    the extrema of their coordinates. *)
Definition extremaOf (seen : list Cartesian2.Cartesian2) (e : extrema) : Prop :=
  minimumOf (Cartesian2.x <$> seen) (minimumX e) /\
  minimumOf (Cartesian2.y <$> seen) (minimumY e) /\
  maximumOf (Cartesian2.x <$> seen) (maximumX e) /\
  maximumOf (Cartesian2.y <$> seen) (maximumY e).

(** [equals(union(a, b), union(b, a))] *)
Definition equalsOfUnions (a b : ref) : M heap bool :=
  u <- union (Some a) (Some b) None ;;
  v <- union (Some b) (Some a) None ;;
  equals (Some u) (Some v).

(** [var c = rect.clone(); rect.equals(c)] *)
Definition equalsOfClone (rect : ref) : M heap bool :=
  c <- prototype.clone rect None ;;
  prototype.equals rect (Some c).

(** Two rectangles that touch in no point, and a third with NaN
    components. *)
Definition threeRectangles : heap :=
  [ {| x := 0; y := 0; width := 2; height := 2 |};
    {| x := 3; y := 3; width := 1; height := 1 |};
    {| x := nan; y := nan; width := 1; height := 1 |} ].

(** [equals(fromPoints(positions), fromPoints(positions'))] *)
Definition equalsOfFromPoints (positions positions' : list Cartesian2.Cartesian2)
  : M heap bool :=
  a <- fromPoints (Some positions) ;;
  b <- fromPoints (Some positions') ;;
  equals (Some a) (Some b).

End BoundingRectangle.

(** ** CZML packets, as far as DynamicExternalDocument reads them *)

Module Czml.

(** [packet.external]: every field may be undefined. [data] is the type
    of the raw CZML of one property. *)
Record externalData (data : Type) := {
  interval : option string;
  scope : option string;
  polling : option data;
  refreshInterval : option data;
  eventsource : option data;
  eventname : option data
}.
Arguments interval {data} _.
Arguments scope {data} _.
Arguments polling {data} _.
Arguments refreshInterval {data} _.
Arguments eventsource {data} _.
Arguments eventname {data} _.

Record packet (data : Type) := {
  external : option (externalData data)
}.
Arguments external {data} _.

End Czml.

(** ** DynamicScene/DynamicExternalDocument.js *)

Module DynamicExternalDocument.

Open Scope js_scope.

(** The value types a DynamicProperty is created with. *)
Inductive valueType := CzmlString | CzmlNumber.

(** The fields of a DynamicExternalDocument. The constructor sets
    [polling] and [show]; the others appear when first assigned. A
    property-valued field holds a reference to a DynamicProperty; nothing
    in the file assigns [show]. *)
Record DynamicExternalDocument := {
  polling : option ref;
  show : option ref;
  scope : option string;
  refreshInterval : option ref;
  eventsource : option ref;
  eventname : option ref
}.

(** [new DynamicExternalDocument()] *)
Definition emptyDocument : DynamicExternalDocument :=
  {| polling := None; show := None; scope := None;
     refreshInterval := None; eventsource := None; eventname := None |}.

Definition set_scope (v : option string) (d : DynamicExternalDocument) :=
  {| polling := polling d; show := show d; scope := v;
     refreshInterval := refreshInterval d; eventsource := eventsource d;
     eventname := eventname d |}.
Definition set_polling (v : option ref) (d : DynamicExternalDocument) :=
  {| polling := v; show := show d; scope := scope d;
     refreshInterval := refreshInterval d; eventsource := eventsource d;
     eventname := eventname d |}.
Definition set_refreshInterval (v : option ref) (d : DynamicExternalDocument) :=
  {| polling := polling d; show := show d; scope := scope d;
     refreshInterval := v; eventsource := eventsource d;
     eventname := eventname d |}.
Definition set_eventsource (v : option ref) (d : DynamicExternalDocument) :=
  {| polling := polling d; show := show d; scope := scope d;
     refreshInterval := refreshInterval d; eventsource := v;
     eventname := eventname d |}.
Definition set_eventname (v : option ref) (d : DynamicExternalDocument) :=
  {| polling := polling d; show := show d; scope := scope d;
     refreshInterval := refreshInterval d; eventsource := eventsource d;
     eventname := v |}.

(** Modelled from the spec: [defaultValue] (Core/defaultValue.js is not
    among the sources): the first argument unless it is undefined, else
    the second, which may be undefined too. *)
Definition defaultValue {A} (a b : option A) : option A :=
  match a with
  | Some v => Some v
  | None => b
  end.

(** The four property-valued fields, by name. *)
Inductive propertyField := Polling | RefreshInterval | Eventsource | Eventname.

#[global] Instance propertyField_eq_dec : EqDecision propertyField.
Proof. solve_decision. Defined.

Definition getField (f : propertyField) (d : DynamicExternalDocument) : option ref :=
  match f with
  | Polling => polling d
  | RefreshInterval => refreshInterval d
  | Eventsource => eventsource d
  | Eventname => eventname d
  end.

Definition setField (f : propertyField) (v : option ref) (d : DynamicExternalDocument) :=
  match f with
  | Polling => set_polling v d
  | RefreshInterval => set_refreshInterval v d
  | Eventsource => set_eventsource v d
  | Eventname => set_eventname v d
  end.

#[global] Instance DynamicExternalDocument_eq_dec : EqDecision DynamicExternalDocument.
Proof. solve_decision. Defined.

Section Collaborators.

(** What the file imports and the sources do not contain, as parameters.

    - [TimeInterval.fromIso8601] parses an interval and may throw.
    - A DynamicProperty object has a state of type [DynamicProperty];
      [new DynamicProperty(valueType)] gives its first state, and
      [processCzmlIntervals] changes the state of the property it is
      called on, and nothing else, and may throw.
    - A DynamicObject has attributes other than [external]. *)
Variable TimeInterval : Type.
Variable fromIso8601 : string -> completion TimeInterval.
Variable data : Type.
Variable DynamicProperty : Type.
Variable newDynamicProperty : valueType -> DynamicProperty.
Variable processCzmlIntervals :
  DynamicProperty -> data -> option TimeInterval -> DynamicProperty * completion unit.
Variable attributes : Type.

Record DynamicObject := {
  external : option ref;
  others : attributes
}.

Definition set_external (v : option ref) (o : DynamicObject) :=
  {| external := v; others := others o |}.

(** The heap: the DynamicObjects, the documents and the properties
    allocated so far, each kind with its own references. *)
Record heap := {
  objects : list DynamicObject;
  documents : list DynamicExternalDocument;
  properties : list DynamicProperty
}.

Definition set_objects (l : list DynamicObject) (h : heap) :=
  {| objects := l; documents := documents h; properties := properties h |}.
Definition set_documents (l : list DynamicExternalDocument) (h : heap) :=
  {| objects := objects h; documents := l; properties := properties h |}.
Definition set_properties (l : list DynamicProperty) (h : heap) :=
  {| objects := objects h; documents := documents h; properties := l |}.

(** *** Object access *)

Definition undefinedReference {A} : M heap A :=
  throw (TypeError "Cannot access a property of undefined").

(** [dynamicObject.external] *)
Definition getExternal (o : ref) : M heap (option ref) :=
  fun h =>
    match objects h !! o with
    | Some e => ret (external e) h
    | None => undefinedReference h
    end.

(** [dynamicObject.external = v] *)
Definition setExternal (o : ref) (v : option ref) : M heap unit :=
  fun h =>
    match objects h !! o with
    | Some e => (set_objects (<[o := set_external v e]> (objects h)) h, Normal tt)
    | None => undefinedReference h
    end.

(** [new DynamicExternalDocument()] *)
Definition newDynamicExternalDocument : M heap ref :=
  fun h => (set_documents (documents h ++ [emptyDocument]) h,
            Normal (length (documents h))).

(** [external.field] *)
Definition get {A} (d : ref) (field : DynamicExternalDocument -> A) : M heap A :=
  fun h =>
    match documents h !! d with
    | Some doc => ret (field doc) h
    | None => undefinedReference h
    end.

(** [external.field = v], for [set_field v] *)
Definition set (d : ref) (update : DynamicExternalDocument -> DynamicExternalDocument)
  : M heap unit :=
  fun h =>
    match documents h !! d with
    | Some doc => (set_documents (<[d := update doc]> (documents h)) h, Normal tt)
    | None => undefinedReference h
    end.

(** [new DynamicProperty(valueType)] *)
Definition new_DynamicProperty (t : valueType) : M heap ref :=
  fun h => (set_properties (properties h ++ [newDynamicProperty t]) h,
            Normal (length (properties h))).

(** [property.processCzmlIntervals(czmlIntervals, interval)] *)
Definition property_processCzmlIntervals
    (p : ref) (czmlIntervals : data) (interval : option TimeInterval) : M heap unit :=
  fun h =>
    match properties h !! p with
    | Some s =>
        let (s', c) := processCzmlIntervals s czmlIntervals interval in
        (set_properties (<[p := s']> (properties h)) h, c)
    | None => undefinedReference h
    end.

(** [TimeInterval.fromIso8601(interval)] *)
Definition TimeInterval_fromIso8601 (s : string) : M heap TimeInterval :=
  fun h => (h, fromIso8601 s).

(** *** The three functions of the file *)

(** [DynamicExternalDocument.processCzmlPacket(dynamicObject, packet)].
    The local variable [externalUpdated] is threaded through: a group of
    statements that may assign it yields its value. *)
Definition processCzmlPacket (dynamicObject : ref) (packet : Czml.packet data) : M heap bool :=
  match Czml.external packet with
  | None => ret false
  | Some externalData =>
    r <- (external0 <- getExternal dynamicObject ;;
          match external0 with
          | None =>
              d <- newDynamicExternalDocument ;;
              setExternal dynamicObject (Some d) ;;
              ret (d, true)
          | Some d => ret (d, false)
          end) ;;
    let external := r.1 in
    let externalUpdated := r.2 in
    interval <- match Czml.interval externalData with
                | Some s => i <- TimeInterval_fromIso8601 s ;; ret (Some i)
                | None => ret None
                end ;;
    externalUpdated <-
      match Czml.scope externalData with
      | Some s =>
          scope0 <- get external scope ;;
          match scope0 with
          | None => set external (set_scope (Some s)) ;; ret true
          | Some _ => ret externalUpdated
          end
      | None => ret externalUpdated
      end ;;
    match Czml.polling externalData with
    | Some pollingData =>
        r <- (polling0 <- get external polling ;;
              match polling0 with
              | None =>
                  p <- new_DynamicProperty CzmlString ;;
                  set external (set_polling (Some p)) ;;
                  ret (p, true)
              | Some p => ret (p, externalUpdated)
              end) ;;
        let polling := r.1 in
        let externalUpdated := r.2 in
        property_processCzmlIntervals polling pollingData interval ;;
        match Czml.refreshInterval externalData with
        | Some refreshIntervalData =>
            refreshInterval0 <- get external refreshInterval ;;
            match refreshInterval0 with
            | None =>
                p <- new_DynamicProperty CzmlNumber ;;
                set external (set_refreshInterval (Some p)) ;;
                property_processCzmlIntervals p refreshIntervalData interval ;;
                ret true
            | Some _ => ret externalUpdated
            end
        | None => ret externalUpdated
        end
    | None =>
        match Czml.eventsource externalData with
        | Some eventsourceData =>
            r <- (eventsource0 <- get external eventsource ;;
                  match eventsource0 with
                  | None =>
                      p <- new_DynamicProperty CzmlString ;;
                      set external (set_eventsource (Some p)) ;;
                      ret (p, true)
                  | Some p => ret (p, externalUpdated)
                  end) ;;
            let eventsource := r.1 in
            let externalUpdated := r.2 in
            property_processCzmlIntervals eventsource eventsourceData interval ;;
            match Czml.eventname externalData with
            | Some eventnameData =>
                eventname0 <- get external eventname ;;
                match eventname0 with
                | None =>
                    p <- new_DynamicProperty CzmlString ;;
                    set external (set_eventname (Some p)) ;;
                    property_processCzmlIntervals p eventnameData interval ;;
                    ret true
                | Some _ => ret externalUpdated
                end
            | None => ret externalUpdated
            end
        | None => ret externalUpdated
        end
    end
  end.

(** [DynamicExternalDocument.mergeProperties(targetObject, objectToMerge)] *)
Definition mergeProperties (targetObject objectToMerge : ref) : M heap unit :=
  externalToMerge <- getExternal objectToMerge ;;
  match externalToMerge with
  | Some externalToMerge =>
      targetExternal <- (targetExternal0 <- getExternal targetObject ;;
                         match targetExternal0 with
                         | None =>
                             d <- newDynamicExternalDocument ;;
                             setExternal targetObject (Some d) ;;
                             ret d
                         | Some d => ret d
                         end) ;;
      a <- get targetExternal polling ;;
      b <- get externalToMerge polling ;;
      set targetExternal (set_polling (defaultValue a b))
  | None => ret tt
  end.

(** [DynamicExternalDocument.undefineProperties(dynamicObject)] *)
Definition undefineProperties (dynamicObject : ref) : M heap unit :=
  setExternal dynamicObject None.

(** *** Vocabulary of the statements below *)

(** The document of a DynamicObject, if it has one. *)
Definition documentOf (h : heap) (o : ref) : option DynamicExternalDocument :=
  e ← objects h !! o; d ← external e; documents h !! d.

(** [dynamicObject.external.field], undefined also where there is no
    document. *)
Definition fieldOf {A} (h : heap) (o : ref) (field : DynamicExternalDocument -> option A)
  : option A :=
  documentOf h o ≫= field.

(** The state of the property a field refers to. *)
Definition stateOf (h : heap) (p : option ref) : option DynamicProperty :=
  p ≫= (properties h !!.).

(** What parsing [externalData.interval] gives: no interval where the
    packet has none, the interval, or the exception of [fromIso8601]. *)
Definition intervalOf (x : Czml.externalData data) : completion (option TimeInterval) :=
  match Czml.interval x with
  | Some s =>
      match fromIso8601 s with
      | Normal i => Normal (Some i)
      | Throw e => Throw e
      end
  | None => Normal None
  end.

(** The heap after a sequence of calls of [processCzmlPacket], each on
    its own DynamicObject, whether they return or throw. *)
Definition afterPackets (calls : list (ref * Czml.packet data)) (h : heap) : heap :=
  fold_left (fun h c => (processCzmlPacket c.1 c.2 h).1) calls h.

(** *** The statement groups of [processCzmlPacket]

    The function is the sequence of [externalGroup] (lines 30-35),
    [intervalGroup] (lines 37-40), [scopeGroup] (lines 42-47) and
    [strategies] (lines 49-81), see [processCzmlPacket_groups]. The polling
    branch (lines 49-65) and the eventsource branch (lines 66-81) are the
    same statements on two pairs of fields: [strategy] is that text, for
    the main field [f1] and the write-once field [f2]. *)
Definition strategy (external : ref) (f1 f2 : propertyField) (t2 : valueType)
    (x1 : data) (x2 : option data) (interval : option TimeInterval)
    (externalUpdated : bool) : M heap bool :=
  r <- (p0 <- get external (getField f1) ;;
        match p0 with
        | None =>
            p <- new_DynamicProperty CzmlString ;;
            set external (setField f1 (Some p)) ;;
            ret (p, true)
        | Some p => ret (p, externalUpdated)
        end) ;;
  property_processCzmlIntervals r.1 x1 interval ;;
  match x2 with
  | Some x2 =>
      q0 <- get external (getField f2) ;;
      match q0 with
      | None =>
          p <- new_DynamicProperty t2 ;;
          set external (setField f2 (Some p)) ;;
          property_processCzmlIntervals p x2 interval ;;
          ret true
      | Some _ => ret r.2
      end
  | None => ret r.2
  end.

Definition strategies (x : Czml.externalData data) (external : ref)
    (interval : option TimeInterval) (externalUpdated : bool) : M heap bool :=
  match Czml.polling x with
  | Some pollingData =>
      strategy external Polling RefreshInterval CzmlNumber
        pollingData (Czml.refreshInterval x) interval externalUpdated
  | None =>
      match Czml.eventsource x with
      | Some eventsourceData =>
          strategy external Eventsource Eventname CzmlString
            eventsourceData (Czml.eventname x) interval externalUpdated
      | None => ret externalUpdated
      end
  end.

Definition externalGroup (o : ref) : M heap (ref * bool) :=
  external0 <- getExternal o ;;
  match external0 with
  | None => d <- newDynamicExternalDocument ;; setExternal o (Some d) ;; ret (d, true)
  | Some d => ret (d, false)
  end.

Definition intervalGroup (x : Czml.externalData data) : M heap (option TimeInterval) :=
  match Czml.interval x with
  | Some s => i <- TimeInterval_fromIso8601 s ;; ret (Some i)
  | None => ret None
  end.

Definition scopeGroup (x : Czml.externalData data) (external : ref) (externalUpdated : bool)
  : M heap bool :=
  match Czml.scope x with
  | Some s =>
      scope0 <- get external scope ;;
      match scope0 with
      | None => set external (set_scope (Some s)) ;; ret true
      | Some _ => ret externalUpdated
      end
  | None => ret externalUpdated
  end.

(** *** Vocabulary of the proofs *)

(** A computation keeps [R] between the heap before and the heap after,
    whether it returns or throws. *)
Definition preserves (R : heap -> heap -> Prop) {A} (c : M heap A) : Prop :=
  forall h, R h (c h).1.

(** [writeOnce h h']: every DynamicObject of [h] is in [h'] with its other
    attributes and, if it had one, its document; every document of [h] is
    in [h'], and each field that was set has kept its value. *)
Definition writeOnce (h h' : heap) : Prop :=
  (forall o e, objects h !! o = Some e ->
     exists e', objects h' !! o = Some e' /\ others e' = others e /\
                forall d, external e = Some d -> external e' = Some d) /\
  (forall d doc, documents h !! d = Some doc ->
     exists doc', documents h' !! d = Some doc' /\
                  (forall s, scope doc = Some s -> scope doc' = Some s) /\
                  (forall f p, getField f doc = Some p -> getField f doc' = Some p)).

(** [settled h o r s]: the document of [o] has the refreshInterval
    property [r], whose state is [s]; [r] is not also the polling or the
    eventsource property of that document, and these two, where set, are
    properties of the heap. *)
Definition settled (h : heap) (o r : ref) (s : DynamicProperty) : Prop :=
  exists e,
    objects h !! o = Some e /\
    (forall d, external e = Some d -> is_Some (documents h !! d)) /\
    fieldOf h o refreshInterval = Some r /\
    properties h !! r = Some s /\
    forall f q, f = Polling \/ f = Eventsource ->
                fieldOf h o (getField f) = Some q ->
                q <> r /\ is_Some (properties h !! q).

(** *** Vocabulary of the statements on whole heaps *)

(** The property fields a packet makes [processCzmlPacket] look at:
    [polling] when the packet has it, and then [refreshInterval];
    [eventsource] when the packet has it and no [polling], and then
    [eventname] (lines 49, 57, 66 and 73). *)
Definition declares (x : Czml.externalData data) (f : propertyField) : Prop :=
  match f with
  | Polling => is_Some (Czml.polling x)
  | RefreshInterval => is_Some (Czml.polling x) /\ is_Some (Czml.refreshInterval x)
  | Eventsource => Czml.polling x = None /\ is_Some (Czml.eventsource x)
  | Eventname =>
      Czml.polling x = None /\ is_Some (Czml.eventsource x) /\ is_Some (Czml.eventname x)
  end.

(** A heap without dangling references: the document of every
    DynamicObject and the properties of every document are in the heap,
    and no two DynamicObjects have the same document. *)
Definition wellFormed (h : heap) : Prop :=
  (forall o e d, objects h !! o = Some e -> external e = Some d ->
     is_Some (documents h !! d)) /\
  (forall d doc f p, documents h !! d = Some doc -> getField f doc = Some p ->
     is_Some (properties h !! p)) /\
  (forall o1 o2 e1 e2 d,
     objects h !! o1 = Some e1 -> objects h !! o2 = Some e2 ->
     external e1 = Some d -> external e2 = Some d -> o1 = o2).

(** A call of one of the three functions of the file. *)
Inductive call :=
| ProcessCzmlPacket (dynamicObject : ref) (packet : Czml.packet data)
| MergeProperties (targetObject objectToMerge : ref)
| UndefineProperties (dynamicObject : ref).

(** The DynamicObjects a call is given. *)
Definition argumentsOf (c : call) : list ref :=
  match c with
  | ProcessCzmlPacket o _ => [o]
  | MergeProperties t s => [t; s]
  | UndefineProperties o => [o]
  end.

(** The heap after a call, whether it returns or throws, and after a
    sequence of calls. *)
Definition afterCall (h : heap) (c : call) : heap :=
  match c with
  | ProcessCzmlPacket o packet => (processCzmlPacket o packet h).1
  | MergeProperties t s => (mergeProperties t s h).1
  | UndefineProperties o => (undefineProperties o h).1
  end.

Definition afterCalls (calls : list call) (h : heap) : heap :=
  fold_left afterCall calls h.

(** The state of a property after the data of a sequence of packets, each
    with its interval, was fed to it in order. *)
Definition fedWith (start : DynamicProperty) (feeds : list (data * option TimeInterval))
  : DynamicProperty :=
  fold_left (fun state f => (processCzmlIntervals state f.1 f.2).1) feeds start.

(** [fedOnce h o f n state]: the field [f] of the document of [o] refers
    to the property [n], whose state is [state]; [n] is not also the
    polling or the eventsource property of that document, and these two,
    where set, are properties of the heap. *)
Definition fedOnce (h : heap) (o : ref) (f : propertyField) (n : ref)
    (state : DynamicProperty) : Prop :=
  exists e,
    objects h !! o = Some e /\
    (forall d, external e = Some d -> is_Some (documents h !! d)) /\
    fieldOf h o (getField f) = Some n /\
    properties h !! n = Some state /\
    forall g q, g = Polling \/ g = Eventsource ->
                fieldOf h o (getField g) = Some q ->
                q <> n /\ is_Some (properties h !! q).

End Collaborators.

Arguments external {attributes} _.
Arguments others {attributes} _.
Arguments set_external {attributes} v o.
Arguments objects {DynamicProperty attributes} _.
Arguments documents {DynamicProperty attributes} _.
Arguments properties {DynamicProperty attributes} _.
Arguments set_objects {DynamicProperty attributes} l h.
Arguments set_documents {DynamicProperty attributes} l h.
Arguments set_properties {DynamicProperty attributes} l h.
Arguments undefinedReference {DynamicProperty attributes A}.
Arguments getExternal {DynamicProperty attributes} o.
Arguments setExternal {DynamicProperty attributes} o v.
Arguments newDynamicExternalDocument {DynamicProperty attributes}.
Arguments get {DynamicProperty attributes A} d field.
Arguments set {DynamicProperty attributes} d update.
Arguments new_DynamicProperty {DynamicProperty} newDynamicProperty {attributes} t.
Arguments property_processCzmlIntervals {TimeInterval data DynamicProperty}
  processCzmlIntervals {attributes} p czmlIntervals interval.
Arguments TimeInterval_fromIso8601 {TimeInterval} fromIso8601 {DynamicProperty attributes} s.
Arguments processCzmlPacket {TimeInterval} fromIso8601 {data DynamicProperty}
  newDynamicProperty processCzmlIntervals {attributes} dynamicObject packet.
Arguments documentOf {DynamicProperty attributes} h o.
Arguments fieldOf {DynamicProperty attributes A} h o field.
Arguments stateOf {DynamicProperty attributes} h p.
Arguments intervalOf {TimeInterval} fromIso8601 {data} x.
Arguments afterPackets {TimeInterval} fromIso8601 {data DynamicProperty}
  newDynamicProperty processCzmlIntervals {attributes} calls h.
Arguments strategy {TimeInterval data DynamicProperty} newDynamicProperty
  processCzmlIntervals {attributes} external f1 f2 t2 x1 x2 interval externalUpdated.
Arguments strategies {TimeInterval data DynamicProperty} newDynamicProperty
  processCzmlIntervals {attributes} x external interval externalUpdated.
Arguments externalGroup {DynamicProperty attributes} o.
Arguments intervalGroup {TimeInterval} fromIso8601 {data DynamicProperty attributes} x.
Arguments scopeGroup {data DynamicProperty attributes} x external externalUpdated.
Arguments preserves {DynamicProperty attributes} R {A} c.
Arguments writeOnce {DynamicProperty attributes} h h'.
Arguments settled {DynamicProperty attributes} h o r s.
Arguments mergeProperties {DynamicProperty attributes} targetObject objectToMerge.
Arguments undefineProperties {DynamicProperty attributes} dynamicObject.

Arguments declares {data} x f.
Arguments wellFormed {DynamicProperty attributes} h.
Arguments ProcessCzmlPacket {data} dynamicObject packet.
Arguments MergeProperties {data} targetObject objectToMerge.
Arguments UndefineProperties {data} dynamicObject.
Arguments argumentsOf {data} c.
Arguments afterCall {TimeInterval} fromIso8601 {data DynamicProperty}
  newDynamicProperty processCzmlIntervals {attributes} h c.
Arguments afterCalls {TimeInterval} fromIso8601 {data DynamicProperty}
  newDynamicProperty processCzmlIntervals {attributes} calls h.
Arguments fedWith {TimeInterval data DynamicProperty} processCzmlIntervals start feeds.
Arguments fedOnce {DynamicProperty attributes} h o f n state.

End DynamicExternalDocument.

(** ** A concrete instance of the collaborators

    Used to run the functions on concrete packets. *)

Module Concrete.

Import DynamicExternalDocument.

(** Modelled from the spec: Time Interval (Core/TimeInterval.js is not among
    the sources), kept as its ISO 8601 text, a start and an end separated
    by a solidus; a text without one is malformed and [fromIso8601] fails
    on it. *)
Definition TimeInterval := string.

Fixpoint hasSolidus (s : string) : bool :=
  match s with
  | EmptyString => false
  | String c s' => if Ascii.eqb c "/"%char then true else hasSolidus s'
  end.

Definition fromIso8601 (s : string) : completion TimeInterval :=
  if hasSolidus s then Normal s
  else Throw (OtherError "MalformedIntervalError" s).

(** Modelled from the spec: Dynamic Property (DynamicScene/DynamicProperty.js
    is not among the sources): a value type and the bindings fed so far, in
    the order they were processed, each with the interval it was given. *)
Record DynamicProperty := {
  valueType : DynamicExternalDocument.valueType;
  bindings : list (option TimeInterval * string)
}.

Definition newDynamicProperty (t : DynamicExternalDocument.valueType) : DynamicProperty :=
  {| valueType := t; bindings := [] |}.

Definition processCzmlIntervals
    (p : DynamicProperty) (czmlIntervals : string) (interval : option TimeInterval)
  : DynamicProperty * completion unit :=
  ({| valueType := valueType p; bindings := bindings p ++ [(interval, czmlIntervals)] |},
   Normal tt).

Abbreviation heap := (DynamicExternalDocument.heap DynamicProperty string).

Definition processCzmlPacket : ref -> Czml.packet string -> M heap bool :=
  DynamicExternalDocument.processCzmlPacket
    fromIso8601 newDynamicProperty processCzmlIntervals.

Definition mergeProperties : ref -> ref -> M heap unit :=
  DynamicExternalDocument.mergeProperties.

Definition undefineProperties : ref -> M heap unit :=
  DynamicExternalDocument.undefineProperties.

(** A packet with the given fields of [external]. *)
Definition noData : Czml.externalData string :=
  {| Czml.interval := None; Czml.scope := None; Czml.polling := None;
     Czml.refreshInterval := None; Czml.eventsource := None; Czml.eventname := None |}.

Definition packetOf (x : Czml.externalData string) : Czml.packet string :=
  {| Czml.external := Some x |}.

(** A DynamicObject with no external document yet. *)
Definition object (id : string) : DynamicObject string :=
  {| external := None; others := id |}.

Definition oneObject : heap :=
  {| objects := [object "entity"]; documents := []; properties := [] |}.

(** The [external] of the packets of the spec's examples, and the
    packets. *)
Definition scopeData (s : string) : Czml.externalData string :=
  {| Czml.interval := None; Czml.scope := Some s; Czml.polling := None;
     Czml.refreshInterval := None; Czml.eventsource := None; Czml.eventname := None |}.

Definition pollingData (url : string) (refresh : option string) : Czml.externalData string :=
  {| Czml.interval := None; Czml.scope := None; Czml.polling := Some url;
     Czml.refreshInterval := refresh; Czml.eventsource := None; Czml.eventname := None |}.

Definition eventsourceData (stream : string) : Czml.externalData string :=
  {| Czml.interval := None; Czml.scope := None; Czml.polling := None;
     Czml.refreshInterval := None; Czml.eventsource := Some stream;
     Czml.eventname := None |}.

Definition bothData (url stream name : string) : Czml.externalData string :=
  {| Czml.interval := None; Czml.scope := None; Czml.polling := Some url;
     Czml.refreshInterval := None; Czml.eventsource := Some stream;
     Czml.eventname := Some name |}.

Definition scopePacket (s : string) := packetOf (scopeData s).
Definition pollingPacket (url : string) (refresh : option string) :=
  packetOf (pollingData url refresh).
Definition eventsourcePacket (stream : string) := packetOf (eventsourceData stream).
Definition bothPacket (url stream name : string) := packetOf (bothData url stream name).

(** The heap after [{polling: "url1"}] was processed on [oneObject]. *)
Definition polled : heap :=
  {| objects := [ {| external := Some 0; others := "entity" |} ];
     documents := [ set_polling (Some 0) emptyDocument ];
     properties := [ {| valueType := CzmlString; bindings := [(None, "url1")] |} ] |}.

(** A target without a document and a source whose document polls. *)
Definition targetAndSource : heap :=
  {| objects := [ object "target"; {| external := Some 0; others := "source" |} ];
     documents := [ set_polling (Some 0) emptyDocument ];
     properties := [ {| valueType := CzmlString; bindings := [(None, "url1")] |} ] |}.

Definition afterCalls : list (call string) -> heap -> heap :=
  DynamicExternalDocument.afterCalls fromIso8601 newDynamicProperty processCzmlIntervals.

(** A packet whose interval has no solidus, and that declares a scope and
    polling. *)
Definition malformedData : Czml.externalData string :=
  {| Czml.interval := Some "2012-03-15T10:00:00Z"; Czml.scope := Some "SHARED";
     Czml.polling := Some "url1"; Czml.refreshInterval := Some "30";
     Czml.eventsource := None; Czml.eventname := None |}.

(** A packet with [refreshInterval] and [eventname], and neither
    [polling] nor [eventsource]. *)
Definition orphanData (refresh name : option string) : Czml.externalData string :=
  {| Czml.interval := None; Czml.scope := Some "SHARED"; Czml.polling := None;
     Czml.refreshInterval := refresh; Czml.eventsource := None; Czml.eventname := name |}.

(** Three calls on the two DynamicObjects of [targetAndSource]. *)
Definition threeCalls : list (call string) :=
  [ ProcessCzmlPacket 0 (scopePacket "SHARED");
    MergeProperties 0 1;
    UndefineProperties 1 ].

Definition twoCalls : list (call string) :=
  [ MergeProperties 0 1;
    ProcessCzmlPacket 0 (pollingPacket "url2" None) ].

(** Two packets with polling data, with the data and the interval each
    feeds. *)
Definition twoFeeds : list (Czml.packet string * (string * option TimeInterval)) :=
  [ (pollingPacket "url1" None, ("url1", None));
    (pollingPacket "url2" (Some "30"), ("url2", None)) ].

(** A packet with [eventsource] and [eventname]. *)
Definition namedData (stream name : string) : Czml.externalData string :=
  {| Czml.interval := None; Czml.scope := None; Czml.polling := None;
     Czml.refreshInterval := None; Czml.eventsource := Some stream;
     Czml.eventname := Some name |}.

End Concrete.

(** ** Facts about Numbers

    The order of binary64 values, read off [SpecFloat]'s comparison. *)

Module NumberFacts.

Import Number.
Open Scope float_scope.

Ltac sf_fold :=
  repeat match goal with
  | |- context [PosDef.Pos.compare_cont Eq ?a ?b] =>
      change (PosDef.Pos.compare_cont Eq a b) with (Pos.compare a b)
  | H : context [PosDef.Pos.compare_cont Eq ?a ?b] |- _ =>
      change (PosDef.Pos.compare_cont Eq a b) with (Pos.compare a b) in H
  end.

Ltac sf_cmp :=
  sf_fold;
  repeat match goal with
  | |- context [Z.compare ?a ?b] => destruct (Z.compare_spec a b)
  | |- context [Pos.compare ?a ?b] => destruct (Pos.compare_spec a b)
  | H : context [Z.compare ?a ?b] |- _ => destruct (Z.compare_spec a b)
  | H : context [Pos.compare ?a ?b] |- _ => destruct (Pos.compare_spec a b)
  end; cbn [CompOpp] in *; subst; try congruence; try lia.

Ltac sf_cases a m e := destruct a as [[]|[]| |[] m e].

Lemma SFcompare_antisym a b : SFcompare b a = CompOpp <$> SFcompare a b.
Proof.
  sf_cases a m1 e1; sf_cases b m2 e2; simpl; try reflexivity; f_equal; sf_cmp.
Qed.

Lemma SFcompare_Eq a b :
  SFcompare a b = Some Eq ->
  a = b \/ exists s1 s2, a = S754_zero s1 /\ b = S754_zero s2.
Proof.
  sf_cases a m1 e1; sf_cases b m2 e2; simpl; intros H; try discriminate;
  eauto; left; sf_cmp.
Qed.

Lemma SFcompare_refl a : a <> S754_nan -> SFcompare a a = Some Eq.
Proof. sf_cases a m e; simpl; intros H; try congruence; f_equal; sf_cmp. Qed.

Lemma SFcompare_None a b : SFcompare a b = None -> a = S754_nan \/ b = S754_nan.
Proof. sf_cases a m1 e1; sf_cases b m2 e2; simpl; intros H; try discriminate; auto. Qed.

Lemma SFltb_trans a b c : SFltb a b = true -> SFltb b c = true -> SFltb a c = true.
Proof.
  unfold SFltb.
  sf_cases a m1 e1; sf_cases b m2 e2; sf_cases c m3 e3; simpl;
  try discriminate; try reflexivity; intros H1 H2; sf_cmp.
Qed.

(** *** The same facts on [float] *)

Lemma isNaN_Prim2SF a : isNaN a = true <-> Prim2SF a = S754_nan.
Proof.
  unfold isNaN. rewrite FloatAxioms.eqb_spec. unfold SFeqb. split.
  - intros H. destruct (Prim2SF a) eqn:E; try reflexivity;
      rewrite SFcompare_refl in H by discriminate; discriminate.
  - intros ->. reflexivity.
Qed.

Lemma isNaN_false_Prim2SF a : isNaN a = false <-> Prim2SF a <> S754_nan.
Proof. rewrite <- isNaN_Prim2SF. destruct (isNaN a); split; congruence. Qed.

Lemma eqb_refl a : isNaN a = false -> (a =? a) = true.
Proof. unfold isNaN. destruct (a =? a); [reflexivity | discriminate]. Qed.

Lemma ltb_trans a b c : (a <? b) = true -> (b <? c) = true -> (a <? c) = true.
Proof. rewrite !FloatAxioms.ltb_spec. apply SFltb_trans. Qed.

Lemma ltb_asym a b : (a <? b) = true -> (b <? a) = false.
Proof.
  rewrite !FloatAxioms.ltb_spec. unfold SFltb. rewrite (SFcompare_antisym (Prim2SF a)).
  destruct (SFcompare (Prim2SF a) (Prim2SF b)) as [[]|]; simpl; congruence.
Qed.

Lemma ltb_isNaN_l a b : (a <? b) = true -> isNaN a = false.
Proof.
  rewrite FloatAxioms.ltb_spec, isNaN_false_Prim2SF. unfold SFltb. intros H E. rewrite E in H. discriminate.
Qed.

Lemma ltb_isNaN_r a b : (a <? b) = true -> isNaN b = false.
Proof.
  rewrite FloatAxioms.ltb_spec, isNaN_false_Prim2SF. unfold SFltb. intros H E. rewrite E in H.
  destruct (Prim2SF a); discriminate.
Qed.

(** On numbers that are not NaN the order is total. *)
Lemma ltb_false_leb a b :
  isNaN a = false -> isNaN b = false -> (a <? b) = false -> (b <=? a) = true.
Proof.
  rewrite !isNaN_false_Prim2SF, FloatAxioms.ltb_spec, FloatAxioms.leb_spec. unfold SFltb, SFleb.
  rewrite (SFcompare_antisym (Prim2SF a)). intros Ha Hb.
  destruct (SFcompare (Prim2SF a) (Prim2SF b)) as [[]|] eqn:E; simpl; try congruence.
  apply SFcompare_None in E. tauto.
Qed.

Lemma isNegativeZero_Prim2SF a : isNegativeZero a = true <-> Prim2SF a = S754_zero true.
Proof.
  unfold isNegativeZero. rewrite classify_spec. unfold SF64classify, SFclassify.
  destruct (Prim2SF a) as [[]|[]| |[] m e]; try (split; congruence);
  destruct (Z.eqb _ _); split; congruence.
Qed.

Lemma not_ltb_cases a b :
  isNaN a = false -> isNaN b = false -> (a <? b) = false -> (b <? a) = false ->
  a = b \/ exists s1 s2, Prim2SF a = S754_zero s1 /\ Prim2SF b = S754_zero s2.
Proof.
  rewrite !isNaN_false_Prim2SF, !FloatAxioms.ltb_spec. unfold SFltb.
  rewrite (SFcompare_antisym (Prim2SF a)). intros Ha Hb.
  destruct (SFcompare (Prim2SF a) (Prim2SF b)) as [[]|] eqn:E; simpl; try congruence.
  - intros _ _. apply SFcompare_Eq in E as [E|E]; [left; by apply Prim2SF_inj | by right].
  - apply SFcompare_None in E. tauto.
Qed.

Lemma min_comm a b : min a b = min b a.
Proof.
  unfold min. rewrite (orb_comm (isNaN b)).
  destruct (isNaN a) eqn:Ha, (isNaN b) eqn:Hb; simpl; try reflexivity.
  destruct (a <? b) eqn:Hab.
  - by rewrite (ltb_asym _ _ Hab).
  - destruct (b <? a) eqn:Hba; [reflexivity|].
    destruct (not_ltb_cases a b Ha Hb Hab Hba) as [->|(s1 & s2 & E1 & E2)].
    + by destruct (isNegativeZero b).
    + destruct (isNegativeZero a) eqn:Za, (isNegativeZero b) eqn:Zb; try reflexivity.
      * apply isNegativeZero_Prim2SF in Za, Zb. apply Prim2SF_inj. congruence.
      * apply Prim2SF_inj. rewrite E1, E2. f_equal.
        destruct s1, s2; try reflexivity.
        -- rewrite <- isNegativeZero_Prim2SF in E1. congruence.
        -- rewrite <- isNegativeZero_Prim2SF in E2. congruence.
Qed.

Lemma max_comm a b : max a b = max b a.
Proof.
  unfold max. rewrite (orb_comm (isNaN b)).
  destruct (isNaN a) eqn:Ha, (isNaN b) eqn:Hb; simpl; try reflexivity.
  destruct (a <? b) eqn:Hab.
  - by rewrite (ltb_asym _ _ Hab).
  - destruct (b <? a) eqn:Hba; [reflexivity|].
    destruct (not_ltb_cases a b Ha Hb Hab Hba) as [->|(s1 & s2 & E1 & E2)].
    + by destruct (isNegativeZero b).
    + destruct (isNegativeZero a) eqn:Za, (isNegativeZero b) eqn:Zb; try reflexivity.
      * apply isNegativeZero_Prim2SF in Za, Zb. apply Prim2SF_inj. congruence.
      * apply Prim2SF_inj. rewrite E1, E2. f_equal.
        destruct s1, s2; try reflexivity.
        -- rewrite <- isNegativeZero_Prim2SF in E1. congruence.
        -- rewrite <- isNegativeZero_Prim2SF in E2. congruence.
Qed.

Lemma min_isNaN a b : isNaN (min a b) = isNaN a || isNaN b.
Proof.
  unfold min. destruct (isNaN a) eqn:Ha, (isNaN b) eqn:Hb; simpl; try reflexivity.
  repeat match goal with |- context [if ?c then _ else _] => destruct c end; assumption.
Qed.

Lemma max_isNaN a b : isNaN (max a b) = isNaN a || isNaN b.
Proof.
  unfold max. destruct (isNaN a) eqn:Ha, (isNaN b) eqn:Hb; simpl; try reflexivity.
  repeat match goal with |- context [if ?c then _ else _] => destruct c end; assumption.
Qed.


(** *** Arithmetic on finite numbers never yields NaN *)

Lemma shr_1_nonneg mrs : (0 <= shr_m mrs)%Z -> (0 <= shr_m (shr_1 mrs))%Z.
Proof. destruct mrs as [[|[p|p|]|[p|p|]] r s]; simpl; lia. Qed.

Lemma iter_pos_shr_1_nonneg p mrs :
  (0 <= shr_m mrs)%Z -> (0 <= shr_m (SpecFloat.iter_pos shr_1 p mrs))%Z.
Proof.
  revert mrs. induction p as [p IH|p IH|]; intros mrs H; simpl.
  - apply IH, IH, shr_1_nonneg, H.
  - apply IH, IH, H.
  - apply shr_1_nonneg, H.
Qed.

Lemma shr_fexp_nonneg pr em m e l :
  (0 <= m)%Z -> (0 <= shr_m (fst (shr_fexp pr em m e l)))%Z.
Proof.
  intros H. unfold shr_fexp, shr.
  assert (0 <= shr_m (shr_record_of_loc m l))%Z by (destruct l as [|[]]; exact H).
  destruct (_ - e)%Z; simpl; auto using iter_pos_shr_1_nonneg.
Qed.

Lemma round_nearest_even_nonneg m l : (0 <= m)%Z -> (0 <= round_nearest_even m l)%Z.
Proof. destruct l as [|[]]; simpl; try destruct (Z.even m); lia. Qed.

Lemma binary_round_aux_not_nan pr em sx mx ex lx :
  (0 <= mx)%Z -> binary_round_aux pr em sx mx ex lx <> S754_nan.
Proof.
  intros H. unfold binary_round_aux.
  pose proof (shr_fexp_nonneg pr em mx ex lx H) as H1.
  destruct (shr_fexp pr em mx ex lx) as [mrs' e']. simpl in H1.
  pose proof (shr_fexp_nonneg pr em _ e' loc_Exact
                (round_nearest_even_nonneg _ (loc_of_shr_record mrs') H1)) as H2.
  destruct (shr_fexp pr em _ e' loc_Exact) as [mrs'' e'']. simpl in H2.
  destruct (shr_m mrs''); [discriminate | destruct (Z.leb _ _); discriminate | lia].
Qed.

Lemma binary_normalize_not_nan pr em m e sz : binary_normalize pr em m e sz <> S754_nan.
Proof.
  destruct m; simpl; [discriminate | |]; unfold binary_round;
  destruct (shl_align _ _ _); apply binary_round_aux_not_nan; lia.
Qed.

Lemma isFinite_Prim2SF a :
  isFinite a = true <->
  (exists s, Prim2SF a = S754_zero s) \/ (exists s m e, Prim2SF a = S754_finite s m e).
Proof.
  unfold isFinite. rewrite classify_spec. unfold SF64classify, SFclassify.
  destruct (Prim2SF a) as [[]|[]| |[] m e]; try destruct (Z.eqb _ _);
  split; try discriminate; eauto; intros [(? & ?)|(? & ? & ? & ?)]; discriminate.
Qed.

Lemma isFinite_isNaN a : isFinite a = true -> isNaN a = false.
Proof.
  rewrite isFinite_Prim2SF, isNaN_false_Prim2SF.
  intros [(? & ->)|(? & ? & ? & ->)]; discriminate.
Qed.

Lemma add_isFinite a b :
  isFinite a = true -> isFinite b = true -> isNaN (a + b) = false.
Proof.
  rewrite !isFinite_Prim2SF, isNaN_false_Prim2SF, add_spec. unfold SF64add, SFadd.
  intros [(sa & ->)|(sa & ma & ea & ->)] [(sb & ->)|(sb & mb & eb & ->)];
  try destruct sa; try destruct sb; try discriminate.
  all: apply binary_normalize_not_nan.
Qed.

Lemma sub_isFinite_r a b :
  isNaN a = false -> isFinite b = true -> isNaN (a - b) = false.
Proof.
  rewrite isFinite_Prim2SF, !isNaN_false_Prim2SF, sub_spec. unfold SF64sub, SFsub.
  intros Ha [(sb & ->)|(sb & mb & eb & ->)];
  destruct (Prim2SF a) as [[]|[]| |[] ma ea]; try destruct sb; try congruence.
  all: apply binary_normalize_not_nan.
Qed.

(** *** [===] is symmetric and transitive; comparisons with NaN *)

Lemma eqb_sym a b : (a =? b) = (b =? a).
Proof.
  rewrite !FloatAxioms.eqb_spec. unfold SFeqb. rewrite (SFcompare_antisym (Prim2SF a)).
  by destruct (SFcompare (Prim2SF a) (Prim2SF b)) as [[]|].
Qed.

Lemma eqb_trans a b c : (a =? b) = true -> (b =? c) = true -> (a =? c) = true.
Proof.
  rewrite !FloatAxioms.eqb_spec. unfold SFeqb.
  destruct (SFcompare (Prim2SF a) (Prim2SF b)) as [[]|] eqn:E1; try discriminate.
  destruct (SFcompare (Prim2SF b) (Prim2SF c)) as [[]|] eqn:E2; try discriminate.
  intros _ _.
  apply SFcompare_Eq in E1 as [E1|(s1 & s2 & E1 & E1')].
  - by rewrite E1, E2.
  - apply SFcompare_Eq in E2 as [E2|(s3 & s4 & E2 & E2')].
    + by rewrite <- E2, E1, E1'.
    + by rewrite E1, E2'.
Qed.

Lemma ltb_NaN_l a b : isNaN a = true -> (a <? b) = false.
Proof.
  intros H. destruct (a <? b) eqn:E; [|done]. apply ltb_isNaN_l in E. congruence.
Qed.

Lemma ltb_NaN_r a b : isNaN b = true -> (a <? b) = false.
Proof.
  intros H. destruct (a <? b) eqn:E; [|done]. apply ltb_isNaN_r in E. congruence.
Qed.

Lemma add_NaN_l a b : isNaN a = true -> isNaN (a + b) = true.
Proof. rewrite !isNaN_Prim2SF, add_spec. by intros ->. Qed.

Lemma sub_NaN_l a b : isNaN a = true -> isNaN (a - b) = true.
Proof. rewrite !isNaN_Prim2SF, sub_spec. by intros ->. Qed.

Lemma leb_negb_ltb a b : isNaN a = false -> isNaN b = false -> (a <=? b) = negb (b <? a).
Proof.
  rewrite !isNaN_false_Prim2SF, FloatAxioms.ltb_spec, FloatAxioms.leb_spec. unfold SFltb, SFleb.
  rewrite (SFcompare_antisym (Prim2SF a)). intros Ha Hb.
  destruct (SFcompare (Prim2SF a) (Prim2SF b)) as [[]|] eqn:E; simpl; try congruence.
  apply SFcompare_None in E. tauto.
Qed.

(** *** A difference [a - b] with [a] not below [b] is not negative

    The comparison of two finite numbers looks at the exponents first;
    that this agrees with the difference of the aligned mantissas is where
    the numbers being in canonical form ([Prim2SF_valid]) is used. *)

Lemma digits2_pos_bounds m :
  (2 ^ (Zpos (digits2_pos m) - 1) <= Zpos m < 2 ^ Zpos (digits2_pos m))%Z.
Proof.
  induction m as [m IH|m IH|]; cbn [digits2_pos]; [| |cbn; lia];
    rewrite Pos2Z.inj_succ;
    replace (Z.succ (Z.pos (digits2_pos m)) - 1)%Z with (Z.succ (Z.pos (digits2_pos m) - 1))
      by lia;
    rewrite !Z.pow_succ_r by lia; lia.
Qed.

Lemma iter_xO m d : Zpos (Pos.iter xO m d) = (Zpos m * 2 ^ Zpos d)%Z.
Proof.
  induction d as [|d IH] using Pos.peano_ind.
  - cbn. lia.
  - rewrite Pos.iter_succ, Pos2Z.inj_succ, Z.pow_succ_r, Pos2Z.inj_xO, IH by lia. lia.
Qed.

Lemma shl_align_fst m e ez :
  (ez <= e)%Z -> Zpos (fst (shl_align m e ez)) = (Zpos m * 2 ^ (e - ez))%Z.
Proof.
  intros H. unfold shl_align. destruct (ez - e)%Z as [|d|d] eqn:E; cbn [fst]; try lia.
  - replace (e - ez)%Z with 0%Z by lia. lia.
  - rewrite iter_xO. f_equal. f_equal. lia.
Qed.

(** Of two canonical numbers, the one with the larger exponent has the
    larger aligned mantissa. *)
Lemma canonical_lt m1 e1 m2 e2 :
  canonical_mantissa prec emax m1 e1 = true -> canonical_mantissa prec emax m2 e2 = true ->
  (e1 < e2)%Z -> (Zpos m1 < Zpos m2 * 2 ^ (e2 - e1))%Z.
Proof.
  unfold canonical_mantissa, fexp, SpecFloat.emin, prec, emax.
  intros C1%Z.eqb_eq C2%Z.eqb_eq H.
  pose proof (digits2_pos_bounds m1) as [_ U1].
  pose proof (digits2_pos_bounds m2) as [L2 _].
  assert (Zpos (digits2_pos m2) = 53)%Z as D2 by lia.
  assert (Zpos (digits2_pos m1) <= 53)%Z as D1 by lia.
  rewrite D2 in L2.
  assert (2 ^ Zpos (digits2_pos m1) <= 2 ^ 53)%Z by (apply Z.pow_le_mono_r; lia).
  assert (2 ^ 1 <= 2 ^ (e2 - e1))%Z by (apply Z.pow_le_mono_r; lia).
  change (2 ^ (53 - 1))%Z with 4503599627370496%Z in L2.
  change (2 ^ 53)%Z with 9007199254740992%Z in *.
  change (2 ^ 1)%Z with 2%Z in *. nia.
Qed.

Lemma binary_round_aux_notNegative mx ex lx :
  SFnotNegative (binary_round_aux prec emax false mx ex lx).
Proof.
  unfold binary_round_aux.
  destruct (shr_fexp prec emax mx ex lx) as [mrs' e'].
  destruct (shr_fexp prec emax _ e' loc_Exact) as [mrs'' e''].
  destruct (shr_m mrs''); [done| |done]. by destruct (Z.leb _ _).
Qed.

Lemma binary_normalize_notNegative m e :
  (0 <= m)%Z -> SFnotNegative (binary_normalize prec emax m e false).
Proof.
  destruct m as [|m|m]; [done| |lia]. intros _. cbn. unfold binary_round.
  destruct (shl_align _ _ _). apply binary_round_aux_notNegative.
Qed.

Lemma SFltb_zero r : SFnotNegative r -> SFltb r (S754_zero false) = false.
Proof. unfold SFltb. destruct r as [[]|[]| |[] m e]; cbn; congruence. Qed.

Lemma SFsub_notNegative a b :
  valid_binary a = true -> valid_binary b = true ->
  SFltb a b = false -> SFnotNegative (SFsub prec emax a b).
Proof.
  unfold SFltb.
  destruct a as [sa|sa| |sa ma ea], b as [sb|sb| |sb mb eb];
    try destruct sa; try destruct sb; cbn [SFsub SFcompare SFnotNegative valid_binary];
    try done.
  all: unfold bounded; intros [Ca _]%andb_true_iff [Cb _]%andb_true_iff Cmp;
    apply binary_normalize_notNegative; cbn [cond_Zopp].
  - (* both negative *)
    destruct (Z.compare_spec ea eb) as [->|Hlt|Hgt]; [| |done].
    + rewrite Z.min_id, !shl_align_fst, Z.sub_diag by lia.
      sf_fold. destruct (Pos.compare_spec ma mb); cbn in Cmp; try done; lia.
    + rewrite Z.min_l, !shl_align_fst, Z.sub_diag by lia.
      pose proof (canonical_lt ma ea mb eb Ca Cb Hlt). lia.
  - (* the first positive, the second negative *)
    lia.
  - (* both positive *)
    destruct (Z.compare_spec ea eb) as [->|Hlt|Hgt]; [|done|].
    + rewrite Z.min_id, !shl_align_fst, Z.sub_diag by lia.
      sf_fold. destruct (Pos.compare_spec ma mb); try done; lia.
    + rewrite Z.min_r, !shl_align_fst, Z.sub_diag by lia.
      pose proof (canonical_lt mb eb ma ea Cb Ca Hgt). lia.
Qed.

Lemma sub_not_negative a b : (a <? b) = false -> (a - b <? 0) = false.
Proof.
  rewrite !FloatAxioms.ltb_spec, sub_spec. intros H.
  change (Prim2SF 0) with (S754_zero false).
  apply SFltb_zero, SFsub_notNegative; auto using Prim2SF_valid.
Qed.

(** *** [===] and subtraction *)

Lemma not_ltb_eqb a b :
  isNaN a = false -> isNaN b = false -> (a <? b) = false -> (b <? a) = false ->
  (a =? b) = true.
Proof.
  rewrite !isNaN_false_Prim2SF, !FloatAxioms.ltb_spec, FloatAxioms.eqb_spec.
  unfold SFltb, SFeqb. rewrite (SFcompare_antisym (Prim2SF a)). intros Ha Hb.
  destruct (SFcompare (Prim2SF a) (Prim2SF b)) as [[]|] eqn:E; simpl; try congruence.
  apply SFcompare_None in E. tauto.
Qed.

Lemma SFsub_zeros s1 s2 s3 s4 :
  SFcompare (SFsub prec emax (S754_zero s1) (S754_zero s3))
            (SFsub prec emax (S754_zero s2) (S754_zero s4)) = Some Eq.
Proof. by destruct s1, s2, s3, s4. Qed.

(** Two differences of finite numbers that are [===] one to one are
    [===]: the sign of a zero does not show in a difference, except in
    the sign of a zero. *)
Lemma SFsub_Eq a a' b b' :
  SFcompare a a' = Some Eq -> SFcompare b b' = Some Eq ->
  (forall s, a <> S754_infinity s) -> (forall s, b <> S754_infinity s) ->
  SFcompare (SFsub prec emax a b) (SFsub prec emax a' b') = Some Eq.
Proof.
  intros Ca Cb Ha Hb.
  assert (a <> S754_nan) as Na by (intros ->; discriminate).
  assert (b <> S754_nan) as Nb by (intros ->; by destruct b').
  apply SFcompare_Eq in Ca as [<-|(s1 & s2 & -> & ->)];
    apply SFcompare_Eq in Cb as [<-|(s3 & s4 & -> & ->)].
  - apply SFcompare_refl.
    destruct a as [sa|sa| |sa ma ea], b as [sb|sb| |sb mb eb]; try done;
      try (by destruct sa, sb); try (by destruct (Ha sa)); try (by destruct (Hb sb)).
    apply binary_normalize_not_nan.
  - destruct a as [sa|sa| |sa ma ea]; try done; [apply SFsub_zeros|by destruct (Ha sa)|].
    cbn [SFsub]. by apply SFcompare_refl.
  - destruct b as [sb|sb| |sb mb eb]; try done; [apply SFsub_zeros|by destruct (Hb sb)|].
    cbn [SFsub]. by apply SFcompare_refl.
  - apply SFsub_zeros.
Qed.

Lemma sub_eqb a a' b b' :
  isFinite a = true -> isFinite b = true ->
  (a =? a') = true -> (b =? b') = true -> (a - b =? a' - b') = true.
Proof.
  rewrite !isFinite_Prim2SF, !FloatAxioms.eqb_spec, !sub_spec. unfold SFeqb.
  intros Fa Fb Ea Eb.
  destruct (SFcompare (Prim2SF a) (Prim2SF a')) as [[]|] eqn:Ca; try discriminate.
  destruct (SFcompare (Prim2SF b) (Prim2SF b')) as [[]|] eqn:Cb; try discriminate.
  unfold SF64sub. rewrite (SFsub_Eq _ _ _ _ Ca Cb); [done| |].
  - intros s E. destruct Fa as [(? & Fa)|(? & ? & ? & Fa)]; congruence.
  - intros s E. destruct Fb as [(? & Fb)|(? & ? & ? & Fb)]; congruence.
Qed.

End NumberFacts.

(** ** Facts about BoundingRectangle *)

Module BoundingRectangleFacts.

Import Number NumberFacts BoundingRectangle.
Open Scope float_scope.
Open Scope js_scope.

(** *** Reading and writing the heap *)

Lemma read_Some (h : heap) r o : h !! r = Some o -> read r h = (h, Normal o).
Proof. unfold read. by intros ->. Qed.

Lemma write_Some (h : heap) r o f :
  h !! r = Some o -> write r f h = (<[r := f o]> h, Normal tt).
Proof. unfold write. by intros ->. Qed.

Lemma lookup_fresh (h : heap) o : (h ++ [o]) !! length h = Some o.
Proof. by rewrite list_lookup_middle. Qed.

Lemma lookup_old (h : heap) o r v : h !! r = Some v -> (h ++ [o]) !! r = Some v.
Proof. apply lookup_app_l_Some. Qed.

Lemma insert_fresh (h : heap) o o' : <[length h := o']> (h ++ [o]) = h ++ [o'].
Proof. by rewrite insert_app_r_alt, Nat.sub_diag by lia. Qed.

(** *** union *)

(** With no [result] argument, [union] allocates one rectangle and leaves
    the others alone. *)
Lemma union_fresh (h : heap) a b ra rb :
  h !! a = Some ra -> h !! b = Some rb ->
  union (Some a) (Some b) None h =
  (h ++ [ {| x := min (x ra) (x rb);
             y := min (y ra) (y rb);
             width := max (x ra + width ra) (x rb + width rb) - min (x ra) (x rb);
             height := max (y ra + height ra) (y rb + height rb) - min (y ra) (y rb) |} ],
   Normal (length h)).
Proof.
  intros Ha Hb. unfold union, bind, new, ret. cbn [defaultValue].
  erewrite (read_Some _ a), (read_Some _ b) by eauto using lookup_old.
  do 4 (erewrite write_Some by apply lookup_fresh; rewrite insert_fresh).
  reflexivity.
Qed.

Lemma union_result (h : heap) a b res ra rb :
  h !! a = Some ra -> h !! b = Some rb -> is_Some (h !! res) ->
  exists h', union (Some a) (Some b) (Some res) h = (h', Normal res).
Proof.
  intros Ha Hb [o Ho]. unfold union, bind, ret.
  rewrite (read_Some _ a ra), (read_Some _ b rb) by done.
  assert (forall (h0 : heap) f, is_Some (h0 !! res) ->
            exists h1, write res f h0 = (h1, Normal tt) /\ is_Some (h1 !! res)) as W.
  { intros h0 f [o0 E]. eexists. split; [by apply write_Some|].
    rewrite list_lookup_insert_eq by (by eapply lookup_lt_Some). by eexists. }
  edestruct (W h) as (h1 & -> & I1); [by eexists|].
  edestruct (W h1) as (h2 & -> & I2); [exact I1|].
  edestruct (W h2) as (h3 & -> & I3); [exact I2|].
  edestruct (W h3) as (h4 & -> & I4); [exact I3|].
  by eexists.
Qed.

Lemma equals_distinct (h : heap) p q rp rq :
  p <> q -> h !! p = Some rp -> h !! q = Some rq ->
  equals (Some p) (Some q) h =
  (h, Normal ((x rp =? x rq) && (y rp =? y rq) &&
              (width rp =? width rq) && (height rp =? height rq))).
Proof.
  intros Hne Hp Hq. unfold equals.
  rewrite bool_decide_eq_false_2 by congruence.
  unfold bind, ret. by rewrite (read_Some _ p rp), (read_Some _ q rq).
Qed.

Lemma equals_same_record (r : BoundingRectangle) :
  (x r =? x r) && (y r =? y r) && (width r =? width r) && (height r =? height r)
  = negb (hasNaN r).
Proof.
  unfold hasNaN, isNaN. by destruct (x r =? x r), (y r =? y r), (width r =? width r),
    (height r =? height r).
Qed.

Lemma allFinite_fields r :
  allFinite r = true ->
  isFinite (x r) = true /\ isFinite (y r) = true /\
  isFinite (width r) = true /\ isFinite (height r) = true.
Proof. unfold allFinite. rewrite !andb_true_iff. tauto. Qed.

(** *** fromPoints *)

Lemma ltb_irrefl a : (a <? a) = false.
Proof. destruct (a <? a) eqn:E; [|done]. by rewrite (ltb_asym _ _ E) in E. Qed.

Lemma minimumOf_singleton a : minimumOf [a] a.
Proof.
  split; [apply list_elem_of_singleton; done|].
  intros v ->%list_elem_of_singleton. apply ltb_irrefl.
Qed.

Lemma maximumOf_singleton a : maximumOf [a] a.
Proof.
  split; [apply list_elem_of_singleton; done|].
  intros v ->%list_elem_of_singleton. apply ltb_irrefl.
Qed.

Lemma minimumOf_snoc vs m a :
  minimumOf vs m -> minimumOf (vs ++ [a]) (if a <? m then a else m).
Proof.
  intros [Hin Hlow]. destruct (a <? m) eqn:E; split.
  - apply elem_of_app. right. by apply list_elem_of_singleton.
  - intros v [Hv| ->%list_elem_of_singleton]%elem_of_app; [|apply ltb_irrefl].
    destruct (v <? a) eqn:F; [|done].
    by rewrite <- (Hlow v Hv), (ltb_trans _ _ _ F E).
  - apply elem_of_app. by left.
  - intros v [Hv| ->%list_elem_of_singleton]%elem_of_app; auto.
Qed.

Lemma maximumOf_snoc vs m a :
  maximumOf vs m -> maximumOf (vs ++ [a]) (if m <? a then a else m).
Proof.
  intros [Hin Hup]. destruct (m <? a) eqn:E; split.
  - apply elem_of_app. right. by apply list_elem_of_singleton.
  - intros v [Hv| ->%list_elem_of_singleton]%elem_of_app; [|apply ltb_irrefl].
    destruct (a <? v) eqn:F; [|done].
    by rewrite <- (Hup v Hv), (ltb_trans _ _ _ E F).
  - apply elem_of_app. by left.
  - intros v [Hv| ->%list_elem_of_singleton]%elem_of_app; auto.
Qed.

Lemma fromPoints_step_extremaOf seen e p :
  extremaOf seen e -> extremaOf (seen ++ [p]) (fromPoints_step e p).
Proof.
  intros (H1 & H2 & H3 & H4). unfold extremaOf, fromPoints_step. rewrite !fmap_app. cbn.
  auto using minimumOf_snoc, maximumOf_snoc.
Qed.

Lemma fromPoints_loop_extremaOf rest : forall seen e,
  extremaOf seen e -> extremaOf (seen ++ rest) (fold_left fromPoints_step rest e).
Proof.
  induction rest as [|p rest IH]; intros seen e H; cbn.
  - by rewrite app_nil_r.
  - rewrite (assoc_L (++) seen [p] rest : seen ++ p :: rest = (seen ++ [p]) ++ rest).
    by apply IH, fromPoints_step_extremaOf.
Qed.

(** Where no value is NaN, a minimum is below all values and a maximum
    above. *)
Lemma minimumOf_leb vs m :
  minimumOf vs m -> (forall v, v ∈ vs -> isNaN v = false) ->
  forall v, v ∈ vs -> (m <=? v) = true.
Proof. intros [Hin Hlow] Hnan v Hv. apply ltb_false_leb; auto. Qed.

Lemma maximumOf_leb vs m :
  maximumOf vs m -> (forall v, v ∈ vs -> isNaN v = false) ->
  forall v, v ∈ vs -> (v <=? m) = true.
Proof. intros [Hin Hup] Hnan v Hv. apply ltb_false_leb; auto. Qed.

Lemma fromPoints_start_extremaOf p0 : extremaOf [p0] (fromPoints_start p0).
Proof.
  repeat split; cbn; try (apply list_elem_of_singleton; done);
    intros v ->%list_elem_of_singleton; apply ltb_irrefl.
Qed.

Lemma fromPoints_returns (h : heap) p0 rest :
  (1 <= length rest)%nat ->
  fromPoints (Some (p0 :: rest)) h =
  (h ++ [ {| x := minimumX (fold_left fromPoints_step rest (fromPoints_start p0));
             y := minimumY (fold_left fromPoints_step rest (fromPoints_start p0));
             width := maximumX (fold_left fromPoints_step rest (fromPoints_start p0))
                      - minimumX (fold_left fromPoints_step rest (fromPoints_start p0));
             height := maximumY (fold_left fromPoints_step rest (fromPoints_start p0))
                       - minimumY (fold_left fromPoints_step rest (fromPoints_start p0)) |} ],
   Normal (length h)).
Proof.
  intros Hlen. unfold fromPoints.
  rewrite bool_decide_eq_false_2 by (cbn; lia). reflexivity.
Qed.

(** *** The claims on BoundingRectangle *)

(** C8: for two or more points, [fromPoints] allocates the rectangle whose
    [x] and [y] are the minima of the points' coordinates and whose
    [width] and [height] are the maxima minus the minima (below every
    coordinate and above, where no coordinate is NaN); for the points
    (0,0), (2,3), (-1,5) it is x = -1, y = 0, width = 3, height = 5. *)
Theorem fromPoints_extrema (h : heap) (positions : list Cartesian2.Cartesian2) :
  (2 <= length positions)%nat ->
  (exists r maxX maxY,
     fromPoints (Some positions) h = (h ++ [r], Normal (length h)) /\
     minimumOf (Cartesian2.x <$> positions) (x r) /\
     minimumOf (Cartesian2.y <$> positions) (y r) /\
     maximumOf (Cartesian2.x <$> positions) maxX /\
     maximumOf (Cartesian2.y <$> positions) maxY /\
     width r = maxX - x r /\
     height r = maxY - y r /\
     ((forall v, v ∈ Cartesian2.x <$> positions -> isNaN v = false) ->
      forall v, v ∈ Cartesian2.x <$> positions ->
                (x r <=? v) = true /\ (v <=? maxX) = true) /\
     ((forall v, v ∈ Cartesian2.y <$> positions -> isNaN v = false) ->
      forall v, v ∈ Cartesian2.y <$> positions ->
                (y r <=? v) = true /\ (v <=? maxY) = true)) /\
  fromPoints (Some [point 0 0; point 2 3; point (-1) 5]) h =
    (h ++ [ {| x := -1; y := 0; width := 3; height := 5 |} ], Normal (length h)).
Proof.
  intros Hlen. split; [|reflexivity].
  destruct positions as [|p0 rest]; [cbn in Hlen; lia|].
  rewrite fromPoints_returns by (cbn in Hlen; lia).
  destruct (fromPoints_loop_extremaOf rest [p0] (fromPoints_start p0))
    as (Hx & Hy & HX & HY); [apply fromPoints_start_extremaOf|].
  cbn [app] in Hx, Hy, HX, HY.
  set (e := fold_left fromPoints_step rest _) in *.
  eexists _, (maximumX e), (maximumY e). split; [reflexivity|]. cbn [x y width height].
  do 6 (split; [done|]).
  split; intros Hnan v Hv;
    (split; [eapply minimumOf_leb | eapply maximumOf_leb]); eauto.
Qed.

Lemma fromPoints_extrema_witness :
  (exists r maxX maxY,
     fromPoints (Some [point 0 0; point 2 3; point (-1) 5]) [] = ([] ++ [r], Normal 0%nat) /\
     minimumOf [0; 2; -1] (x r) /\
     minimumOf [0; 3; 5] (y r) /\
     maximumOf [0; 2; -1] maxX /\
     maximumOf [0; 3; 5] maxY /\
     width r = maxX - x r /\
     height r = maxY - y r /\
     ((forall v, v ∈ [0; 2; -1] -> isNaN v = false) ->
      forall v, v ∈ [0; 2; -1] -> (x r <=? v) = true /\ (v <=? maxX) = true) /\
     ((forall v, v ∈ [0; 3; 5] -> isNaN v = false) ->
      forall v, v ∈ [0; 3; 5] -> (y r <=? v) = true /\ (v <=? maxY) = true)) /\
  fromPoints (Some [point 0 0; point 2 3; point (-1) 5]) [] =
    ([] ++ [ {| x := -1; y := 0; width := 3; height := 5 |} ], Normal 0%nat).
Proof.
  apply (fromPoints_extrema [] [point 0 0; point 2 3; point (-1) 5]).
  simpl. lia.
Defined.

(** C9: [union] and [intersect] throw a DeveloperError exactly when one
    of their two rectangles is undefined, [fromPoints] exactly when
    [positions] is undefined or has fewer than two points; otherwise they
    return. A failing call leaves the heap as it was. *)
Theorem geometry_DeveloperError
    (h : heap) (a b result rect1 rect2 : option ref)
    (positions : option (list Cartesian2.Cartesian2)) :
  rectangleOrUndefined h a -> rectangleOrUndefined h b ->
  rectangleOrUndefined h result ->
  rectangleOrUndefined h rect1 -> rectangleOrUndefined h rect2 ->
  match a, b with
  | Some _, Some _ => exists h' r, union a b result h = (h', Normal r)
  | _, _ => exists message, union a b result h = (h, Throw (DeveloperError message))
  end /\
  match rect1, rect2 with
  | Some _, Some _ => exists c, intersect rect1 rect2 h = (h, Normal c)
  | _, _ => exists message, intersect rect1 rect2 h = (h, Throw (DeveloperError message))
  end /\
  match positions with
  | Some ps =>
      if bool_decide (2 <= length ps)%nat
      then exists r, fromPoints positions h = (h ++ [r], Normal (length h))
      else exists message, fromPoints positions h = (h, Throw (DeveloperError message))
  | None => exists message, fromPoints positions h = (h, Throw (DeveloperError message))
  end.
Proof.
  intros Ha Hb Hres H1 H2. repeat split.
  - destruct a as [a|]; [|by eexists]. destruct b as [b|]; [|by eexists].
    destruct (Ha a eq_refl) as [ra Era], (Hb b eq_refl) as [rb Erb].
    destruct result as [res|].
    + destruct (union_result h a b res ra rb Era Erb (Hres res eq_refl)) as [h' E].
      by exists h', res.
    + do 2 eexists. by apply union_fresh.
  - destruct rect1 as [p|]; [|by eexists]. destruct rect2 as [q|]; [|by eexists].
    destruct (H1 p eq_refl) as [rp Ep], (H2 q eq_refl) as [rq Eq].
    eexists. unfold intersect, bind, ret. by rewrite (read_Some _ p rp), (read_Some _ q rq).
  - destruct positions as [ps|]; [|by eexists].
    case_bool_decide as Hlen.
    + destruct ps as [|p0 rest]; [cbn in Hlen; lia|].
      eexists. apply fromPoints_returns. cbn in Hlen. lia.
    + eexists. unfold fromPoints. by rewrite bool_decide_eq_true_2 by lia.
Qed.

Lemma geometry_DeveloperError_witness :
  (exists h' r,
     union (Some 0%nat) (Some 1%nat) None
       [ {| x := 0; y := 0; width := 2; height := 2 |};
         {| x := 3; y := 3; width := 1; height := 1 |} ] = (h', Normal r)) /\
  (exists message,
     intersect (Some 0%nat) None
       [ {| x := 0; y := 0; width := 2; height := 2 |};
         {| x := 3; y := 3; width := 1; height := 1 |} ]
     = ([ {| x := 0; y := 0; width := 2; height := 2 |};
          {| x := 3; y := 3; width := 1; height := 1 |} ],
        Throw (DeveloperError message))) /\
  (exists message,
     fromPoints (Some [point 0 0])
       [ {| x := 0; y := 0; width := 2; height := 2 |};
         {| x := 3; y := 3; width := 1; height := 1 |} ]
     = ([ {| x := 0; y := 0; width := 2; height := 2 |};
          {| x := 3; y := 3; width := 1; height := 1 |} ],
        Throw (DeveloperError message))).
Proof.
  apply (geometry_DeveloperError
           [ {| x := 0; y := 0; width := 2; height := 2 |};
             {| x := 3; y := 3; width := 1; height := 1 |} ]
           (Some 0%nat) (Some 1%nat) None (Some 0%nat) None (Some [point 0 0]));
    intros r E; inversion E; subst; simpl; eexists; reflexivity.
Defined.

(** C10, amended: [union(a, b)] and [union(b, a)] have the same four
    components, and [equals] of the two results is true exactly when none
    of these components is NaN; it is true whenever all components of [a]
    and [b] are finite. *)
Theorem union_commutative_up_to_NaN (h : heap) (a b : ref) (ra rb : BoundingRectangle) :
  h !! a = Some ra -> h !! b = Some rb ->
  exists u : BoundingRectangle,
    union (Some a) (Some b) None h = (h ++ [u], Normal (length h)) /\
    union (Some b) (Some a) None h = (h ++ [u], Normal (length h)) /\
    equalsOfUnions a b h = (h ++ [u; u], Normal (negb (hasNaN u))) /\
    (allFinite ra = true -> allFinite rb = true -> hasNaN u = false).
Proof.
  intros Ha Hb. eexists. split; [by apply union_fresh|].
  split; [|split].
  - rewrite (union_fresh h b a rb ra Hb Ha).
    by rewrite (min_comm (x rb)), (min_comm (y rb)), (max_comm (x rb + _)),
      (max_comm (y rb + _)).
  - unfold equalsOfUnions, bind.
    rewrite (union_fresh h a b ra rb Ha Hb).
    erewrite (union_fresh (h ++ [_]) b a rb ra) by eauto using lookup_old.
    rewrite (min_comm (x rb)), (min_comm (y rb)), (max_comm (x rb + _)),
      (max_comm (y rb + _)).
    erewrite equals_distinct.
    + rewrite equals_same_record, <- (assoc_L (++)). reflexivity.
    + rewrite length_app. cbn. lia.
    + apply lookup_old, lookup_fresh.
    + apply lookup_fresh.
  - intros (Fx & Fy & Fw & Fh)%allFinite_fields (Gx & Gy & Gw & Gh)%allFinite_fields.
    unfold hasNaN. cbn [x y width height].
    assert (forall p q, isFinite p = true -> isFinite q = true -> isFinite (min p q) = true)
      as Hmin.
    { intros p q Hp Hq. unfold min.
      rewrite (isFinite_isNaN p Hp), (isFinite_isNaN q Hq). cbn.
      by repeat match goal with |- context [if ?c then _ else _] => destruct c end. }
    assert (forall p q, isNaN p = false -> isNaN q = false -> isNaN (max p q) = false)
      as Hmax by (intros p q Hp Hq; by rewrite max_isNaN, Hp, Hq).
    rewrite !(isFinite_isNaN (min _ _)) by auto.
    rewrite !sub_isFinite_r by auto using add_isFinite.
    reflexivity.
Qed.

Lemma union_commutative_up_to_NaN_witness :
  exists u : BoundingRectangle,
    union (Some 0%nat) (Some 1%nat) None
      [ {| x := 0; y := 0; width := 2; height := 2 |};
        {| x := 3; y := 3; width := 1; height := 1 |} ]
    = ([ {| x := 0; y := 0; width := 2; height := 2 |};
         {| x := 3; y := 3; width := 1; height := 1 |} ] ++ [u], Normal 2%nat) /\
    union (Some 1%nat) (Some 0%nat) None
      [ {| x := 0; y := 0; width := 2; height := 2 |};
        {| x := 3; y := 3; width := 1; height := 1 |} ]
    = ([ {| x := 0; y := 0; width := 2; height := 2 |};
         {| x := 3; y := 3; width := 1; height := 1 |} ] ++ [u], Normal 2%nat) /\
    equalsOfUnions 0%nat 1%nat
      [ {| x := 0; y := 0; width := 2; height := 2 |};
        {| x := 3; y := 3; width := 1; height := 1 |} ]
    = ([ {| x := 0; y := 0; width := 2; height := 2 |};
         {| x := 3; y := 3; width := 1; height := 1 |} ] ++ [u; u],
       Normal (negb (hasNaN u))) /\
    (allFinite {| x := 0; y := 0; width := 2; height := 2 |} = true ->
     allFinite {| x := 3; y := 3; width := 1; height := 1 |} = true ->
     hasNaN u = false).
Proof.
  apply (union_commutative_up_to_NaN
           [ {| x := 0; y := 0; width := 2; height := 2 |};
             {| x := 3; y := 3; width := 1; height := 1 |} ] 0%nat 1%nat);
    reflexivity.
Defined.

(** C10 as stated fails on a rectangle with a NaN component: the two
    unions have the same components, one of them NaN, and [===] is false
    on NaN. *)
Lemma union_commutative_NaN_counterexample :
  equalsOfUnions 0%nat 1%nat
    [ {| x := nan; y := 0; width := 1; height := 1 |};
      {| x := 0; y := 0; width := 1; height := 1 |} ]
  = ([ {| x := nan; y := 0; width := 1; height := 1 |};
       {| x := 0; y := 0; width := 1; height := 1 |};
       {| x := nan; y := 0; width := nan; height := 1 |};
       {| x := nan; y := 0; width := nan; height := 1 |} ],
     Normal false).
Proof. vm_compute. reflexivity. Qed.

(** *** clone and union with a [result] *)

Lemma record_eta (o : BoundingRectangle) :
  {| x := x o; y := y o; width := width o; height := height o |} = o.
Proof. by destruct o. Qed.

Lemma clone_fresh (h : heap) rect o :
  h !! rect = Some o -> clone (Some rect) None h = (h ++ [o], Normal (length h)).
Proof.
  intros H. unfold clone, bind. rewrite (read_Some _ _ _ H). unfold new. cbn [defaultValue].
  by rewrite record_eta.
Qed.

(** Four assignments to the fields of [result], each after a reading of
    [rect], which may be [result] itself. *)
Lemma clone_written (h : heap) rect res o :
  h !! rect = Some o -> is_Some (h !! res) ->
  clone (Some rect) (Some res) h = (<[res := o]> h, Normal res).
Proof.
  intros H [r0 Hres]. unfold clone.
  destruct (decide (res = rect)) as [->|Hne].
  - assert (forall f, f o = o -> write rect f h = (h, Normal tt)) as W.
    { intros f Hf. rewrite (write_Some h rect o f H), Hf. by rewrite list_insert_id. }
    unfold bind. rewrite !(read_Some h rect o H).
    rewrite (W (set_x (x o))) by (by destruct o).
    rewrite !(read_Some h rect o H).
    rewrite (W (set_y (y o))) by (by destruct o).
    rewrite !(read_Some h rect o H).
    rewrite (W (set_width (width o))) by (by destruct o).
    rewrite !(read_Some h rect o H).
    rewrite (W (set_height (height o))) by (by destruct o).
    by rewrite list_insert_id.
  - assert (forall (h0 : heap) r1 f, h0 !! res = Some r1 -> h0 !! rect = Some o ->
              exists h1, write res f h0 = (h1, Normal tt) /\ h1 = <[res := f r1]> h0 /\
                         h1 !! res = Some (f r1) /\ h1 !! rect = Some o) as W.
    { intros h0 r1 f E1 E2. eexists. split; [by apply write_Some|]. split; [done|].
      split; [apply list_lookup_insert_eq; by eapply lookup_lt_Some|].
      by rewrite list_lookup_insert_ne. }
    unfold bind. rewrite (read_Some h rect o H).
    destruct (W h r0 (set_x (x o)) Hres H) as (h1 & -> & E1 & R1 & K1).
    rewrite (read_Some h1 rect o K1).
    destruct (W h1 _ (set_y (y o)) R1 K1) as (h2 & -> & E2 & R2 & K2).
    rewrite (read_Some h2 rect o K2).
    destruct (W h2 _ (set_width (width o)) R2 K2) as (h3 & -> & E3 & R3 & K3).
    rewrite (read_Some h3 rect o K3).
    destruct (W h3 _ (set_height (height o)) R3 K3) as (h4 & -> & E4 & R4 & K4).
    unfold ret. f_equal. subst h4 h3 h2 h1. rewrite !list_insert_insert_eq.
    f_equal. by destruct o.
Qed.

(** With a [result], [union] reads both rectangles before it assigns the
    four fields of [result]. *)
Lemma union_written (h : heap) a b res ra rb :
  h !! a = Some ra -> h !! b = Some rb -> is_Some (h !! res) ->
  union (Some a) (Some b) (Some res) h =
  (<[res := {| x := min (x ra) (x rb);
               y := min (y ra) (y rb);
               width := max (x ra + width ra) (x rb + width rb) - min (x ra) (x rb);
               height := max (y ra + height ra) (y rb + height rb) - min (y ra) (y rb) |}]> h,
   Normal res).
Proof.
  intros Ha Hb [r0 Hres]. unfold union, bind, ret.
  rewrite (read_Some _ a ra), (read_Some _ b rb) by done. cbn [Cartesian2.x Cartesian2.y].
  assert (forall (h0 : heap) r1 f, h0 !! res = Some r1 ->
            write res f h0 = (<[res := f r1]> h0, Normal tt) /\
            <[res := f r1]> h0 !! res = Some (f r1)) as W.
  { intros h0 r1 f E. split; [by apply write_Some|].
    apply list_lookup_insert_eq. by eapply lookup_lt_Some. }
  destruct (W h r0 (set_x (min (x ra) (x rb))) Hres) as [-> R1].
  destruct (W _ _ (set_y (min (y ra) (y rb))) R1) as [-> R2].
  destruct (W _ _ (set_width (max (x ra + width ra) (x rb + width rb) - min (x ra) (x rb))) R2)
    as [-> R3].
  destruct (W _ _ (set_height (max (y ra + height ra) (y rb + height rb) - min (y ra) (y rb))) R3)
    as [-> R4].
  by rewrite !list_insert_insert_eq.
Qed.

Lemma intersect_defined (h : heap) a b ra rb :
  h !! a = Some ra -> h !! b = Some rb ->
  intersect (Some a) (Some b) h =
  (h, Normal (negb ((x rb + width rb <? x ra) || (x ra + width ra <? x rb) ||
                    (y ra + height ra <? y rb) || (y rb + height rb <? y ra)))).
Proof.
  intros Ha Hb. unfold intersect, bind, ret. by rewrite (read_Some _ a ra), (read_Some _ b rb).
Qed.

Lemma equals_defined (h : heap) p q rp rq :
  h !! p = Some rp -> h !! q = Some rq ->
  equals (Some p) (Some q) h =
  (h, Normal (bool_decide (p = q) ||
              ((x rp =? x rq) && (y rp =? y rq) &&
               (width rp =? width rq) && (height rp =? height rq)))).
Proof.
  intros Hp Hq. destruct (decide (p = q)) as [->|Hne].
  - unfold equals. by rewrite !bool_decide_eq_true_2.
  - rewrite (equals_distinct h p q rp rq) by done.
    by rewrite (bool_decide_eq_false_2 (p = q)).
Qed.

(** X1: [clone] without a [result] allocates a rectangle with the four
    components of [rect] and leaves every other rectangle as it was;
    [rect.equals(rect.clone())] is true exactly when no component of
    [rect] is NaN. *)
Theorem clone_equals (h : heap) (rect : ref) (o : BoundingRectangle) :
  h !! rect = Some o ->
  clone (Some rect) None h = (h ++ [o], Normal (length h)) /\
  equalsOfClone rect h = (h ++ [o], Normal (negb (hasNaN o))).
Proof.
  intros H. split; [by apply clone_fresh|].
  unfold equalsOfClone, prototype.clone, prototype.equals, bind.
  rewrite (clone_fresh h rect o H).
  rewrite (equals_distinct (h ++ [o]) rect (length h) o o).
  - by rewrite equals_same_record.
  - apply lookup_lt_Some in H. lia.
  - by apply lookup_old.
  - apply lookup_fresh.
Qed.

Lemma clone_equals_witness :
  clone (Some 2%nat) None threeRectangles =
    (threeRectangles ++ [ {| x := nan; y := nan; width := 1; height := 1 |} ], Normal 3%nat) /\
  equalsOfClone 2%nat threeRectangles =
    (threeRectangles ++ [ {| x := nan; y := nan; width := 1; height := 1 |} ], Normal false).
Proof.
  apply (clone_equals threeRectangles 2%nat {| x := nan; y := nan; width := 1; height := 1 |}).
  reflexivity.
Defined.

(** X2: [clone] with a [result] overwrites the four components of
    [result] with those of [rect], returns [result], allocates nothing and
    leaves every other rectangle as it was; cloning a rectangle onto
    itself changes nothing. *)
Theorem clone_into_result (h : heap) (rect result : ref) (o : BoundingRectangle) :
  h !! rect = Some o -> is_Some (h !! result) ->
  clone (Some rect) (Some result) h = (<[result := o]> h, Normal result) /\
  clone (Some rect) (Some rect) h = (h, Normal rect).
Proof.
  intros H Hres. split; [by apply clone_written|].
  rewrite (clone_written h rect rect o) by eauto. by rewrite list_insert_id.
Qed.

Lemma clone_into_result_witness :
  clone (Some 0%nat) (Some 2%nat) threeRectangles =
    ([ {| x := 0; y := 0; width := 2; height := 2 |};
       {| x := 3; y := 3; width := 1; height := 1 |};
       {| x := 0; y := 0; width := 2; height := 2 |} ], Normal 2%nat) /\
  clone (Some 0%nat) (Some 0%nat) threeRectangles = (threeRectangles, Normal 0%nat).
Proof.
  apply (clone_into_result threeRectangles 0%nat 2%nat
           {| x := 0; y := 0; width := 2; height := 2 |}).
  - reflexivity.
  - eexists. reflexivity.
Defined.

(** X3: [union] computes the same rectangle with and without a [result].
    With a [result] it stores it there, returns [result] and allocates
    nothing, also where [result] is one of the two rectangles:
    [a.union(b, a)] replaces [a] by the union of the old [a] and [b]. *)
Theorem union_into_result (h : heap) (a b res : ref) (ra rb : BoundingRectangle) :
  h !! a = Some ra -> h !! b = Some rb -> is_Some (h !! res) ->
  exists u,
    union (Some a) (Some b) None h = (h ++ [u], Normal (length h)) /\
    union (Some a) (Some b) (Some res) h = (<[res := u]> h, Normal res) /\
    prototype.union a (Some b) (Some a) h = (<[a := u]> h, Normal a) /\
    prototype.union a (Some b) (Some b) h = (<[b := u]> h, Normal b).
Proof.
  intros Ha Hb Hres. eexists. split; [by apply union_fresh|].
  split; [by apply union_written|].
  unfold prototype.union. split; apply union_written; eauto.
Qed.

Lemma union_into_result_witness :
  exists u,
    union (Some 0%nat) (Some 1%nat) None threeRectangles =
      (threeRectangles ++ [u], Normal 3%nat) /\
    union (Some 0%nat) (Some 1%nat) (Some 2%nat) threeRectangles =
      (<[2%nat := u]> threeRectangles, Normal 2%nat) /\
    prototype.union 0%nat (Some 1%nat) (Some 0%nat) threeRectangles =
      (<[0%nat := u]> threeRectangles, Normal 0%nat) /\
    prototype.union 0%nat (Some 1%nat) (Some 1%nat) threeRectangles =
      (<[1%nat := u]> threeRectangles, Normal 1%nat).
Proof.
  apply (union_into_result threeRectangles 0%nat 1%nat 2%nat
           {| x := 0; y := 0; width := 2; height := 2 |}
           {| x := 3; y := 3; width := 1; height := 1 |}).
  - reflexivity.
  - reflexivity.
  - eexists. reflexivity.
Defined.

(** X4: the methods check their argument themselves: [rect.union] and
    [rect.intersect] throw a DeveloperError that names [rectangle] and
    [rect] when the argument is undefined, and are [BoundingRectangle.union]
    and [BoundingRectangle.intersect] on [this] otherwise; [clone] throws a
    DeveloperError exactly when [rect] is undefined, with or without a
    [result]; [rect.clone] and [rect.equals] always return. A call that
    throws leaves the heap as it was, and so do [intersect] and
    [equals]. *)
Theorem methods_DeveloperError
    (h : heap) (this : ref) (rectangle result rect : option ref) :
  is_Some (h !! this) ->
  rectangleOrUndefined h rectangle -> rectangleOrUndefined h result ->
  rectangleOrUndefined h rect ->
  match rectangle with
  | Some _ =>
      prototype.union this rectangle result h = union (Some this) rectangle result h /\
      exists h' r, prototype.union this rectangle result h = (h', Normal r)
  | None =>
      prototype.union this rectangle result h =
        (h, Throw (DeveloperError "rectangle is required."))
  end /\
  match rect with
  | Some _ =>
      prototype.intersect this rect h = intersect (Some this) rect h /\
      exists c, prototype.intersect this rect h = (h, Normal c)
  | None =>
      prototype.intersect this rect h = (h, Throw (DeveloperError "rect is required."))
  end /\
  match rect with
  | Some _ => exists h' r, clone rect result h = (h', Normal r)
  | None => clone rect result h = (h, Throw (DeveloperError "rect is required"))
  end /\
  (exists h' r, prototype.clone this result h = (h', Normal r)) /\
  (exists c, prototype.equals this rect h = (h, Normal c)).
Proof.
  intros [o Ho] Hrectangle Hresult Hrect.
  assert (forall r, is_Some (h !! r) -> exists h' r', clone (Some r) result h = (h', Normal r'))
    as Clone.
  { intros r [o' Ho']. destruct result as [res|].
    - rewrite (clone_written h r res o' Ho' (Hresult res eq_refl)). eauto.
    - rewrite (clone_fresh h r o' Ho'). eauto. }
  split_and!.
  - destruct rectangle as [b|]; [|done]. split; [done|].
    destruct (Hrectangle b eq_refl) as [rb Hb]. unfold prototype.union.
    destruct result as [res|].
    + rewrite (union_written h this b res o rb Ho Hb (Hresult res eq_refl)). eauto.
    + rewrite (union_fresh h this b o rb Ho Hb). eauto.
  - destruct rect as [b|]; [|done]. split; [done|].
    destruct (Hrect b eq_refl) as [rb Hb]. unfold prototype.intersect.
    rewrite (intersect_defined h this b o rb Ho Hb). eauto.
  - destruct rect as [b|]; [|done]. apply Clone. by apply Hrect.
  - apply Clone. eauto.
  - unfold prototype.equals, equals. case_bool_decide; [by eexists|].
    destruct rect as [b|]; [|by eexists].
    destruct (Hrect b eq_refl) as [rb Hb].
    unfold bind, ret. rewrite (read_Some _ _ _ Ho), (read_Some _ _ _ Hb). by eexists.
Qed.

Lemma methods_DeveloperError_witness :
  prototype.union 0%nat None (Some 1%nat) threeRectangles =
    (threeRectangles, Throw (DeveloperError "rectangle is required.")) /\
  prototype.intersect 0%nat None threeRectangles =
    (threeRectangles, Throw (DeveloperError "rect is required.")) /\
  clone None (Some 1%nat) threeRectangles =
    (threeRectangles, Throw (DeveloperError "rect is required")) /\
  (exists h' r, prototype.clone 0%nat (Some 1%nat) threeRectangles = (h', Normal r)) /\
  (exists c, prototype.equals 0%nat None threeRectangles = (threeRectangles, Normal c)).
Proof.
  apply (methods_DeveloperError threeRectangles 0%nat None (Some 1%nat) None).
  - eexists. reflexivity.
  - intros r E. discriminate.
  - intros r E. inversion E. subst. eexists. reflexivity.
  - intros r E. discriminate.
Defined.

(** *** equals and intersect as relations *)

(** X5: [equals] relates every rectangle, and undefined, to itself, also
    a rectangle with NaN components, which is not equal to its clone; it is
    symmetric and transitive; undefined equals no rectangle. It returns
    and leaves the heap as it was. *)
Theorem equals_equivalence (h : heap) (a b c : option ref) :
  rectangleOrUndefined h a -> rectangleOrUndefined h b -> rectangleOrUndefined h c ->
  equals a a h = (h, Normal true) /\
  equals a b h = equals b a h /\
  (equals a b h = (h, Normal true) -> equals b c h = (h, Normal true) ->
   equals a c h = (h, Normal true)) /\
  (exists r, equals a b h = (h, Normal r)) /\
  (a = None -> b <> None -> equals a b h = (h, Normal false)).
Proof.
  intros Ha Hb Hc. split_and!.
  - unfold equals. by rewrite bool_decide_eq_true_2.
  - destruct a as [p|], b as [q|]; try done.
    destruct (Ha p eq_refl) as [rp Hp], (Hb q eq_refl) as [rq Hq].
    rewrite (equals_defined h p q rp rq), (equals_defined h q p rq rp) by done.
    do 3 f_equal; [apply bool_decide_ext; split; congruence|].
    by rewrite (eqb_sym (x rp)), (eqb_sym (y rp)), (eqb_sym (width rp)), (eqb_sym (height rp)).
  - destruct a as [p|], b as [q|], c as [r|]; try done;
      try (unfold equals; rewrite bool_decide_eq_false_2 by done; cbn; congruence).
    destruct (Ha p eq_refl) as [rp Hp], (Hb q eq_refl) as [rq Hq], (Hc r eq_refl) as [rr Hr].
    rewrite (equals_defined h p q rp rq), (equals_defined h q r rq rr),
      (equals_defined h p r rp rr) by done.
    intros [= E1] [= E2]. do 2 f_equal.
    destruct (decide (p = q)) as [->|Hpq].
    { by assert (rp = rq) as -> by congruence. }
    destruct (decide (q = r)) as [->|Hqr].
    { by assert (rq = rr) as -> by congruence. }
    rewrite (bool_decide_eq_false_2 _ Hpq) in E1. rewrite (bool_decide_eq_false_2 _ Hqr) in E2.
    cbn in E1, E2. apply andb_true_iff in E1 as [[[X1 Y1]%andb_true_iff W1]%andb_true_iff H1].
    apply andb_true_iff in E2 as [[[X2 Y2]%andb_true_iff W2]%andb_true_iff H2].
    rewrite (eqb_trans _ _ _ X1 X2), (eqb_trans _ _ _ Y1 Y2), (eqb_trans _ _ _ W1 W2),
      (eqb_trans _ _ _ H1 H2). apply orb_true_r.
  - destruct a as [p|], b as [q|].
    + destruct (Ha p eq_refl) as [rp Hp], (Hb q eq_refl) as [rq Hq].
      rewrite (equals_defined h p q rp rq) by done. by eexists.
    + eexists. unfold equals. by rewrite bool_decide_eq_false_2.
    + eexists. unfold equals. by rewrite bool_decide_eq_false_2.
    + eexists. unfold equals. by rewrite bool_decide_eq_true_2.
  - intros -> Hne. by destruct b.
Qed.

Lemma equals_equivalence_witness :
  equals (Some 2%nat) (Some 2%nat) threeRectangles = (threeRectangles, Normal true) /\
  equals (Some 2%nat) (Some 0%nat) threeRectangles =
    equals (Some 0%nat) (Some 2%nat) threeRectangles /\
  (equals (Some 2%nat) (Some 0%nat) threeRectangles = (threeRectangles, Normal true) ->
   equals (Some 0%nat) None threeRectangles = (threeRectangles, Normal true) ->
   equals (Some 2%nat) None threeRectangles = (threeRectangles, Normal true)) /\
  (exists r, equals (Some 2%nat) (Some 0%nat) threeRectangles = (threeRectangles, Normal r)) /\
  (Some 2%nat = None -> Some 0%nat <> None ->
   equals (Some 2%nat) (Some 0%nat) threeRectangles = (threeRectangles, Normal false)).
Proof.
  apply (equals_equivalence threeRectangles (Some 2%nat) (Some 0%nat) None).
  - intros r E. inversion E. subst. eexists. reflexivity.
  - intros r E. inversion E. subst. eexists. reflexivity.
  - intros r E. discriminate.
Defined.

(** X6: [intersect] is symmetric: on two rectangles it returns the same
    in both orders, whatever their components, NaN included. *)
Theorem intersect_symmetric (h : heap) (a b : ref) (ra rb : BoundingRectangle) :
  h !! a = Some ra -> h !! b = Some rb ->
  intersect (Some a) (Some b) h = intersect (Some b) (Some a) h /\
  prototype.intersect a (Some b) h = prototype.intersect b (Some a) h.
Proof.
  intros Ha Hb.
  assert (intersect (Some a) (Some b) h = intersect (Some b) (Some a) h) as E.
  { rewrite (intersect_defined h a b ra rb), (intersect_defined h b a rb ra) by done.
    do 3 f_equal.
    by destruct (x rb + width rb <? x ra), (x ra + width ra <? x rb),
      (y ra + height ra <? y rb), (y rb + height rb <? y ra). }
  split; exact E.
Qed.

Lemma intersect_symmetric_witness :
  intersect (Some 0%nat) (Some 1%nat) threeRectangles =
    intersect (Some 1%nat) (Some 0%nat) threeRectangles /\
  prototype.intersect 0%nat (Some 1%nat) threeRectangles =
    prototype.intersect 1%nat (Some 0%nat) threeRectangles.
Proof.
  apply (intersect_symmetric threeRectangles 0%nat 1%nat
           {| x := 0; y := 0; width := 2; height := 2 |}
           {| x := 3; y := 3; width := 1; height := 1 |}); reflexivity.
Defined.

(** X7: on rectangles with finite components, [intersect] is the overlap
    of closed intervals on both axes: the span [x, x + width] of each
    reaches the start of the other, and so in [y]; rectangles that share
    only an edge or a corner intersect. *)
Theorem intersect_closed_overlap (h : heap) (a b : ref) (ra rb : BoundingRectangle) :
  h !! a = Some ra -> h !! b = Some rb ->
  allFinite ra = true -> allFinite rb = true ->
  intersect (Some a) (Some b) h =
  (h, Normal ((x ra <=? x rb + width rb) && (x rb <=? x ra + width ra) &&
              (y ra <=? y rb + height rb) && (y rb <=? y ra + height ra))).
Proof.
  intros Ha Hb (Fx & Fy & Fw & Fh)%allFinite_fields (Gx & Gy & Gw & Gh)%allFinite_fields.
  rewrite (intersect_defined h a b ra rb) by done. do 2 f_equal.
  rewrite !leb_negb_ltb by auto using isFinite_isNaN, add_isFinite.
  by destruct (x rb + width rb <? x ra), (x ra + width ra <? x rb),
    (y ra + height ra <? y rb), (y rb + height rb <? y ra).
Qed.

Lemma intersect_closed_overlap_witness :
  intersect (Some 0%nat) (Some 1%nat)
    [ {| x := 0; y := 0; width := 2; height := 2 |};
      {| x := 2; y := 2; width := 1; height := 1 |} ]
  = ([ {| x := 0; y := 0; width := 2; height := 2 |};
       {| x := 2; y := 2; width := 1; height := 1 |} ],
     Normal ((0 <=? 2 + 1) && (2 <=? 0 + 2) && (0 <=? 2 + 1) && (2 <=? 0 + 2))).
Proof.
  apply (intersect_closed_overlap
           [ {| x := 0; y := 0; width := 2; height := 2 |};
             {| x := 2; y := 2; width := 1; height := 1 |} ] 0%nat 1%nat
           {| x := 0; y := 0; width := 2; height := 2 |}
           {| x := 2; y := 2; width := 1; height := 1 |}); reflexivity.
Defined.

(** X8: a comparison with NaN is false, so [intersect] reports no
    separation it cannot see: a rectangle whose [x] and [y] are NaN
    intersects every rectangle, in both orders. *)
Theorem intersect_NaN (h : heap) (a b : ref) (ra rb : BoundingRectangle) :
  h !! a = Some ra -> h !! b = Some rb ->
  isNaN (x ra) = true -> isNaN (y ra) = true ->
  intersect (Some a) (Some b) h = (h, Normal true) /\
  intersect (Some b) (Some a) h = (h, Normal true).
Proof.
  intros Ha Hb Nx Ny.
  rewrite (intersect_defined h a b ra rb), (intersect_defined h b a rb ra) by done.
  rewrite !(ltb_NaN_r _ (x ra)), !(ltb_NaN_r _ (y ra)) by done.
  by rewrite !(ltb_NaN_l (x ra + _)), !(ltb_NaN_l (y ra + _)) by (by apply add_NaN_l).
Qed.

Lemma intersect_NaN_witness :
  intersect (Some 2%nat) (Some 0%nat) threeRectangles = (threeRectangles, Normal true) /\
  intersect (Some 0%nat) (Some 2%nat) threeRectangles = (threeRectangles, Normal true).
Proof.
  apply (intersect_NaN threeRectangles 2%nat 0%nat
           {| x := nan; y := nan; width := 1; height := 1 |}
           {| x := 0; y := 0; width := 2; height := 2 |}); reflexivity.
Defined.

(** *** fromPoints, NaN and the sign of the extent *)

Lemma fromPoints_step_NaN e q :
  isNaN (Cartesian2.x q) = true -> isNaN (Cartesian2.y q) = true -> fromPoints_step e q = e.
Proof.
  intros Hx Hy. unfold fromPoints_step.
  rewrite !(ltb_NaN_l (Cartesian2.x q)), !(ltb_NaN_r _ (Cartesian2.x q)),
    !(ltb_NaN_l (Cartesian2.y q)), !(ltb_NaN_r _ (Cartesian2.y q)) by done.
  by destruct e.
Qed.

Lemma fromPoints_loop_NaN_x rest : forall e,
  isNaN (minimumX e) = true -> isNaN (maximumX e) = true ->
  isNaN (minimumX (fold_left fromPoints_step rest e)) = true /\
  isNaN (maximumX (fold_left fromPoints_step rest e)) = true.
Proof.
  induction rest as [|p rest IH]; intros e Hm HM; [done|].
  cbn [fold_left]. apply IH; unfold fromPoints_step; cbn.
  - by rewrite ltb_NaN_r.
  - by rewrite ltb_NaN_l.
Qed.

Lemma fromPoints_loop_NaN_y rest : forall e,
  isNaN (minimumY e) = true -> isNaN (maximumY e) = true ->
  isNaN (minimumY (fold_left fromPoints_step rest e)) = true /\
  isNaN (maximumY (fold_left fromPoints_step rest e)) = true.
Proof.
  induction rest as [|p rest IH]; intros e Hm HM; [done|].
  cbn [fold_left]. apply IH; unfold fromPoints_step; cbn.
  - by rewrite ltb_NaN_r.
  - by rewrite ltb_NaN_l.
Qed.

(** X9: after the first point, [fromPoints] passes over a point whose
    coordinates are NaN: the rectangle is the one of the list without
    it. *)
Theorem fromPoints_skips_NaN
    (h : heap) (p0 q : Cartesian2.Cartesian2) (before after : list Cartesian2.Cartesian2) :
  isNaN (Cartesian2.x q) = true -> isNaN (Cartesian2.y q) = true ->
  (1 <= length (before ++ after))%nat ->
  fromPoints (Some (p0 :: before ++ q :: after)) h =
  fromPoints (Some (p0 :: before ++ after)) h.
Proof.
  intros Hx Hy Hlen.
  rewrite !fromPoints_returns; [|done|rewrite length_app in *; cbn; lia].
  rewrite !fold_left_app. cbn [fold_left]. by rewrite fromPoints_step_NaN.
Qed.

Lemma fromPoints_skips_NaN_witness :
  fromPoints (Some (point 0 0 :: [point 2 3] ++ point nan nan :: [point (-1) 5])) [] =
  fromPoints (Some (point 0 0 :: [point 2 3] ++ [point (-1) 5])) [].
Proof.
  apply (fromPoints_skips_NaN [] (point 0 0) (point nan nan) [point 2 3] [point (-1) 5]).
  - reflexivity.
  - reflexivity.
  - simpl. lia.
Defined.

(** X10: the first point is not passed over: where its [x] is NaN, [x]
    and [width] of the rectangle are NaN whatever the other points are,
    and so for [y] and [height]. *)
Theorem fromPoints_first_NaN
    (h : heap) (p0 : Cartesian2.Cartesian2) (rest : list Cartesian2.Cartesian2) :
  (1 <= length rest)%nat ->
  exists r,
    fromPoints (Some (p0 :: rest)) h = (h ++ [r], Normal (length h)) /\
    (isNaN (Cartesian2.x p0) = true -> isNaN (x r) = true /\ isNaN (width r) = true) /\
    (isNaN (Cartesian2.y p0) = true -> isNaN (y r) = true /\ isNaN (height r) = true).
Proof.
  intros Hlen. eexists. split; [by apply fromPoints_returns|]. cbn [x y width height].
  split; intros H.
  - destruct (fromPoints_loop_NaN_x rest (fromPoints_start p0) H H) as [Hm HM].
    split; [done|]. by apply sub_NaN_l.
  - destruct (fromPoints_loop_NaN_y rest (fromPoints_start p0) H H) as [Hm HM].
    split; [done|]. by apply sub_NaN_l.
Qed.

Lemma fromPoints_first_NaN_witness :
  exists r,
    fromPoints (Some [point nan 0; point 2 3; point (-1) 5]) [] = ([] ++ [r], Normal 0%nat) /\
    (isNaN nan = true -> isNaN (x r) = true /\ isNaN (width r) = true) /\
    (isNaN 0 = true -> isNaN (y r) = true /\ isNaN (height r) = true).
Proof.
  apply (fromPoints_first_NaN [] (point nan 0) [point 2 3; point (-1) 5]).
  simpl. lia.
Defined.

(** X11: the rectangle of [fromPoints] has no negative extent: for every
    list of two or more points, NaN and infinite coordinates included,
    neither [width] nor [height] is below zero. *)
Theorem fromPoints_not_negative (h : heap) (positions : list Cartesian2.Cartesian2) :
  (2 <= length positions)%nat ->
  exists r,
    fromPoints (Some positions) h = (h ++ [r], Normal (length h)) /\
    (width r <? 0) = false /\ (height r <? 0) = false.
Proof.
  intros Hlen. destruct positions as [|p0 rest]; [cbn in Hlen; lia|].
  eexists. split; [apply fromPoints_returns; cbn in Hlen; lia|].
  destruct (fromPoints_loop_extremaOf rest [p0] (fromPoints_start p0))
    as ([Hx _] & [Hy _] & [_ HX] & [_ HY]); [apply fromPoints_start_extremaOf|].
  cbn [x y width height]. split; apply sub_not_negative; auto.
Qed.

Lemma fromPoints_not_negative_witness :
  exists r,
    fromPoints (Some [point 0 0; point 2 3; point (-1) 5]) [] = ([] ++ [r], Normal 0%nat) /\
    (width r <? 0) = false /\ (height r <? 0) = false.
Proof.
  apply (fromPoints_not_negative [] [point 0 0; point 2 3; point (-1) 5]).
  simpl. lia.
Defined.

(** *** fromPoints and the order of the points *)

(** The minima of two lists with the same finite values are [===]. *)
Lemma minimumOf_eqb vs vs' m m' :
  vs ≡ₚ vs' -> (forall v, v ∈ vs -> isFinite v = true) ->
  minimumOf vs m -> minimumOf vs' m' ->
  (m =? m') = true /\ isFinite m = true /\ isFinite m' = true.
Proof.
  intros Hperm Hfin [Hin Hlow] [Hin' Hlow'].
  assert (m' ∈ vs) as Hin2 by (by rewrite Hperm).
  assert (m ∈ vs') as Hin3 by (by rewrite <- Hperm).
  split; [|auto]. apply not_ltb_eqb; auto using isFinite_isNaN.
Qed.

Lemma maximumOf_eqb vs vs' m m' :
  vs ≡ₚ vs' -> (forall v, v ∈ vs -> isFinite v = true) ->
  maximumOf vs m -> maximumOf vs' m' ->
  (m =? m') = true /\ isFinite m = true /\ isFinite m' = true.
Proof.
  intros Hperm Hfin [Hin Hup] [Hin' Hup'].
  assert (m' ∈ vs) as Hin2 by (by rewrite Hperm).
  assert (m ∈ vs') as Hin3 by (by rewrite <- Hperm).
  split; [|auto]. apply not_ltb_eqb; auto using isFinite_isNaN.
Qed.

Lemma fromPoints_extremaOf positions :
  (2 <= length positions)%nat ->
  exists e,
    extremaOf positions e /\
    forall h : heap,
      fromPoints (Some positions) h =
      (h ++ [ {| x := minimumX e; y := minimumY e;
                 width := maximumX e - minimumX e;
                 height := maximumY e - minimumY e |} ], Normal (length h)).
Proof.
  intros Hlen. destruct positions as [|p0 rest]; [cbn in Hlen; lia|].
  exists (fold_left fromPoints_step rest (fromPoints_start p0)). split.
  - apply (fromPoints_loop_extremaOf rest [p0]), fromPoints_start_extremaOf.
  - intros h. apply fromPoints_returns. cbn in Hlen. lia.
Qed.

(** X25: on points with finite coordinates the rectangle of [fromPoints]
    does not depend on the order of the points, up to [equals]: the
    rectangles of a list and of a permutation of it are equal. (They can
    differ in the sign of a zero.) *)
Theorem fromPoints_order (h : heap) (positions positions' : list Cartesian2.Cartesian2) :
  positions ≡ₚ positions' ->
  (2 <= length positions)%nat ->
  (forall p, p ∈ positions ->
     isFinite (Cartesian2.x p) = true /\ isFinite (Cartesian2.y p) = true) ->
  exists r r',
    fromPoints (Some positions) h = (h ++ [r], Normal (length h)) /\
    fromPoints (Some positions') h = (h ++ [r'], Normal (length h)) /\
    equalsOfFromPoints positions positions' h = (h ++ [r; r'], Normal true).
Proof.
  intros Hperm Hlen Hfin.
  destruct (fromPoints_extremaOf positions Hlen) as (e & (Hx & Hy & HX & HY) & Run).
  destruct (fromPoints_extremaOf positions') as (e' & (Hx' & Hy' & HX' & HY') & Run');
    [by rewrite <- Hperm|].
  assert (forall v, v ∈ Cartesian2.x <$> positions -> isFinite v = true) as Fx.
  { intros v (p & -> & Hp)%list_elem_of_fmap. by apply Hfin. }
  assert (forall v, v ∈ Cartesian2.y <$> positions -> isFinite v = true) as Fy.
  { intros v (p & -> & Hp)%list_elem_of_fmap. by apply Hfin. }
  assert (Cartesian2.x <$> positions ≡ₚ Cartesian2.x <$> positions') as Px by (by rewrite Hperm).
  assert (Cartesian2.y <$> positions ≡ₚ Cartesian2.y <$> positions') as Py by (by rewrite Hperm).
  destruct (minimumOf_eqb _ _ _ _ Px Fx Hx Hx') as (Ex & F1 & F1').
  destruct (minimumOf_eqb _ _ _ _ Py Fy Hy Hy') as (Ey & F2 & F2').
  destruct (maximumOf_eqb _ _ _ _ Px Fx HX HX') as (EX & F3 & F3').
  destruct (maximumOf_eqb _ _ _ _ Py Fy HY HY') as (EY & F4 & F4').
  set (r := {| x := minimumX e; y := minimumY e;
               width := maximumX e - minimumX e; height := maximumY e - minimumY e |}).
  set (r' := {| x := minimumX e'; y := minimumY e';
                width := maximumX e' - minimumX e'; height := maximumY e' - minimumY e' |}).
  exists r, r'. split; [apply Run|]. split; [apply Run'|].
  unfold equalsOfFromPoints, bind. rewrite Run, Run'. fold r r'.
  rewrite (equals_distinct ((h ++ [r]) ++ [r']) (length h) (length (h ++ [r])) r r').
  - rewrite <- (assoc_L (++)). cbn [x y width height r r'].
    by rewrite Ex, Ey, !sub_eqb.
  - rewrite length_app. cbn. lia.
  - apply lookup_old, lookup_fresh.
  - apply lookup_fresh.
Qed.

Lemma fromPoints_order_witness :
  exists r r',
    fromPoints (Some [point 0 0; point 2 3; point (-1) 5]) [] = ([] ++ [r], Normal 0%nat) /\
    fromPoints (Some [point 2 3; point (-1) 5; point 0 0]) [] = ([] ++ [r'], Normal 0%nat) /\
    equalsOfFromPoints [point 0 0; point 2 3; point (-1) 5]
      [point 2 3; point (-1) 5; point 0 0] [] = ([] ++ [r; r'], Normal true).
Proof.
  apply (fromPoints_order [] [point 0 0; point 2 3; point (-1) 5]
           [point 2 3; point (-1) 5; point 0 0]).
  - apply (Permutation_cons_append [point 2 3; point (-1) 5] (point 0 0)).
  - simpl. lia.
  - intros p Hp. rewrite !elem_of_cons, elem_of_nil in Hp.
    destruct Hp as [->|[->|[->|[]]]]; split; reflexivity.
Defined.

End BoundingRectangleFacts.

(** ** Facts about DynamicExternalDocument *)

Module DynamicExternalDocumentFacts.

Import DynamicExternalDocument.
Open Scope js_scope.

Section Facts.

Context {TimeInterval data DynamicProperty attributes : Type}.
Context (fromIso8601 : string -> completion TimeInterval).
Context (newDynamicProperty : valueType -> DynamicProperty).
Context (processCzmlIntervals :
  DynamicProperty -> data -> option TimeInterval -> DynamicProperty * completion unit).

Local Abbreviation heap := (heap DynamicProperty attributes).
Local Abbreviation new_DynamicProperty :=
  (new_DynamicProperty newDynamicProperty (attributes := attributes)).
Local Abbreviation property_processCzmlIntervals :=
  (property_processCzmlIntervals processCzmlIntervals (attributes := attributes)).
Local Abbreviation TimeInterval_fromIso8601 :=
  (TimeInterval_fromIso8601 fromIso8601
     (DynamicProperty := DynamicProperty) (attributes := attributes)).
Local Abbreviation processCzmlPacket :=
  (processCzmlPacket fromIso8601 newDynamicProperty processCzmlIntervals
     (attributes := attributes)).
Local Abbreviation intervalOf := (intervalOf fromIso8601 (data := data)).
Local Abbreviation strategy :=
  (strategy newDynamicProperty processCzmlIntervals (attributes := attributes)).
Local Abbreviation strategies :=
  (strategies newDynamicProperty processCzmlIntervals (attributes := attributes)).
Local Abbreviation externalGroup :=
  (externalGroup (DynamicProperty := DynamicProperty) (attributes := attributes)).
Local Abbreviation intervalGroup :=
  (intervalGroup fromIso8601 (data := data)
     (DynamicProperty := DynamicProperty) (attributes := attributes)).
Local Abbreviation scopeGroup :=
  (scopeGroup (data := data) (DynamicProperty := DynamicProperty) (attributes := attributes)).
Local Abbreviation writeOnce :=
  (writeOnce (DynamicProperty := DynamicProperty) (attributes := attributes)).
Local Abbreviation settled :=
  (settled (DynamicProperty := DynamicProperty) (attributes := attributes)).
Local Abbreviation afterPackets :=
  (afterPackets fromIso8601 newDynamicProperty processCzmlIntervals
     (attributes := attributes)).

Implicit Types (h : heap) (o d p : ref) (doc : DynamicExternalDocument).

(** *** Relations a computation keeps between the heap before and after *)

Section Preserves.

Context (R : heap -> heap -> Prop) `{!Reflexive R, !Transitive R}.

Lemma preserves_ret {A} (a : A) : preserves R (ret a).
Proof. intros h. reflexivity. Qed.

Lemma preserves_throw {A} e : preserves R (throw (A := A) e).
Proof. intros h. reflexivity. Qed.

Lemma preserves_bind {A B} (c : M heap A) (k : A -> M heap B) :
  preserves R c -> (forall a, preserves R (k a)) -> preserves R (bind c k).
Proof.
  intros Hc Hk h. unfold bind. specialize (Hc h).
  destruct (c h) as [h1 [a|e]]; [|exact Hc].
  etransitivity; [exact Hc | apply Hk].
Qed.

Lemma preserves_getExternal o : preserves R (getExternal o).
Proof. intros h. unfold getExternal. destruct (objects h !! o); reflexivity. Qed.

Lemma preserves_get {A} d (f : DynamicExternalDocument -> A) : preserves R (get d f).
Proof. intros h. unfold get. destruct (documents h !! d); reflexivity. Qed.

Lemma preserves_fromIso8601 s : preserves R (TimeInterval_fromIso8601 s).
Proof. intros h. reflexivity. Qed.

End Preserves.

(** A computation that, started where [P] holds, keeps [R]. *)
Lemma preserves_guarded (R : heap -> heap -> Prop) {A B}
    (c : M heap A) (k : A -> M heap B) :
  Transitive R ->
  preserves R c ->
  (forall h a h', c h = (h', Normal a) -> R h' (k a h').1) ->
  preserves R (bind c k).
Proof.
  intros HT Hc Hk h. unfold bind. specialize (Hc h). specialize (Hk h).
  destruct (c h) as [h1 [a|e]]; [|exact Hc].
  etransitivity; [exact Hc | by apply Hk].
Qed.

(** *** The statement groups of [processCzmlPacket] *)

Lemma processCzmlPacket_groups o packet :
  processCzmlPacket o packet =
  match Czml.external packet with
  | None => ret false
  | Some x =>
      r <- externalGroup o ;;
      interval <- intervalGroup x ;;
      externalUpdated <- scopeGroup x r.1 r.2 ;;
      strategies x r.1 interval externalUpdated
  end.
Proof. reflexivity. Qed.

(** *** Fields are written once *)

#[local] Instance writeOnce_refl : Reflexive writeOnce.
Proof. intros h. split; eauto 10. Qed.

#[local] Instance writeOnce_trans : Transitive writeOnce.
Proof.
  intros h1 h2 h3 [O12 D12] [O23 D23]. split.
  - intros o e E. destruct (O12 o e E) as (e2 & E2 & A2 & X2).
    destruct (O23 o e2 E2) as (e3 & E3 & A3 & X3).
    exists e3. split; [done|]. split; [congruence|]. auto.
  - intros d doc E. destruct (D12 d doc E) as (doc2 & E2 & S2 & F2).
    destruct (D23 d doc2 E2) as (doc3 & E3 & S3 & F3).
    exists doc3. split; [done|]. split; auto.
Qed.

Lemma writeOnce_set_properties h l : writeOnce h (set_properties l h).
Proof. split; cbn; eauto 10. Qed.

Lemma writeOnce_newDocument h x : writeOnce h (set_documents (documents h ++ [x]) h).
Proof.
  split; cbn; [eauto 10|]. intros d doc E. exists doc.
  split; [by apply lookup_app_l_Some | auto].
Qed.

Lemma writeOnce_set_external h o e v :
  objects h !! o = Some e -> external e = None ->
  writeOnce h (set_objects (<[o := set_external v e]> (objects h)) h).
Proof.
  intros E N. split; cbn; [|eauto 10]. intros o' e' E'.
  destruct (decide (o = o')) as [<-|Hne].
  - rewrite list_lookup_insert_eq by (by eapply lookup_lt_Some).
    eexists. split; [done|]. split; [cbn; congruence|]. intros d. congruence.
  - rewrite list_lookup_insert_ne by done. eauto 10.
Qed.

Lemma writeOnce_set_document h d doc doc' :
  documents h !! d = Some doc ->
  (forall s, scope doc = Some s -> scope doc' = Some s) ->
  (forall f p, getField f doc = Some p -> getField f doc' = Some p) ->
  writeOnce h (set_documents (<[d := doc']> (documents h)) h).
Proof.
  intros E S F. split; cbn; [eauto 10|]. intros d' doc0 E'.
  destruct (decide (d = d')) as [<-|Hne].
  - rewrite list_lookup_insert_eq by (by eapply lookup_lt_Some).
    eexists. split; [done|]. assert (doc0 = doc) as -> by congruence. auto.
  - rewrite list_lookup_insert_ne by done. eauto 10.
Qed.

Lemma getField_setField_None f v doc g p :
  getField f doc = None -> getField g doc = Some p -> getField g (setField f v doc) = Some p.
Proof. destruct f, g; cbn; congruence. Qed.

Lemma preserves_writeOnce_new_DynamicProperty t : preserves writeOnce (new_DynamicProperty t).
Proof. intros h. apply writeOnce_set_properties. Qed.

Lemma preserves_writeOnce_processCzmlIntervals p x i :
  preserves writeOnce (property_processCzmlIntervals p x i).
Proof.
  intros h. unfold DynamicExternalDocument.property_processCzmlIntervals.
  destruct (properties h !! p) as [s|]; [|reflexivity].
  destruct (processCzmlIntervals s x i). apply writeOnce_set_properties.
Qed.

(** [external.field = v] where [external.field] was just read as undefined. *)
Lemma writeOnce_set_undefined_field h d f v :
  (get d (getField f) h).2 = Normal None ->
  writeOnce h (set d (setField f v) h).1.
Proof.
  unfold get, set. destruct (documents h !! d) as [doc|] eqn:E; [|reflexivity].
  cbn. intros [= N]. eapply writeOnce_set_document; [done| |].
  - by destruct f.
  - intros g p. by apply getField_setField_None.
Qed.

(** The statement group that reads a property field and creates the
    property when the field is undefined. *)
Lemma preserves_writeOnce_property d f t {A} (k1 k2 : ref -> M heap A) :
  (forall p, preserves writeOnce (k1 p)) ->
  (forall p, preserves writeOnce (k2 p)) ->
  preserves writeOnce
    (p0 <- get d (getField f) ;;
     match p0 with
     | None => p <- new_DynamicProperty t ;; set d (setField f (Some p)) ;; k1 p
     | Some p => k2 p
     end).
Proof.
  intros H1 H2. apply preserves_guarded; [apply _ | apply (preserves_get writeOnce) |].
  intros h [p|] h' E; [apply H2|].
  assert (h' = h) as -> by (revert E; unfold get; destruct (documents h !! d); by intros [= <-]).
  pose (h1 := set_properties (properties h ++ [newDynamicProperty t]) h).
  change (writeOnce h ((set d (setField f (Some (length (properties h)))) ;;
                        k1 (length (properties h))) h1).1).
  transitivity h1; [apply writeOnce_set_properties|].
  assert ((get d (getField f) h1).2 = Normal None) as G
    by (revert E; unfold get; cbn; destruct (documents h !! d); by intros [= <-]).
  apply writeOnce_set_undefined_field with (v := Some (length (properties h))) in G.
  unfold bind. destruct (set d _ h1) as [h2 [[]|e]]; [|exact G].
  etransitivity; [exact G | apply H1].
Qed.

Lemma preserves_writeOnce_scope d s u :
  preserves writeOnce
    (scope0 <- get d scope ;;
     match scope0 with
     | None => set d (set_scope (Some s)) ;; ret true
     | Some _ => ret u
     end).
Proof.
  intros h. unfold bind, get, set, ret.
  destruct (documents h !! d) as [doc|] eqn:E; [|reflexivity]. cbn.
  destruct (scope doc) eqn:S; [reflexivity|]. rewrite E. cbn.
  eapply writeOnce_set_document; [done| |]; cbn; [congruence|].
  intros f p; by destruct f.
Qed.

Lemma preserves_writeOnce_external o {A} (k1 k2 : ref -> M heap A) :
  (forall d, preserves writeOnce (k1 d)) ->
  (forall d, preserves writeOnce (k2 d)) ->
  preserves writeOnce
    (external0 <- getExternal o ;;
     match external0 with
     | None => d <- newDynamicExternalDocument ;; setExternal o (Some d) ;; k1 d
     | Some d => k2 d
     end).
Proof.
  intros H1 H2 h. unfold bind at 1, getExternal, ret.
  destruct (objects h !! o) as [e|] eqn:E; [|reflexivity]. cbn.
  destruct (external e) as [d|] eqn:X; [apply H2|].
  unfold bind, newDynamicExternalDocument, setExternal. cbn. rewrite E. cbn.
  etransitivity; [apply (writeOnce_newDocument h)|].
  etransitivity; [|apply H1].
  by apply (writeOnce_set_external (set_documents _ h)).
Qed.

Lemma preserves_writeOnce_ret {A} (a : A) : preserves writeOnce (ret a).
Proof. apply (preserves_ret writeOnce). Qed.

Lemma preserves_writeOnce_strategy d f1 f2 t2 x1 x2 i u :
  preserves writeOnce (strategy d f1 f2 t2 x1 x2 i u).
Proof.
  unfold DynamicExternalDocument.strategy.
  apply preserves_bind; [apply _| |intros r].
  { apply (preserves_writeOnce_property d f1); auto using @preserves_writeOnce_ret. }
  apply preserves_bind; [apply _|apply preserves_writeOnce_processCzmlIntervals|intros _].
  destruct x2 as [x2|]; [|apply preserves_writeOnce_ret].
  apply (preserves_writeOnce_property d f2); [|auto using @preserves_writeOnce_ret].
  intros p. apply preserves_bind;
    [apply _|apply preserves_writeOnce_processCzmlIntervals|
     auto using @preserves_writeOnce_ret].
Qed.

Lemma preserves_writeOnce_strategies x d i u : preserves writeOnce (strategies x d i u).
Proof.
  unfold DynamicExternalDocument.strategies. destruct (Czml.polling x); [apply preserves_writeOnce_strategy|].
  destruct (Czml.eventsource x);
    [apply preserves_writeOnce_strategy|apply preserves_writeOnce_ret].
Qed.

Lemma preserves_writeOnce_scopeGroup x d u : preserves writeOnce (scopeGroup x d u).
Proof.
  unfold DynamicExternalDocument.scopeGroup.
  destruct (Czml.scope x); [apply preserves_writeOnce_scope | apply preserves_writeOnce_ret].
Qed.

Lemma preserves_writeOnce_processCzmlPacket o packet :
  preserves writeOnce (processCzmlPacket o packet).
Proof.
  rewrite processCzmlPacket_groups.
  destruct (Czml.external packet) as [x|]; [|apply preserves_writeOnce_ret].
  apply preserves_bind; [apply _| |intros r].
  { apply preserves_writeOnce_external; auto using @preserves_writeOnce_ret. }
  apply preserves_bind; [apply _| |intros i].
  { unfold DynamicExternalDocument.intervalGroup. destruct (Czml.interval x); [|apply preserves_writeOnce_ret].
    apply preserves_bind; [apply _|apply (preserves_fromIso8601 writeOnce)|].
    auto using @preserves_writeOnce_ret. }
  apply preserves_bind; [apply _|apply preserves_writeOnce_scopeGroup|intros u].
  apply preserves_writeOnce_strategies.
Qed.

Lemma writeOnce_afterPackets calls : forall h, writeOnce h (afterPackets calls h).
Proof.
  induction calls as [|[o packet] calls IH]; intros h; [reflexivity|].
  cbn. etransitivity; [apply preserves_writeOnce_processCzmlPacket | apply IH].
Qed.

Lemma writeOnce_fieldOf_scope h h' o s :
  writeOnce h h' -> fieldOf h o scope = Some s -> fieldOf h' o scope = Some s.
Proof.
  intros [HO HD]. unfold fieldOf, documentOf.
  destruct (objects h !! o) as [e|] eqn:E; [|done]. cbn.
  destruct (external e) as [d|] eqn:X; [|done]. cbn.
  destruct (documents h !! d) as [doc|] eqn:D; [|done]. cbn. intros S.
  destruct (HO o e E) as (e' & -> & _ & X'). cbn. rewrite (X' d X). cbn.
  destruct (HD d doc D) as (doc' & -> & S' & _). cbn. auto.
Qed.

Lemma writeOnce_fieldOf_property h h' o f p :
  writeOnce h h' ->
  fieldOf h o (getField f) = Some p -> fieldOf h' o (getField f) = Some p.
Proof.
  intros [HO HD]. unfold fieldOf, documentOf.
  destruct (objects h !! o) as [e|] eqn:E; [|done]. cbn.
  destruct (external e) as [d|] eqn:X; [|done]. cbn.
  destruct (documents h !! d) as [doc|] eqn:D; [|done]. cbn. intros S.
  destruct (HO o e E) as (e' & -> & _ & X'). cbn. rewrite (X' d X). cbn.
  destruct (HD d doc D) as (doc' & -> & _ & F'). cbn. auto.
Qed.

(** *** Running the primitives *)

Lemma getExternal_Some h o e :
  objects h !! o = Some e -> getExternal o h = (h, Normal (external e)).
Proof. unfold getExternal. by intros ->. Qed.

Lemma setExternal_Some h o e v :
  objects h !! o = Some e ->
  setExternal o v h = (set_objects (<[o := set_external v e]> (objects h)) h, Normal tt).
Proof. unfold setExternal. by intros ->. Qed.

Lemma get_Some {A} h d doc (f : DynamicExternalDocument -> A) :
  documents h !! d = Some doc -> get d f h = (h, Normal (f doc)).
Proof. unfold get. by intros ->. Qed.

Lemma set_Some h d doc u :
  documents h !! d = Some doc ->
  set d u h = (set_documents (<[d := u doc]> (documents h)) h, Normal tt).
Proof. unfold set. by intros ->. Qed.

Lemma processCzmlIntervals_Some h p s x i :
  properties h !! p = Some s ->
  property_processCzmlIntervals p x i h =
  (set_properties (<[p := (processCzmlIntervals s x i).1]> (properties h)) h,
   (processCzmlIntervals s x i).2).
Proof.
  unfold DynamicExternalDocument.property_processCzmlIntervals. intros ->.
  by destruct (processCzmlIntervals s x i).
Qed.

Lemma lookup_insert_same {A} (l : list A) i x y :
  l !! i = Some y -> <[i := x]> l !! i = Some x.
Proof. intros E. apply list_lookup_insert_eq. by eapply lookup_lt_Some. Qed.

Lemma lookup_snoc_new {A} (l : list A) x : (l ++ [x]) !! length l = Some x.
Proof. by apply list_lookup_middle. Qed.

Lemma lookup_snoc_old {A} (l : list A) x i y : l !! i = Some y -> (l ++ [x]) !! i = Some y.
Proof. apply lookup_app_l_Some. Qed.

Lemma lookup_snoc_ne {A} (l : list A) x i : i <> length l -> (l ++ [x]) !! i = l !! i.
Proof.
  intros Hne. destruct (decide (i < length l)) as [Hlt|Hge].
  - by apply lookup_app_l.
  - rewrite !lookup_ge_None_2; [done|lia|rewrite length_app; cbn; lia].
Qed.

Lemma set_external_same {B} (e : DynamicObject B) d :
  external e = Some d -> set_external (Some d) e = e.
Proof. destruct e; cbn. by intros ->. Qed.

Lemma set_polling_same doc : set_polling (polling doc) doc = doc.
Proof. by destruct doc. Qed.

Lemma set_scope_same doc : set_scope (scope doc) doc = doc.
Proof. by destruct doc. Qed.

Lemma set_documents_same h : set_documents (documents h) h = h.
Proof. by destruct h. Qed.

(** *** The document of a DynamicObject, found or created

    The statement group that reads [dynamicObject.external] and creates
    the document when there is none. *)
Lemma run_external_group {A} h o e (k : ref -> A) (k' : ref -> A) :
  objects h !! o = Some e ->
  (forall d, external e = Some d -> is_Some (documents h !! d)) ->
  exists h1 d,
    (external0 <- getExternal o ;;
     match external0 with
     | None => d <- newDynamicExternalDocument ;; setExternal o (Some d) ;; ret (k d)
     | Some d => ret (k' d)
     end) h
    = (h1, Normal (match external e with Some _ => k' d | None => k d end)) /\
    objects h1 = <[o := set_external (Some d) e]> (objects h) /\
    properties h1 = properties h /\
    documents h1 !! d = Some (default emptyDocument (documentOf h o)) /\
    (forall d', d' <> d -> documents h1 !! d' = documents h !! d') /\
    match external e with
    | Some d0 => d = d0 /\ h1 = h
    | None => d = length (documents h)
    end.
Proof.
  intros E V. unfold bind at 1. rewrite (getExternal_Some h o e E).
  unfold documentOf. rewrite E. cbn.
  destruct (external e) as [d|] eqn:X.
  - destruct (V d eq_refl) as [doc Hdoc]. exists h, d. cbn. rewrite Hdoc.
    split; [done|]. split; [|done].
    by rewrite set_external_same, list_insert_id.
  - exists (set_objects (<[o := set_external (Some (length (documents h))) e]> (objects h))
             (set_documents (documents h ++ [emptyDocument]) h)),
           (length (documents h)).
    unfold bind, newDynamicExternalDocument. cbn.
    rewrite (setExternal_Some _ o e) by done. cbn.
    split; [done|]. split; [done|]. split; [done|].
    split; [apply lookup_snoc_new|]. split; [|done].
    intros d' Hne. by apply lookup_snoc_ne.
Qed.

Lemma run_externalGroup h o e :
  objects h !! o = Some e ->
  (forall d, external e = Some d -> is_Some (documents h !! d)) ->
  exists h1 d,
    externalGroup o h = (h1, Normal (d, bool_decide (external e = None))) /\
    objects h1 = <[o := set_external (Some d) e]> (objects h) /\
    properties h1 = properties h /\
    documents h1 !! d = Some (default emptyDocument (documentOf h o)) /\
    (forall d', d' <> d -> documents h1 !! d' = documents h !! d') /\
    match external e with
    | Some d0 => d = d0 /\ h1 = h
    | None => d = length (documents h)
    end.
Proof.
  intros E V.
  destruct (run_external_group h o e (fun d => (d, true)) (fun d => (d, false)) E V)
    as (h1 & d & Run & Rest).
  exists h1, d. split; [|exact Rest].
  unfold DynamicExternalDocument.externalGroup. rewrite Run. by destruct (external e).
Qed.

Lemma run_scopeGroup h d doc x u :
  documents h !! d = Some doc ->
  exists u',
    scopeGroup x d u h =
    (set_documents
       (<[d := set_scope (defaultValue (scope doc) (Czml.scope x)) doc]> (documents h)) h,
     Normal u').
Proof.
  intros D. unfold DynamicExternalDocument.scopeGroup, bind.
  assert (forall u0, (h, Normal u0 : completion bool) =
            (set_documents (<[d := set_scope (scope doc) doc]> (documents h)) h, Normal u0))
    as Same by (intros; by rewrite set_scope_same, list_insert_id, set_documents_same).
  destruct (Czml.scope x) as [s|].
  - rewrite (get_Some h d doc) by done. destruct (scope doc) as [s0|] eqn:S.
    + exists u. exact (Same u).
    + exists true. by rewrite (set_Some h d doc) by done.
  - exists u. destruct (scope doc) as [s0|] eqn:S; exact (Same u).
Qed.

Lemma getField_setField f v doc : getField f (setField f v doc) = v.
Proof. by destruct f. Qed.

Lemma getField_setField_ne f g v doc :
  f <> g -> getField g (setField f v doc) = getField g doc.
Proof. by destruct f, g. Qed.

Lemma scope_setField f v doc : scope (setField f v doc) = scope doc.
Proof. by destruct f. Qed.

Lemma show_setField f v doc : show (setField f v doc) = show doc.
Proof. by destruct f. Qed.

Lemma setField_same f doc p : getField f doc = Some p -> setField f (Some p) doc = doc.
Proof. destruct f, doc; cbn; by intros ->. Qed.

(** The write-once part of a strategy (lines 57-64 and 73-80), run where
    the document is [doc]. *)
Lemma run_once h d doc f2 t2 (x2 : option data) i u :
  documents h !! d = Some doc ->
  exists h' c doc',
    (match x2 with
     | Some x2 =>
         q0 <- get d (getField f2) ;;
         match q0 with
         | None =>
             p <- new_DynamicProperty t2 ;;
             set d (setField f2 (Some p)) ;;
             property_processCzmlIntervals p x2 i ;;
             ret true
         | Some _ => ret u
         end
     | None => ret u
     end) h = (h', c) /\
    objects h' = objects h /\
    documents h' = <[d := doc']> (documents h) /\
    scope doc' = scope doc /\ show doc' = show doc /\
    (forall g, g <> f2 -> getField g doc' = getField g doc) /\
    (forall q, getField f2 doc = Some q -> getField f2 doc' = Some q) /\
    (forall q s, properties h !! q = Some s -> properties h' !! q = Some s) /\
    (forall x, x2 = Some x -> getField f2 doc = None ->
       getField f2 doc' = Some (length (properties h)) /\
       properties h' !! length (properties h) =
         Some (processCzmlIntervals (newDynamicProperty t2) x i).1 /\
       c = match (processCzmlIntervals (newDynamicProperty t2) x i).2 with
           | Normal _ => Normal true
           | Throw e => Throw e
           end) /\
    (x2 = None \/ is_Some (getField f2 doc) -> h' = h /\ c = Normal u).
Proof.
  intros D.
  assert (exists doc', (h, Normal u : completion bool) = (h, Normal u) /\
            objects h = objects h /\ documents h = <[d := doc']> (documents h) /\
            scope doc' = scope doc /\ show doc' = show doc /\
            (forall g, g <> f2 -> getField g doc' = getField g doc) /\
            (forall q, getField f2 doc = Some q -> getField f2 doc' = Some q) /\
            (forall q s, properties h !! q = Some s -> properties h !! q = Some s))
    as (doc0 & Same).
  { exists doc. by rewrite list_insert_id. }
  destruct x2 as [x|]; [unfold bind at 1; rewrite (get_Some h d doc) by done;
                         destruct (getField f2 doc) as [q|] eqn:F2|].
  - exists h, (Normal u), doc0. destruct Same as (_ & ? & ? & ? & ? & ? & ? & ?).
    split_and!; try done; try (intros; congruence); eauto.
  - unfold bind, DynamicExternalDocument.new_DynamicProperty. cbn.
    rewrite (set_Some _ d doc) by done. cbn.
    erewrite processCzmlIntervals_Some by (cbn; apply lookup_snoc_new).
    cbn. rewrite insert_app_r_alt, Nat.sub_diag by lia. cbn.
    exists (set_properties
              (properties h ++ [(processCzmlIntervals (newDynamicProperty t2) x i).1])
              (set_documents (<[d := setField f2 (Some (length (properties h))) doc]>
                                (documents h)) h)),
           (match (processCzmlIntervals (newDynamicProperty t2) x i).2 with
            | Normal _ => Normal true
            | Throw e => Throw e
            end),
           (setField f2 (Some (length (properties h))) doc).
    split_and!.
    + by destruct (processCzmlIntervals _ x i).2 as [[]|].
    + done.
    + done.
    + apply scope_setField.
    + apply show_setField.
    + intros g Hne. by apply getField_setField_ne.
    + congruence.
    + intros q s Q. cbn. by apply lookup_snoc_old.
    + intros x' [= <-] _. split; [apply getField_setField|].
      split; [apply lookup_snoc_new|done].
    + intros [|[? ?]]; congruence.
  - exists h, (Normal u), doc0. destruct Same as (_ & ? & ? & ? & ? & ? & ? & ?).
    split_and!; try done; try (intros; congruence); eauto.
Qed.

(** The statement group that reads the main field of a strategy and
    creates its property when the field is undefined (lines 50-54 and
    67-71). *)
Lemma run_property_group h d doc f1 u :
  documents h !! d = Some doc ->
  exists h1 p,
    (p0 <- get d (getField f1) ;;
     match p0 with
     | None =>
         p <- new_DynamicProperty CzmlString ;;
         set d (setField f1 (Some p)) ;;
         ret (p, true)
     | Some p => ret (p, u)
     end) h
    = (h1, Normal (p, match getField f1 doc with Some _ => u | None => true end)) /\
    objects h1 = objects h /\
    documents h1 = <[d := setField f1 (Some p) doc]> (documents h) /\
    p = default (length (properties h)) (getField f1 doc) /\
    properties h1 = match getField f1 doc with
                    | Some _ => properties h
                    | None => properties h ++ [newDynamicProperty CzmlString]
                    end.
Proof.
  intros D. unfold bind at 1. rewrite (get_Some h d doc) by done.
  destruct (getField f1 doc) as [p|] eqn:F1.
  - exists h, p. split_and!; try done.
    by rewrite setField_same, list_insert_id.
  - eexists _, (length (properties h)).
    unfold bind, DynamicExternalDocument.new_DynamicProperty. cbn.
    rewrite (set_Some _ d doc) by done. cbn. by split_and!.
Qed.

(** A whole strategy, run where the document is [doc] and its main
    property, if any, exists. *)
Lemma run_strategy h d doc f1 f2 t2 x1 x2 i u :
  documents h !! d = Some doc ->
  (forall p, getField f1 doc = Some p -> is_Some (properties h !! p)) ->
  f1 <> f2 ->
  exists h' c doc' p s0,
    strategy d f1 f2 t2 x1 x2 i u h = (h', c) /\
    p = default (length (properties h)) (getField f1 doc) /\
    s0 = default (newDynamicProperty CzmlString) (stateOf h (getField f1 doc)) /\
    objects h' = objects h /\
    documents h' = <[d := doc']> (documents h) /\
    getField f1 doc' = Some p /\
    properties h' !! p = Some (processCzmlIntervals s0 x1 i).1 /\
    (forall q s, properties h !! q = Some s -> q <> p -> properties h' !! q = Some s) /\
    scope doc' = scope doc /\ show doc' = show doc /\
    (forall g, g <> f1 -> g <> f2 -> getField g doc' = getField g doc) /\
    (forall q, getField f2 doc = Some q -> getField f2 doc' = Some q) /\
    (forall x, x2 = Some x -> getField f2 doc = None ->
       (processCzmlIntervals s0 x1 i).2 = Normal tt ->
       exists q, getField f2 doc' = Some q /\ length (properties h) <= q /\ p < q /\
         properties h' !! q = Some (processCzmlIntervals (newDynamicProperty t2) x i).1 /\
         c = match (processCzmlIntervals (newDynamicProperty t2) x i).2 with
             | Normal _ => Normal true
             | Throw e => Throw e
             end) /\
    (forall b, c = Normal b -> getField f1 doc = None -> b = true).
Proof.
  intros D V Hne.
  destruct (run_property_group h d doc f1 u D) as (h1 & p & Run1 & O1 & D1 & Hp & P1).
  set (s0 := default (newDynamicProperty CzmlString) (stateOf h (getField f1 doc))).
  set (doc1 := setField f1 (Some p) doc) in *.
  assert (documents h1 !! d = Some doc1) as D1'
    by (rewrite D1; by apply (lookup_insert_same _ _ _ doc)).
  assert (properties h1 !! p = Some s0) as Ps0.
  { rewrite P1, Hp. subst s0. destruct (getField f1 doc) as [p0|] eqn:F1; cbn.
    - destruct (V p0 eq_refl) as [s ->]. done.
    - apply lookup_snoc_new. }
  assert (forall q s, properties h !! q = Some s -> properties h1 !! q = Some s) as Old1.
  { intros q s Q. rewrite P1. destruct (getField f1 doc); [done|by apply lookup_snoc_old]. }
  assert (length (properties h) <= length (properties h1)) as Len1.
  { rewrite P1. destruct (getField f1 doc); [done|]. rewrite length_app. lia. }
  unfold DynamicExternalDocument.strategy. unfold bind at 1. rewrite Run1. cbn [fst snd].
  unfold bind at 1. rewrite (processCzmlIntervals_Some h1 p s0) by done.
  set (fed := processCzmlIntervals s0 x1 i).
  set (h2 := set_properties (<[p := fed.1]> (properties h1)) h1).
  assert (properties h2 !! p = Some fed.1) as P2
    by (by apply (lookup_insert_same _ _ _ s0)).
  assert (forall q s, properties h !! q = Some s -> q <> p -> properties h2 !! q = Some s)
    as Old2.
  { intros q s Q Hq. cbn. rewrite list_lookup_insert_ne by done. auto. }
  destruct fed.2 as [[]|e] eqn:C2.
  - destruct (run_once h2 d doc1 f2 t2 x2 i
                (match getField f1 doc with Some _ => u | None => true end) D1')
      as (h' & c & doc' & Run3 & O3 & D3 & S3 & W3 & G3 & F3 & P3 & N3 & Same3).
    rewrite Run3. exists h', c, doc', p, s0.
    split_and!; try done.
    + rewrite O3. exact O1.
    + rewrite D3. cbn. rewrite D1. apply list_insert_insert_eq.
    + rewrite G3 by done. apply getField_setField.
    + auto.
    + auto.
    + rewrite S3. apply scope_setField.
    + rewrite W3. apply show_setField.
    + intros g H1 H2. rewrite G3 by done. by apply getField_setField_ne.
    + intros q Q. apply F3. unfold doc1. by rewrite getField_setField_ne.
    + intros x -> F2 _.
      destruct (N3 x eq_refl) as (Q1 & Q2 & Q3);
        [unfold doc1; by rewrite getField_setField_ne|].
      exists (length (properties h2)). split_and!; try done.
      * cbn. by rewrite length_insert.
      * by apply lookup_lt_Some in P2.
    + intros b -> F1.
      destruct x2 as [x|]; [destruct (getField f2 doc) as [q|] eqn:F2|].
      * destruct Same3 as [_ [= ->]];
          [right; unfold doc1; by rewrite getField_setField_ne, F2|].
        by rewrite F1.
      * destruct (N3 x eq_refl) as (_ & _ & Q3);
          [unfold doc1; by rewrite getField_setField_ne|].
        destruct (processCzmlIntervals _ x i).2; congruence.
      * destruct Same3 as [_ [= ->]]; [by left|]. by rewrite F1.
  - exists h2, (Throw e), doc1, p, s0.
    split_and!; try done.
    + apply getField_setField.
    + apply scope_setField.
    + apply show_setField.
    + intros g H1 H2. by apply getField_setField_ne.
    + intros q Q. unfold doc1. by rewrite getField_setField_ne.
    + intros x _ _ N. unfold fed in C2. congruence.
Qed.

Lemma run_intervalGroup h x :
  intervalGroup x h =
  (h, match intervalOf x with Normal i => Normal i | Throw e => Throw e end).
Proof.
  unfold DynamicExternalDocument.intervalGroup, DynamicExternalDocument.intervalOf.
  destruct (Czml.interval x) as [s|]; [|done].
  unfold bind, DynamicExternalDocument.TimeInterval_fromIso8601.
  by destruct (fromIso8601 s).
Qed.

(** [processCzmlPacket] up to its strategies, on a DynamicObject of the
    heap whose document, if it has one, is in the heap. *)
Lemma run_processCzmlPacket h o e packet x :
  objects h !! o = Some e ->
  (forall d, external e = Some d -> is_Some (documents h !! d)) ->
  Czml.external packet = Some x ->
  exists h1 d,
    objects h1 = <[o := set_external (Some d) e]> (objects h) /\
    properties h1 = properties h /\
    documents h1 !! d = Some (default emptyDocument (documentOf h o)) /\
    (forall d', d' <> d -> documents h1 !! d' = documents h !! d') /\
    (forall d0, external e = Some d0 -> d = d0) /\
    match intervalOf x with
    | Throw err => processCzmlPacket o packet h = (h1, Throw err)
    | Normal i =>
        exists u,
          processCzmlPacket o packet h =
          strategies x d i u
            (set_documents
               (<[d := set_scope
                         (defaultValue
                            (scope (default emptyDocument (documentOf h o)))
                            (Czml.scope x))
                         (default emptyDocument (documentOf h o))]>
                  (documents h1)) h1)
    end.
Proof.
  intros E V X.
  destruct (run_externalGroup h o e E V) as (h1 & d & Run1 & O1 & P1 & D1 & F1 & C1).
  exists h1, d. split_and!; try done.
  { intros d0 X0. rewrite X0 in C1. by destruct C1. }
  assert (processCzmlPacket o packet h =
          (interval <- intervalGroup x ;;
           externalUpdated <- scopeGroup x d (bool_decide (external e = None)) ;;
           strategies x d interval externalUpdated) h1) as ->.
  { rewrite processCzmlPacket_groups, X. unfold bind at 1. by rewrite Run1. }
  destruct (intervalOf x) as [i|err] eqn:EI.
  - destruct (run_scopeGroup h1 d _ x (bool_decide (external e = None)) D1) as [u Run2].
    exists u. unfold bind. by rewrite run_intervalGroup, EI, Run2.
  - unfold bind. by rewrite run_intervalGroup, EI.
Qed.

Lemma fieldOf_lookup {A} h o (e : DynamicObject attributes) d doc
    (f : DynamicExternalDocument -> option A) :
  objects h !! o = Some e -> external e = Some d -> documents h !! d = Some doc ->
  fieldOf h o f = f doc.
Proof. intros E X D. unfold fieldOf, documentOf. rewrite E. cbn. rewrite X. cbn. by rewrite D. Qed.

Lemma fieldOf_default {A} h o (f : DynamicExternalDocument -> option A) :
  f emptyDocument = None ->
  f (default emptyDocument (documentOf h o)) = fieldOf h o f.
Proof. intros N. unfold fieldOf. by destruct (documentOf h o). Qed.

(** [processCzmlPacket] on a packet that selects a strategy and whose
    interval parses: what the call leaves in the heap. [before] is the
    document of the DynamicObject before the call (the new document, if it
    had none), [after] its document after the call. *)
Lemma run_with_strategy h o e packet x i f1 f2 t2 x1 x2 before :
  objects h !! o = Some e ->
  (forall d, external e = Some d -> is_Some (documents h !! d)) ->
  Czml.external packet = Some x ->
  intervalOf x = Normal i ->
  (forall d u, strategies x d i u = strategy d f1 f2 t2 x1 x2 i u) ->
  f1 <> f2 ->
  before = default emptyDocument (documentOf h o) ->
  (forall p, getField f1 before = Some p -> is_Some (properties h !! p)) ->
  exists h' c d after p s0,
    processCzmlPacket o packet h = (h', c) /\
    objects h' !! o = Some {| external := Some d; others := others e |} /\
    (forall o', o' <> o -> objects h' !! o' = objects h !! o') /\
    (forall d0, external e = Some d0 -> d = d0) /\
    documents h' !! d = Some after /\
    (forall d', d' <> d -> documents h' !! d' = documents h !! d') /\
    p = default (length (properties h)) (getField f1 before) /\
    s0 = default (newDynamicProperty CzmlString) (stateOf h (getField f1 before)) /\
    getField f1 after = Some p /\
    properties h' !! p = Some (processCzmlIntervals s0 x1 i).1 /\
    (forall q s, properties h !! q = Some s -> q <> p -> properties h' !! q = Some s) /\
    scope after = defaultValue (scope before) (Czml.scope x) /\
    show after = show before /\
    (forall g, g <> f1 -> g <> f2 -> getField g after = getField g before) /\
    (forall q, getField f2 before = Some q -> getField f2 after = Some q) /\
    (forall y, x2 = Some y -> getField f2 before = None ->
       (processCzmlIntervals s0 x1 i).2 = Normal tt ->
       exists q, getField f2 after = Some q /\ length (properties h) <= q /\ p < q /\
         properties h' !! q = Some (processCzmlIntervals (newDynamicProperty t2) y i).1 /\
         c = match (processCzmlIntervals (newDynamicProperty t2) y i).2 with
             | Normal _ => Normal true
             | Throw err => Throw err
             end) /\
    (forall b, c = Normal b -> getField f1 before = None -> b = true).
Proof.
  intros E V X I S Hne -> Vp.
  destruct (run_processCzmlPacket h o e packet x E V X)
    as (h1 & d & O1 & P1 & D1 & F1 & C1 & Run).
  rewrite I in Run. destruct Run as [u Run].
  set (before := default emptyDocument (documentOf h o)) in *.
  set (doc2 := set_scope (defaultValue (scope before) (Czml.scope x)) before) in *.
  set (h2 := set_documents (<[d := doc2]> (documents h1)) h1) in *.
  assert (documents h2 !! d = Some doc2) as D2 by (by apply (lookup_insert_same _ _ _ before)).
  assert (forall g, getField g doc2 = getField g before) as G2 by (by intros []).
  destruct (run_strategy h2 d doc2 f1 f2 t2 x1 x2 i u D2) as
    (h' & c & after & p & s0 & Run3 & Hp & Hs & O3 & D3 & G3 & P3 & Old3 & S3 & W3 &
     Oth3 & F3 & N3 & B3); [|done|].
  { intros p. rewrite G2. cbn. rewrite P1. apply Vp. }
  assert (stateOf h2 (getField f1 doc2) = stateOf h (getField f1 before)) as St
    by (rewrite G2; unfold stateOf; cbn; by rewrite P1).
  assert (length (properties h2) = length (properties h)) as Len
    by (cbn; by rewrite P1).
  rewrite St, G2, Len in *. change (properties h2) with (properties h1) in *.
  rewrite P1 in *.
  exists h', c, d, after, p, s0. rewrite Run, S, Run3.
  split_and!; try done.
  - rewrite O3. cbn. rewrite O1. by apply (lookup_insert_same _ _ _ e).
  - intros o' Ho. rewrite O3. cbn. rewrite O1. by apply list_lookup_insert_ne.
  - rewrite D3. by apply (lookup_insert_same _ _ _ doc2).
  - intros d' Hd. rewrite D3. cbn. rewrite !list_lookup_insert_ne by done. by apply F1.
Qed.

(** *** The claims on undefineProperties and mergeProperties *)

(** C7: [undefineProperties] sets [dynamicObject.external] to undefined,
    whatever it was, and returns; the other attributes of the object, the
    other objects, the documents and the properties stay as they were. *)
Theorem undefineProperties_clears h o e :
  objects h !! o = Some e ->
  exists h',
    undefineProperties o h = (h', Normal tt) /\
    objects h' !! o = Some {| external := None; others := others e |} /\
    documentOf h' o = None /\
    (forall o', o' <> o -> objects h' !! o' = objects h !! o') /\
    documents h' = documents h /\
    properties h' = properties h.
Proof.
  intros E. eexists. unfold undefineProperties.
  rewrite (setExternal_Some h o e) by done.
  split; [done|]. cbn. unfold documentOf. cbn.
  rewrite (lookup_insert_same _ _ _ e) by done.
  split; [done|]. split; [done|]. split; [|done].
  intros o' Hne. by rewrite list_lookup_insert_ne.
Qed.

(** What [mergeProperties] leaves in the heap, where the source object
    has a document. [before] is the document of the target before the
    call (the new document, if it had none), [after] its document after
    the call. *)
Lemma mergeProperties_effect
    h targetObject objectToMerge target source externalToMerge sourceDocument :
  objects h !! objectToMerge = Some source ->
  external source = Some externalToMerge ->
  documents h !! externalToMerge = Some sourceDocument ->
  objects h !! targetObject = Some target ->
  (forall d, external target = Some d -> is_Some (documents h !! d)) ->
  exists h' targetExternal before after,
    mergeProperties targetObject objectToMerge h = (h', Normal tt) /\
    before = default emptyDocument (documentOf h targetObject) /\
    objects h' !! targetObject =
      Some {| external := Some targetExternal; others := others target |} /\
    (forall d, external target = Some d -> targetExternal = d) /\
    (external target = None -> targetExternal = length (documents h)) /\
    documents h' !! targetExternal = Some after /\
    (forall p, polling before = Some p -> polling after = Some p) /\
    (polling before = None -> polling after = polling sourceDocument) /\
    scope after = scope before /\
    refreshInterval after = refreshInterval before /\
    eventsource after = eventsource before /\
    eventname after = eventname before /\
    show after = show before /\
    documents h' !! externalToMerge = Some sourceDocument /\
    (forall d, d <> targetExternal -> documents h' !! d = documents h !! d) /\
    properties h' = properties h /\
    (forall o, o <> targetObject -> objects h' !! o = objects h !! o).
Proof.
  intros Es Xs Ds Et Vt. unfold mergeProperties.
  unfold bind at 1. rewrite (getExternal_Some h _ source Es), Xs.
  destruct (run_external_group h targetObject target (fun d => d) (fun d => d) Et Vt)
    as (h1 & dt & Run & O1 & P1 & D1 & F1 & C1).
  cbv beta in Run.
  replace (match external target with Some _ => dt | None => dt end) with dt in Run
    by (by destruct (external target)).
  unfold bind at 1. rewrite Run.
  set (before := default emptyDocument (documentOf h targetObject)) in *.
  assert (documents h1 !! externalToMerge = Some sourceDocument) as Ds1.
  { destruct (decide (externalToMerge = dt)) as [->|Hne]; [|by rewrite F1].
    destruct (external target) as [d0|]; [destruct C1 as [_ ->]; done|].
    subst dt. apply lookup_lt_Some in Ds. lia. }
  unfold bind. rewrite (get_Some h1 dt before), (get_Some h1 _ sourceDocument) by done.
  rewrite (set_Some h1 dt before) by done.
  eexists _, dt, before, _. split; [done|]. split; [done|]. cbn.
  rewrite O1, (lookup_insert_same _ _ _ target) by done.
  split; [done|].
  split; [intros d X; rewrite X in C1; by destruct C1|].
  split; [intros X; by rewrite X in C1|].
  rewrite (lookup_insert_same _ _ _ before) by done.
  split; [done|]. cbn.
  split; [by intros p ->|]. split; [by intros ->|].
  do 5 (split; [done|]).
  split.
  { destruct (decide (dt = externalToMerge)) as [->|Hne].
    - rewrite (lookup_insert_same _ _ _ before) by done.
      assert (before = sourceDocument) as -> by congruence.
      f_equal. destruct sourceDocument as [[p|] ? ? ? ? ?]; reflexivity.
    - by rewrite list_lookup_insert_ne. }
  split; [intros d Hne; by rewrite list_lookup_insert_ne, F1|].
  split; [done|].
  intros o Hne. by rewrite list_lookup_insert_ne.
Qed.

Lemma document_eq (a b : DynamicExternalDocument) :
  polling a = polling b -> show a = show b -> scope a = scope b ->
  refreshInterval a = refreshInterval b -> eventsource a = eventsource b ->
  eventname a = eventname b -> a = b.
Proof. destruct a, b; cbn. by intros -> -> -> -> -> ->. Qed.

Lemma heap_eq h h' :
  objects h = objects h' -> documents h = documents h' -> properties h = properties h' ->
  h = h'.
Proof. destruct h, h'; cbn. by intros -> -> ->. Qed.

(** C1: where the source object has a document, [mergeProperties] leaves
    the target with a document (its own, or a new one) whose [polling] is
    the target's if it had one and the source's otherwise, and whose other
    fields are what they were (undefined in a new document); the source
    document, all other documents, the properties and the other objects
    are unchanged. The other fields of the source document do not matter:
    with any document of the same [polling] in its place, the merge does
    the same and leaves that document in place. *)
Theorem mergeProperties_merges_polling_only
    h targetObject objectToMerge target source externalToMerge sourceDocument :
  objects h !! objectToMerge = Some source ->
  external source = Some externalToMerge ->
  documents h !! externalToMerge = Some sourceDocument ->
  objects h !! targetObject = Some target ->
  (forall d, external target = Some d -> is_Some (documents h !! d)) ->
  exists h' targetExternal before after,
    mergeProperties targetObject objectToMerge h = (h', Normal tt) /\
    before = default emptyDocument (documentOf h targetObject) /\
    objects h' !! targetObject =
      Some {| external := Some targetExternal; others := others target |} /\
    (forall d, external target = Some d -> targetExternal = d) /\
    (external target = None -> targetExternal = length (documents h)) /\
    documents h' !! targetExternal = Some after /\
    (forall p, polling before = Some p -> polling after = Some p) /\
    (polling before = None -> polling after = polling sourceDocument) /\
    scope after = scope before /\
    refreshInterval after = refreshInterval before /\
    eventsource after = eventsource before /\
    eventname after = eventname before /\
    show after = show before /\
    documents h' !! externalToMerge = Some sourceDocument /\
    (forall d, d <> targetExternal -> documents h' !! d = documents h !! d) /\
    properties h' = properties h /\
    (forall o, o <> targetObject -> objects h' !! o = objects h !! o) /\
    forall other,
      polling other = polling sourceDocument ->
      mergeProperties targetObject objectToMerge
        (set_documents (<[externalToMerge := other]> (documents h)) h)
      = (set_documents (<[externalToMerge := other]> (documents h')) h', Normal tt).
Proof.
  intros Es Xs Ds Et Vt.
  destruct (mergeProperties_effect h targetObject objectToMerge target source
              externalToMerge sourceDocument Es Xs Ds Et Vt)
    as (h' & dt & before & after & Run & Hb & Ho & Hd1 & Hd2 & Ha & Hp1 & Hp2 & Hs & Hr &
        He & Hn & Hw & Hsrc & Hf & Hprops & Hobjs).
  exists h', dt, before, after. split_and!; try done.
  intros other Hother.
  set (hm := set_documents (<[externalToMerge := other]> (documents h)) h).
  assert (documents hm !! externalToMerge = Some other) as Dm
    by (by apply (lookup_insert_same _ _ _ sourceDocument)).
  destruct (mergeProperties_effect hm targetObject objectToMerge target source
              externalToMerge other Es Xs Dm Et)
    as (hm' & dt' & before' & after' & Run' & Hb' & Ho' & Hd1' & Hd2' & Ha' & Hp1' & Hp2' &
        Hs' & Hr' & He' & Hn' & Hw' & Hsrc' & Hf' & Hprops' & Hobjs').
  { intros d X. cbn. apply lookup_lt_is_Some. rewrite length_insert.
    apply lookup_lt_is_Some. by apply Vt. }
  rewrite Run'. f_equal.
  assert (dt' = dt) as ->.
  { destruct (external target) as [d|] eqn:X.
    - by rewrite (Hd1 d eq_refl), (Hd1' d eq_refl).
    - rewrite Hd2, Hd2' by done. cbn. by rewrite length_insert. }
  assert (externalToMerge <> dt -> before' = before) as Hbefore.
  { intros Hne. rewrite Hb, Hb'. unfold documentOf. cbn. rewrite Et. cbn.
    destruct (external target) as [d|] eqn:X; [|done]. cbn.
    rewrite list_lookup_insert_ne; [done|]. by rewrite <- (Hd1 d eq_refl). }
  assert (externalToMerge = dt -> before' = other /\ before = sourceDocument) as Hshared.
  { intros ->. rewrite Hb, Hb'. unfold documentOf. cbn. rewrite Et. cbn.
    destruct (external target) as [d|] eqn:X.
    - pose proof (Hd1 d eq_refl) as <-. cbn. unfold hm in Dm. cbn in Dm. by rewrite Dm, Ds.
    - rewrite Hd2 in Ds by done. apply lookup_lt_Some in Ds. lia. }
  apply heap_eq; cbn.
  - apply list_eq. intros o. destruct (decide (o = targetObject)) as [->|Hne].
    + by rewrite Ho, Ho'.
    + by rewrite Hobjs, Hobjs'.
  - apply list_eq. intros d. destruct (decide (d = dt)) as [->|Hne].
    + rewrite Ha'. destruct (decide (externalToMerge = dt)) as [E|E].
      * destruct (Hshared E) as [B1 B2]. subst externalToMerge.
        rewrite (lookup_insert_same _ _ _ after) by done. f_equal.
        apply document_eq; try congruence;
          (destruct (polling before') as [p|] eqn:Q;
           [rewrite (Hp1' p) by done | rewrite Hp2' by done]; congruence).
      * rewrite list_lookup_insert_ne, Ha by done. f_equal.
        rewrite (Hbefore E) in *.
        apply document_eq; try congruence;
          (destruct (polling before) as [p|] eqn:Q;
           [rewrite (Hp1 p), (Hp1' p) by done | rewrite Hp2, Hp2' by done]; congruence).
    + rewrite Hf' by done.
      change (documents hm) with (<[externalToMerge := other]> (documents h)).
      destruct (decide (d = externalToMerge)) as [->|Hne'].
      * by rewrite (lookup_insert_same _ _ _ sourceDocument),
          (lookup_insert_same _ _ _ sourceDocument).
      * rewrite !list_lookup_insert_ne by done. symmetry. by apply Hf.
  - by rewrite Hprops, Hprops'.
Qed.

(** *** The claims on processCzmlPacket *)

(** C6: on a packet without [external], [processCzmlPacket] returns
    false and the heap is what it was: no exception, no document, and the
    DynamicObject is not even read. *)
Theorem processCzmlPacket_without_external h o packet :
  Czml.external packet = None ->
  processCzmlPacket o packet h = (h, Normal false) /\
  documentOf (processCzmlPacket o packet h).1 o = documentOf h o.
Proof.
  intros X. rewrite processCzmlPacket_groups, X. split; reflexivity.
Qed.

(** C2: a call of [processCzmlPacket] on a DynamicObject whose scope is
    not set, with a packet that carries the scope [a] and whose interval
    parses, sets the scope of the object's document to [a]; after that,
    whatever packets are processed, on this object or on others, the
    scope of its document is [a]. *)
Theorem scope_is_write_once h o e packet x i a :
  objects h !! o = Some e ->
  (forall d, external e = Some d -> is_Some (documents h !! d)) ->
  fieldOf h o scope = None ->
  Czml.external packet = Some x ->
  Czml.scope x = Some a ->
  intervalOf x = Normal i ->
  fieldOf (processCzmlPacket o packet h).1 o scope = Some a /\
  forall later,
    fieldOf (afterPackets later (processCzmlPacket o packet h).1) o scope = Some a.
Proof.
  intros E V N X A I.
  assert (fieldOf (processCzmlPacket o packet h).1 o scope = Some a) as Set1.
  { destruct (run_processCzmlPacket h o e packet x E V X)
      as (h1 & d & O1 & P1 & D1 & F1 & C1 & Run).
    rewrite I in Run. destruct Run as [u ->].
    eapply writeOnce_fieldOf_scope; [apply preserves_writeOnce_strategies|].
    erewrite fieldOf_lookup; cycle 1.
    - cbn. rewrite O1. by apply (lookup_insert_same _ _ _ e).
    - reflexivity.
    - cbn. by eapply lookup_insert_same.
    - cbn [scope set_scope]. rewrite fieldOf_default, N, A by done. reflexivity. }
  split; [exact Set1|].
  intros later. eapply writeOnce_fieldOf_scope; [apply writeOnce_afterPackets|exact Set1].
Qed.

Lemma strategies_polling x pollingData i :
  Czml.polling x = Some pollingData ->
  forall d u,
    strategies x d i u =
    strategy d Polling RefreshInterval CzmlNumber pollingData (Czml.refreshInterval x) i u.
Proof. intros P d u. unfold DynamicExternalDocument.strategies. by rewrite P. Qed.

Lemma strategies_eventsource x eventsourceData i :
  Czml.polling x = None -> Czml.eventsource x = Some eventsourceData ->
  forall d u,
    strategies x d i u =
    strategy d Eventsource Eventname CzmlString eventsourceData (Czml.eventname x) i u.
Proof. intros P S d u. unfold DynamicExternalDocument.strategies. by rewrite P, S. Qed.

Lemma fieldOf_after {A} h' o (b : attributes) d after
    (f : DynamicExternalDocument -> option A) :
  objects h' !! o = Some {| external := Some d; others := b |} ->
  documents h' !! d = Some after ->
  fieldOf h' o f = f after.
Proof. intros O D. by eapply fieldOf_lookup. Qed.

(** C3: on a packet that declares polling, [processCzmlPacket] does what
    it does on the same packet without [eventsource] and [eventname]: it
    leaves the [eventsource] and [eventname] fields of the document as
    they were, and, where the interval parses, the [polling] field refers
    to the property it referred to, or to a new one, fed with the packet's
    polling data. *)
Theorem polling_precedes_eventsource h o e packet x pollingData :
  Czml.external packet = Some x ->
  Czml.polling x = Some pollingData ->
  objects h !! o = Some e ->
  (forall d, external e = Some d -> is_Some (documents h !! d)) ->
  (forall p, fieldOf h o polling = Some p -> is_Some (properties h !! p)) ->
  (forall packet' x',
     Czml.external packet' = Some x' ->
     Czml.interval x' = Czml.interval x ->
     Czml.scope x' = Czml.scope x ->
     Czml.polling x' = Czml.polling x ->
     Czml.refreshInterval x' = Czml.refreshInterval x ->
     processCzmlPacket o packet' h = processCzmlPacket o packet h) /\
  fieldOf (processCzmlPacket o packet h).1 o eventsource = fieldOf h o eventsource /\
  fieldOf (processCzmlPacket o packet h).1 o eventname = fieldOf h o eventname /\
  forall i, intervalOf x = Normal i ->
    exists p,
      fieldOf (processCzmlPacket o packet h).1 o polling = Some p /\
      p = default (length (properties h)) (fieldOf h o polling) /\
      stateOf (processCzmlPacket o packet h).1 (Some p) =
        Some (processCzmlIntervals
                (default (newDynamicProperty CzmlString) (stateOf h (fieldOf h o polling)))
                pollingData i).1.
Proof.
  intros X P E V Vp.
  pose proof (fieldOf_default h o polling eq_refl) as Bp.
  pose proof (fieldOf_default h o eventsource eq_refl) as Bs.
  pose proof (fieldOf_default h o eventname eq_refl) as Bn.
  split.
  { intros packet' x' X' I' S' P' R'.
    rewrite !processCzmlPacket_groups, X, X'.
    unfold DynamicExternalDocument.intervalGroup, DynamicExternalDocument.scopeGroup, DynamicExternalDocument.strategies. by rewrite I', S', P', P, R'. }
  destruct (intervalOf x) as [i|err] eqn:I.
  - destruct (run_with_strategy h o e packet x i Polling RefreshInterval CzmlNumber
                pollingData (Czml.refreshInterval x) _ E V X I
                (strategies_polling x pollingData i P) ltac:(done) eq_refl)
      as (h' & c & d & after & p & s0 & Run & O' & _ & _ & D' & _ & Hp & Hs & G1 & P1 &
          _ & _ & _ & Oth & _).
    { cbn. by rewrite Bp. }
    rewrite Run. cbn [fst].
    rewrite !(fieldOf_after h' o _ d after) by done.
    split; [exact (eq_trans (Oth Eventsource ltac:(done) ltac:(done)) Bs)|].
    split; [exact (eq_trans (Oth Eventname ltac:(done) ltac:(done)) Bn)|].
    intros i' [= <-]. exists p. cbn in G1, Hp, Hs. rewrite Bp in Hp, Hs.
    split; [done|]. split; [done|]. cbn. by rewrite P1, Hs.
  - destruct (run_processCzmlPacket h o e packet x E V X)
      as (h1 & d & O1 & P1 & D1 & F1 & C1 & Run).
    rewrite I in Run. rewrite Run. cbn [fst].
    assert (objects h1 !! o = Some {| external := Some d; others := others e |}) as O'
      by (rewrite O1; by apply (lookup_insert_same _ _ _ e)).
    rewrite !(fieldOf_after h1 o _ d _ _ O' D1).
    split; [done|]. split; [done|]. intros i [=].
Qed.

(** C4: where the document of a DynamicObject has a polling property, a
    packet that declares eventsource and no polling, and whose interval
    parses, leaves [polling] as it was and makes [eventsource] refer to
    the property it referred to, or to a new one, fed with the packet's
    eventsource data: the two coexist. The polling property itself is not
    touched, and the call reports a change when it returns after creating
    the eventsource property. *)
Theorem eventsource_after_polling h o e d doc p s packet x eventsourceData i :
  objects h !! o = Some e ->
  external e = Some d ->
  documents h !! d = Some doc ->
  polling doc = Some p ->
  properties h !! p = Some s ->
  (forall q, eventsource doc = Some q -> is_Some (properties h !! q)) ->
  Czml.external packet = Some x ->
  Czml.polling x = None ->
  Czml.eventsource x = Some eventsourceData ->
  intervalOf x = Normal i ->
  exists q,
    fieldOf (processCzmlPacket o packet h).1 o polling = Some p /\
    fieldOf (processCzmlPacket o packet h).1 o eventsource = Some q /\
    q = default (length (properties h)) (eventsource doc) /\
    stateOf (processCzmlPacket o packet h).1 (Some q) =
      Some (processCzmlIntervals
              (default (newDynamicProperty CzmlString) (stateOf h (eventsource doc)))
              eventsourceData i).1 /\
    (eventsource doc <> Some p ->
     stateOf (processCzmlPacket o packet h).1 (Some p) = Some s) /\
    (forall b, (processCzmlPacket o packet h).2 = Normal b ->
               eventsource doc = None -> b = true).
Proof.
  intros E X D Pp Ps Vs Xp NoP Es I.
  assert (documentOf h o = Some doc) as Doc
    by (unfold documentOf; rewrite E; cbn; rewrite X; cbn; done).
  destruct (run_with_strategy h o e packet x i Eventsource Eventname CzmlString
              eventsourceData (Czml.eventname x) _ E
              ltac:(intros d0 X0; assert (d0 = d) as -> by congruence; eauto) Xp I
              (strategies_eventsource x eventsourceData i NoP Es) ltac:(done) eq_refl)
    as (h' & c & d' & after & q & s0 & Run & O' & _ & _ & D' & _ & Hq & Hs & G1 & P1 &
        Old & _ & _ & Oth & _ & _ & B).
  { rewrite Doc. exact Vs. }
  rewrite Doc in *. cbn in Hq, Hs, G1, B.
  rewrite Run. cbn [fst snd]. exists q.
  rewrite !(fieldOf_after h' o _ d' after) by done.
  split; [exact (eq_trans (Oth Polling ltac:(done) ltac:(done)) Pp)|].
  split; [done|]. split; [done|].
  split; [cbn; by rewrite P1, Hs|].
  split; [|done].
  intros Hne. cbn. apply Old; [done|]. subst q.
  destruct (eventsource doc) as [q0|]; cbn; [congruence|].
  apply lookup_lt_Some in Ps. lia.
Qed.

(** [processCzmlPacket] on a packet whose interval does not parse, or
    that selects no strategy: the document is found or created, at most
    its scope is set, and no property is touched. *)
Lemma run_without_strategy h o e packet x :
  objects h !! o = Some e ->
  (forall d, external e = Some d -> is_Some (documents h !! d)) ->
  Czml.external packet = Some x ->
  (forall i, intervalOf x = Normal i ->
             Czml.polling x = None /\ Czml.eventsource x = None) ->
  exists h' c d after,
    processCzmlPacket o packet h = (h', c) /\
    objects h' !! o = Some {| external := Some d; others := others e |} /\
    documents h' !! d = Some after /\
    properties h' = properties h /\
    forall g, getField g after = getField g (default emptyDocument (documentOf h o)).
Proof.
  intros E V X N.
  destruct (run_processCzmlPacket h o e packet x E V X)
    as (h1 & d & O1 & P1 & D1 & F1 & C1 & Run).
  assert (objects h1 !! o = Some {| external := Some d; others := others e |}) as O'
    by (rewrite O1; by apply (lookup_insert_same _ _ _ e)).
  destruct (intervalOf x) as [i|err].
  - destruct (N i eq_refl) as [NoP NoE]. destruct Run as [u Run].
    unfold DynamicExternalDocument.strategies in Run. rewrite NoP, NoE in Run.
    eexists _, _, d, _. split; [exact Run|]. cbn.
    split; [done|]. split; [by eapply lookup_insert_same|]. split; [done|]. by intros [].
  - by exists h1, (Throw err), d, (default emptyDocument (documentOf h o)).
Qed.

(** *** The refreshInterval property, once created *)

Lemma settled_intro h' o r s (b : attributes) d after :
  objects h' !! o = Some {| external := Some d; others := b |} ->
  documents h' !! d = Some after ->
  refreshInterval after = Some r ->
  properties h' !! r = Some s ->
  (forall f q, f = Polling \/ f = Eventsource -> getField f after = Some q ->
               q <> r /\ is_Some (properties h' !! q)) ->
  settled h' o r s.
Proof.
  intros O D R P F. eexists. split; [exact O|].
  split; [cbn; intros d0 [= <-]; eauto|].
  split; [by rewrite (fieldOf_after h' o b d after)|]. split; [done|].
  intros f q Hf. rewrite (fieldOf_after h' o b d after) by done. by apply F.
Qed.

Lemma settled_step h o r s packet :
  settled h o r s -> settled (processCzmlPacket o packet h).1 o r s.
Proof.
  intros (e & E & V & R & P & F).
  assert (settled h o r s) as Hyp by (by exists e).
  set (before := default emptyDocument (documentOf h o)).
  assert (forall {A} (f : DynamicExternalDocument -> option A) v,
            fieldOf h o f = Some v -> f before = Some v) as Before.
  { intros A f v. unfold fieldOf, before. by destruct (documentOf h o). }
  assert (forall f q, f = Polling \/ f = Eventsource -> getField f before = Some q ->
            q <> r /\ is_Some (properties h !! q)) as F'.
  { intros f q Hf Q. apply (F f q Hf). unfold fieldOf, before in *.
    destruct (documentOf h o); [done|]. by destruct Hf as [-> | ->]. }
  destruct (Czml.external packet) as [x|] eqn:X; [|by rewrite processCzmlPacket_groups, X].
  assert (forall f1 f2 t2 x1 x2 i,
            intervalOf x = Normal i ->
            (forall d u, strategies x d i u = strategy d f1 f2 t2 x1 x2 i u) ->
            f1 = Polling /\ f2 = RefreshInterval \/ f1 = Eventsource /\ f2 = Eventname ->
            settled (processCzmlPacket o packet h).1 o r s) as Strategy.
  { intros f1 f2 t2 x1 x2 i I S Hf12.
    assert (f1 <> f2) as Hne by (by destruct Hf12 as [[-> ->] | [-> ->]]).
    assert (f1 = Polling \/ f1 = Eventsource) as H1 by (destruct Hf12 as [[? ?] | [? ?]]; auto).
    destruct (run_with_strategy h o e packet x i f1 f2 t2 x1 x2 before E V X I S Hne eq_refl)
      as (h' & c & d & after & p & s0 & Run & O' & _ & _ & D' & _ & Hp & Hs & G1 & P1 &
          Old & _ & _ & Oth & Keep & _).
    { intros p Q. by apply (F' f1 p H1). }
    assert (p <> r) as Hpr.
    { subst p. destruct (getField f1 before) as [p0|] eqn:Q; cbn.
      - by apply (F' f1 p0 H1).
      - apply lookup_lt_Some in P. lia. }
    rewrite Run. cbn [fst]. apply (settled_intro h' o r s (others e) d after); try done.
    - destruct Hf12 as [[-> ->] | [-> ->]]; [by apply Keep, (Before _ refreshInterval)|].
      rewrite <- (Before _ refreshInterval r R). by apply (Oth RefreshInterval).
    - by apply Old.
    - intros f q Hf Q. destruct (decide (f = f1)) as [->|Hf1].
      + assert (q = p) as -> by congruence. split; [done|]. by eexists.
      + assert (getField f before = Some q) as Q'.
        { rewrite <- Q. symmetry. apply Oth; [done|].
          destruct Hf12 as [[-> ->] | [-> ->]], Hf as [-> | ->]; done. }
        destruct (F' f q Hf Q') as [Hq [sq Sq]]. split; [done|].
        destruct (decide (q = p)) as [->|Hqp]; [by eexists|].
        exists sq. by apply Old. }
  assert ((forall i, intervalOf x = Normal i ->
                     Czml.polling x = None /\ Czml.eventsource x = None) ->
          settled (processCzmlPacket o packet h).1 o r s) as NoStrategy.
  { intros N.
    destruct (run_without_strategy h o e packet x E V X N)
      as (h' & c & d & after & Run & O' & D' & P' & G').
    rewrite Run. cbn [fst]. apply (settled_intro h' o r s (others e) d after); try done.
    - exact (eq_trans (G' RefreshInterval) (Before _ refreshInterval r R)).
    - by rewrite P'.
    - intros f q Hf. rewrite G', P'. by apply F'. }
  destruct (intervalOf x) as [i|err] eqn:I; [|by apply NoStrategy].
  destruct (Czml.polling x) as [pd|] eqn:Pd.
  { apply (Strategy Polling RefreshInterval CzmlNumber pd (Czml.refreshInterval x) i);
      auto using strategies_polling. }
  destruct (Czml.eventsource x) as [ed|] eqn:Ed.
  { apply (Strategy Eventsource Eventname CzmlString ed (Czml.eventname x) i);
      auto using strategies_eventsource. }
  by apply NoStrategy.
Qed.

Lemma settled_steps h o r s packets :
  settled h o r s -> settled (afterPackets ((fun packet => (o, packet)) <$> packets) h) o r s.
Proof.
  revert h. induction packets as [|packet packets IH]; intros h H; [done|].
  cbn. by apply IH, settled_step.
Qed.

(** C5: on a DynamicObject whose document has no refreshInterval, a
    packet that declares polling and refreshInterval, whose interval
    parses and whose polling data is processed without an exception,
    creates the refreshInterval property, a new property of value type
    CzmlNumber fed with the packet's data. Whatever packets are processed
    on the object after that, the field refers to that property and the
    property has the state it was created with. *)
Theorem refreshInterval_is_write_once
    h o e packet x pollingData refreshIntervalData i :
  objects h !! o = Some e ->
  (forall d, external e = Some d -> is_Some (documents h !! d)) ->
  (forall f q, f = Polling \/ f = Eventsource ->
               fieldOf h o (getField f) = Some q -> is_Some (properties h !! q)) ->
  Czml.external packet = Some x ->
  Czml.polling x = Some pollingData ->
  Czml.refreshInterval x = Some refreshIntervalData ->
  intervalOf x = Normal i ->
  fieldOf h o refreshInterval = None ->
  (processCzmlIntervals
     (default (newDynamicProperty CzmlString) (stateOf h (fieldOf h o polling)))
     pollingData i).2 = Normal tt ->
  exists r,
    length (properties h) <= r /\
    fieldOf (processCzmlPacket o packet h).1 o refreshInterval = Some r /\
    stateOf (processCzmlPacket o packet h).1 (Some r) =
      Some (processCzmlIntervals (newDynamicProperty CzmlNumber) refreshIntervalData i).1 /\
    (processCzmlPacket o packet h).2 =
      match (processCzmlIntervals (newDynamicProperty CzmlNumber) refreshIntervalData i).2 with
      | Normal _ => Normal true
      | Throw err => Throw err
      end /\
    forall later,
      fieldOf (afterPackets ((fun packet => (o, packet)) <$> later)
                 (processCzmlPacket o packet h).1) o refreshInterval = Some r /\
      stateOf (afterPackets ((fun packet => (o, packet)) <$> later)
                 (processCzmlPacket o packet h).1) (Some r) =
        Some (processCzmlIntervals (newDynamicProperty CzmlNumber) refreshIntervalData i).1.
Proof.
  intros E V Vf X P R I N Fed.
  pose proof (fieldOf_default h o polling eq_refl) as Bp.
  pose proof (fieldOf_default h o refreshInterval eq_refl) as Br.
  pose proof (fieldOf_default h o eventsource eq_refl) as Bs.
  destruct (run_with_strategy h o e packet x i Polling RefreshInterval CzmlNumber
              pollingData (Czml.refreshInterval x) _ E V X I
              (strategies_polling x pollingData i P) ltac:(done) eq_refl)
    as (h' & c & d & after & p & s0 & Run & O' & _ & _ & D' & _ & Hp & Hs & G1 & P1 &
        Old & _ & _ & Oth & _ & New & _).
  { cbn. rewrite Bp. intros q Q. apply (Vf Polling q); [by left|done]. }
  cbn in Hp, Hs, G1, New. rewrite Bp in Hp, Hs. rewrite Br, N in New. subst s0.
  destruct (New refreshIntervalData R eq_refl Fed) as (r & Rr & Len & Hpr & Pr & Hc).
  rewrite Run. cbn [fst snd]. exists r.
  assert (fieldOf h' o refreshInterval = Some r) as Fr
    by (by rewrite (fieldOf_after h' o (others e) d after)).
  assert (settled h' o r
            (processCzmlIntervals (newDynamicProperty CzmlNumber) refreshIntervalData i).1)
    as Settled.
  { apply (settled_intro h' o r _ (others e) d after); try done.
    intros f q [-> | ->] Q.
    - assert (q = p) as -> by (cbn in Q; congruence). split; [lia|by eexists].
    - rewrite (Oth Eventsource) in Q by done. cbn in Q. rewrite Bs in Q.
      destruct (Vf Eventsource q (or_intror eq_refl) Q) as [sq Sq].
      assert (q <> r) by (apply lookup_lt_Some in Sq; lia). split; [done|].
      destruct (decide (q = p)) as [->|Hqp]; [by eexists|].
      exists sq. by apply Old. }
  split; [done|]. split; [done|]. split; [done|]. split; [done|].
  intros later.
  destruct (settled_steps h' o r _ later Settled) as (e' & _ & _ & F' & P' & _).
  by split.
Qed.

(** *** What a call of [processCzmlPacket] leaves, in all cases *)

Local Abbreviation wellFormed :=
  (wellFormed (DynamicProperty := DynamicProperty) (attributes := attributes)).
Local Abbreviation afterCall :=
  (afterCall fromIso8601 newDynamicProperty processCzmlIntervals (attributes := attributes)).
Local Abbreviation afterCalls :=
  (afterCalls fromIso8601 newDynamicProperty processCzmlIntervals (attributes := attributes)).

Lemma run_scopeGroup_flag h d doc x u :
  documents h !! d = Some doc ->
  scopeGroup x d u h =
  (set_documents
     (<[d := set_scope (defaultValue (scope doc) (Czml.scope x)) doc]> (documents h)) h,
   Normal (match Czml.scope x, scope doc with Some _, None => true | _, _ => u end)).
Proof.
  intros D. unfold DynamicExternalDocument.scopeGroup, bind.
  assert (forall u0, (h, Normal u0 : completion bool) =
            (set_documents (<[d := set_scope (scope doc) doc]> (documents h)) h, Normal u0))
    as Same by (intros; by rewrite set_scope_same, list_insert_id, set_documents_same).
  destruct (Czml.scope x) as [s|].
  - rewrite (get_Some h d doc) by done. destruct (scope doc) as [s0|] eqn:S.
    + exact (Same u).
    + by rewrite (set_Some h d doc) by done.
  - destruct (scope doc) as [s0|] eqn:S; exact (Same u).
Qed.

Lemma lookup_kept_length {A} (l l' : list A) :
  (forall q s, l !! q = Some s -> is_Some (l' !! q)) -> length l <= length l'.
Proof.
  intros H. destruct (decide (length l = 0)) as [->|Hne]; [lia|].
  destruct (lookup_lt_is_Some_2 l (length l - 1)) as [s Hs]; [lia|].
  apply H, lookup_lt_is_Some in Hs. lia.
Qed.

(** A strategy (lines 49-65 or 66-81), run where the document is [doc]
    and its main property, if it has one, is in the heap. *)
Lemma strategy_effect h d doc f1 f2 t2 x1 x2 i u :
  documents h !! d = Some doc ->
  (forall p, getField f1 doc = Some p -> is_Some (properties h !! p)) ->
  f1 <> f2 ->
  exists h' c doc',
    strategy d f1 f2 t2 x1 x2 i u h = (h', c) /\
    objects h' = objects h /\
    documents h' = <[d := doc']> (documents h) /\
    scope doc' = scope doc /\ show doc' = show doc /\
    (forall g q, getField g doc = Some q -> getField g doc' = Some q) /\
    (forall g q, getField g doc' = Some q ->
       getField g doc = Some q \/
       getField g doc = None /\ (g = f1 \/ g = f2 /\ is_Some x2) /\
       length (properties h) <= q < length (properties h')) /\
    length (properties h) <= length (properties h') /\
    (forall q s, properties h !! q = Some s -> getField f1 doc <> Some q ->
       properties h' !! q = Some s) /\
    is_Some (getField f1 doc') /\
    (forall b, c = Normal b -> b = u || bool_decide (doc' <> doc)) /\
    (forall b, c = Normal b -> is_Some x2 -> is_Some (getField f2 doc')) /\
    (forall err, c = Throw err -> exists s y, (processCzmlIntervals s y i).2 = Throw err).
Proof.
  intros D V Hne.
  destruct (run_property_group h d doc f1 u D) as (h1 & p & Run1 & O1 & D1 & Hp & P1).
  set (s0 := default (newDynamicProperty CzmlString) (stateOf h (getField f1 doc))).
  set (doc1 := setField f1 (Some p) doc) in *.
  set (u1 := match getField f1 doc with Some _ => u | None => true end) in *.
  assert (documents h1 !! d = Some doc1) as D1'
    by (rewrite D1; by apply (lookup_insert_same _ _ _ doc)).
  assert (properties h1 !! p = Some s0) as Ps0.
  { rewrite P1, Hp. subst s0. destruct (getField f1 doc) as [p0|] eqn:F1; cbn.
    - by destruct (V p0 eq_refl) as [s ->].
    - apply lookup_snoc_new. }
  assert (forall q s, properties h !! q = Some s -> properties h1 !! q = Some s) as Old1.
  { intros q s Q. rewrite P1. destruct (getField f1 doc); [done|by apply lookup_snoc_old]. }
  assert (length (properties h) <= length (properties h1)) as Len1.
  { rewrite P1. destruct (getField f1 doc); [done|]. rewrite length_app. lia. }
  assert (getField f1 doc = None -> length (properties h) <= p) as Fresh1.
  { intros N. rewrite Hp, N. done. }
  assert (getField f1 doc = None -> doc1 <> doc) as Changed1.
  { intros N E. assert (getField f1 doc1 = Some p) as G by apply getField_setField.
    rewrite E in G. congruence. }
  assert (is_Some (getField f1 doc) -> doc1 = doc) as Same1.
  { intros [p0 F1]. unfold doc1. rewrite Hp, F1. by apply setField_same. }
  assert (u1 = u || bool_decide (doc1 <> doc)) as Hu1.
  { unfold u1. destruct (getField f1 doc) as [p0|] eqn:F1.
    - rewrite Same1 by eauto. rewrite (bool_decide_eq_false_2 (doc <> doc)) by tauto.
      by rewrite orb_false_r.
    - rewrite bool_decide_eq_true_2 by auto. by rewrite orb_true_r. }
  unfold DynamicExternalDocument.strategy. unfold bind at 1. rewrite Run1. cbn [fst snd].
  fold u1. unfold bind at 1. rewrite (processCzmlIntervals_Some h1 p s0) by done.
  set (fed := processCzmlIntervals s0 x1 i).
  set (h2 := set_properties (<[p := fed.1]> (properties h1)) h1).
  assert (properties h2 !! p = Some fed.1) as P2
    by (by apply (lookup_insert_same _ _ _ s0)).
  assert (length (properties h2) = length (properties h1)) as Len2
    by (cbn; by rewrite length_insert).
  assert (p < length (properties h2)) as Hp2 by (by apply lookup_lt_Some in P2).
  assert (forall q s, properties h !! q = Some s -> getField f1 doc <> Some q ->
            properties h2 !! q = Some s) as Old2.
  { intros q s Q Hq. cbn. rewrite list_lookup_insert_ne; [auto|].
    intros <-. rewrite Hp in Hq. destruct (getField f1 doc) as [p0|]; cbn in *; [done|].
    apply lookup_lt_Some in Q. lia. }
  assert (forall g q, getField g doc = Some q -> getField g doc1 = Some q) as Keep1.
  { intros g q G. unfold doc1. destruct (decide (f1 = g)) as [<-|Hg].
    - rewrite getField_setField, Hp, G. done.
    - by rewrite getField_setField_ne. }
  assert (forall g q, getField g doc1 = Some q ->
            getField g doc = Some q \/
            getField g doc = None /\ g = f1 /\ length (properties h) <= q < length (properties h2))
    as New1.
  { intros g q. unfold doc1. destruct (decide (f1 = g)) as [<-|Hg].
    - rewrite getField_setField. intros [= <-].
      destruct (getField f1 doc) as [p0|] eqn:F1; [left; by rewrite Hp|].
      right. split_and!; auto.
    - rewrite getField_setField_ne by done. auto. }
  destruct fed.2 as [[]|e] eqn:C2.
  - destruct (run_once h2 d doc1 f2 t2 x2 i u1 D1')
      as (h' & c & doc' & Run3 & O3 & D3 & S3 & W3 & G3 & F3 & P3 & N3 & Same3).
    rewrite Run3.
    assert (length (properties h2) <= length (properties h')) as Len3
      by (apply lookup_kept_length; eauto).
    assert (getField f2 doc1 = getField f2 doc) as F2same
      by (unfold doc1; by rewrite getField_setField_ne).
    assert ((exists y, x2 = Some y) /\ getField f2 doc = None \/
            (x2 = None \/ is_Some (getField f2 doc))) as [[[y ->] F2]|NoNew].
    { destruct x2 as [y|]; [|auto]. destruct (getField f2 doc) as [q|]; eauto. }
    + destruct (N3 y eq_refl) as (Q1 & Q2 & Q3); [congruence|].
      assert (length (properties h2) < length (properties h')) as Len3'
        by (by apply lookup_lt_Some in Q2).
      assert (doc' <> doc) as Changed.
      { intros E. rewrite E in Q1. congruence. }
      exists h', c, doc'. split_and!; try done.
      * rewrite O3. exact O1.
      * rewrite D3. cbn. rewrite D1. apply list_insert_insert_eq.
      * rewrite S3. apply scope_setField.
      * rewrite W3. apply show_setField.
      * intros g q G. destruct (decide (g = f2)) as [->|Hg]; [congruence|].
        rewrite G3 by done. by apply Keep1.
      * intros g q G. destruct (decide (g = f2)) as [->|Hg].
        -- right. split; [done|]. split; [right; eauto|].
           assert (q = length (properties h2)) as -> by congruence. lia.
        -- rewrite G3 in G by done.
           destruct (New1 g q G) as [?|(? & ? & ?)]; [by left|right]. split_and!; auto; lia.
      * lia.
      * intros q s Q Hq. apply P3. by apply Old2.
      * rewrite G3 by done. unfold doc1. rewrite getField_setField. eauto.
      * intros b ->. destruct (processCzmlIntervals _ y i).2; [|done].
        injection Q3 as ->. rewrite bool_decide_eq_true_2 by done. by rewrite orb_true_r.
      * intros err ->. destruct (processCzmlIntervals _ y i).2 as [[]|err'] eqn:E; [done|].
        injection Q3 as <-. eauto.
    + destruct (Same3 ltac:(rewrite F2same; exact NoNew)) as [-> ->].
      assert (doc' = doc1) as ->.
      { assert (documents h2 !! d = Some doc') as E
          by (rewrite D3; by apply (lookup_insert_same _ _ _ doc1)).
        change (documents h2) with (documents h1) in E. congruence. }
      exists h2, (Normal u1), doc1. split_and!; try done.
      * apply scope_setField.
      * apply show_setField.
      * intros g q G. destruct (New1 g q G) as [?|(? & ? & ?)]; [by left|right].
        split_and!; auto; lia.
      * lia.
      * unfold doc1. rewrite getField_setField. eauto.
      * by intros b [= <-].
      * intros b _ [y ->]. destruct NoNew as [?|NoNew]; [done|]. by rewrite F2same.
  - exists h2, (Throw e), doc1. split_and!; try done.
    + apply scope_setField.
    + apply show_setField.
    + intros g q G. destruct (New1 g q G) as [?|(? & ? & ?)]; [by left|right].
      split_and!; auto; lia.
    + lia.
    + unfold doc1. rewrite getField_setField. eauto.
    + intros err [= <-]. exists s0, x1. by rewrite <- C2.
Qed.

Lemma declares_polling (x : Czml.externalData data) pollingData g :
  Czml.polling x = Some pollingData ->
  declares x g <-> g = Polling \/ g = RefreshInterval /\ is_Some (Czml.refreshInterval x).
Proof.
  intros P. destruct g; cbn; rewrite P; split.
  - auto.
  - eauto.
  - intros [_ ?]. auto.
  - intros [?|[_ ?]]; [done|eauto].
  - intros [? _]. done.
  - intros [?|[? _]]; done.
  - intros [? _]. done.
  - intros [?|[? _]]; done.
Qed.

Lemma declares_eventsource (x : Czml.externalData data) eventsourceData g :
  Czml.polling x = None -> Czml.eventsource x = Some eventsourceData ->
  declares x g <-> g = Eventsource \/ g = Eventname /\ is_Some (Czml.eventname x).
Proof.
  intros P S. destruct g; cbn; rewrite P, ?S; split.
  - intros [? ?]. done.
  - intros [?|[? _]]; done.
  - intros [[? ?] _]. done.
  - intros [?|[? _]]; done.
  - auto.
  - eauto.
  - intros (_ & _ & ?). auto.
  - intros [?|[_ ?]]; [done|eauto].
Qed.

Lemma declares_nothing (x : Czml.externalData data) g :
  Czml.polling x = None -> Czml.eventsource x = None -> ~ declares x g.
Proof.
  intros P S. destruct g; cbn; rewrite P, ?S.
  - intros [? ?]. done.
  - intros [[? ?] _]. done.
  - intros [_ [? ?]]. done.
  - intros (_ & [? ?] & _). done.
Qed.

(** [processCzmlPacket] on a packet with [external], on a DynamicObject of
    the heap whose document and main properties, if it has them, are in
    the heap: what the call leaves, whether it returns or throws. [before]
    is the document of the DynamicObject before the call (the new
    document, if it had none), [after] its document after the call. *)
Lemma processCzmlPacket_effect h o e packet x :
  objects h !! o = Some e ->
  (forall d, external e = Some d -> is_Some (documents h !! d)) ->
  (forall f p, f = Polling \/ f = Eventsource ->
     fieldOf h o (getField f) = Some p -> is_Some (properties h !! p)) ->
  Czml.external packet = Some x ->
  exists h' c d before after,
    processCzmlPacket o packet h = (h', c) /\
    before = default emptyDocument (documentOf h o) /\
    d = default (length (documents h)) (external e) /\
    objects h' = <[o := set_external (Some d) e]> (objects h) /\
    documents h' !! d = Some after /\
    (forall d', d' <> d -> documents h' !! d' = documents h !! d') /\
    show after = show before /\
    scope after = match intervalOf x with
                  | Normal _ => defaultValue (scope before) (Czml.scope x)
                  | Throw _ => scope before
                  end /\
    (forall g q, getField g before = Some q -> getField g after = Some q) /\
    (forall g q, getField g after = Some q ->
       getField g before = Some q \/
       getField g before = None /\ declares x g /\
       length (properties h) <= q < length (properties h')) /\
    length (properties h) <= length (properties h') /\
    (forall q s, properties h !! q = Some s ->
       fieldOf h o polling <> Some q -> fieldOf h o eventsource <> Some q ->
       properties h' !! q = Some s) /\
    (forall b, c = Normal b ->
       b = bool_decide (external e = None) || bool_decide (after <> before)) /\
    (forall b g, c = Normal b -> declares x g -> is_Some (getField g after)) /\
    (forall err, c = Throw err ->
       (exists s, Czml.interval x = Some s /\ fromIso8601 s = Throw err) \/
       exists s y i, (processCzmlIntervals s y i).2 = Throw err) /\
    (forall err, intervalOf x = Throw err ->
       c = Throw err /\ after = before /\ properties h' = properties h).
Proof.
  intros E V Vp X.
  destruct (run_externalGroup h o e E V) as (h1 & d & Run1 & O1 & P1 & D1 & F1 & C1).
  set (before := default emptyDocument (documentOf h o)) in *.
  set (u1 := bool_decide (external e = None)) in *.
  assert (d = default (length (documents h)) (external e)) as Hd
    by (destruct (external e); [by destruct C1|done]).
  assert (processCzmlPacket o packet h =
          (interval <- intervalGroup x ;;
           externalUpdated <- scopeGroup x d u1 ;;
           strategies x d interval externalUpdated) h1) as Run.
  { rewrite processCzmlPacket_groups, X. unfold bind at 1. by rewrite Run1. }
  assert (forall g, getField g before = fieldOf h o (getField g)) as Bg.
  { intros g. apply fieldOf_default. by destruct g. }
  unfold bind in Run. rewrite run_intervalGroup in Run.
  destruct (intervalOf x) as [i|err] eqn:EI; cycle 1.
  { exists h1, (Throw err), d, before, before. rewrite Run.
    split_and!; try done; auto.
    - rewrite P1. done.
    - intros q s Q _ _. by rewrite P1.
    - intros err' [= <-]. left.
      unfold DynamicExternalDocument.intervalOf in EI.
      destruct (Czml.interval x) as [s|]; [|done]. exists s. split; [done|].
      destruct (fromIso8601 s); [done|]. by injection EI as ->.
    - by intros err' [= <-]. }
  rewrite (run_scopeGroup_flag h1 d before x u1 D1) in Run.
  remember (set_scope (defaultValue (scope before) (Czml.scope x)) before) as doc2 eqn:Hdoc2.
  remember (match Czml.scope x, scope before with Some _, None => true | _, _ => u1 end)
    as u2 eqn:Hu2.
  set (h2 := set_documents (<[d := doc2]> (documents h1)) h1) in *.
  assert (documents h2 !! d = Some doc2) as D2 by (by apply (lookup_insert_same _ _ _ before)).
  assert (scope doc2 = defaultValue (scope before) (Czml.scope x)) as S2 by (by rewrite Hdoc2).
  assert (show doc2 = show before) as W2 by (by rewrite Hdoc2).
  assert (forall g, getField g doc2 = getField g before) as G2
    by (rewrite Hdoc2; by intros []).
  assert (forall after : DynamicExternalDocument,
            scope after = scope doc2 ->
            u2 || bool_decide (after <> doc2) = u1 || bool_decide (after <> before)) as Flag.
  { intros after Sa. rewrite S2 in Sa. rewrite Hu2, Hdoc2.
    destruct (Czml.scope x) as [s|]; [destruct (scope before) as [s0|] eqn:S|].
    - cbn. by rewrite <- S, set_scope_same.
    - cbn in *. rewrite bool_decide_eq_true_2 by congruence. by rewrite orb_true_r.
    - assert (defaultValue (scope before) None = scope before) as ->
        by (by destruct (scope before)).
      by rewrite set_scope_same. }
  assert (forall f1 f2 t2 x1 x2,
            (forall d u, strategies x d i u = strategy d f1 f2 t2 x1 x2 i u) ->
            f1 = Polling /\ f2 = RefreshInterval \/ f1 = Eventsource /\ f2 = Eventname ->
            (forall g, declares x g <-> g = f1 \/ g = f2 /\ is_Some x2) ->
            exists h' c after,
              strategies x d i u2 h2 = (h', c) /\
              objects h' = objects h2 /\
              documents h' = <[d := after]> (documents h2) /\
              show after = show doc2 /\ scope after = scope doc2 /\
              (forall g q, getField g before = Some q -> getField g after = Some q) /\
              (forall g q, getField g after = Some q ->
                 getField g before = Some q \/
                 getField g before = None /\ declares x g /\
                 length (properties h) <= q < length (properties h')) /\
              length (properties h) <= length (properties h') /\
              (forall q s, properties h !! q = Some s ->
                 fieldOf h o polling <> Some q -> fieldOf h o eventsource <> Some q ->
                 properties h' !! q = Some s) /\
              (forall b, c = Normal b -> b = u2 || bool_decide (after <> doc2)) /\
              (forall b g, c = Normal b -> declares x g -> is_Some (getField g after)) /\
              (forall err, c = Throw err ->
                 exists s y i, (processCzmlIntervals s y i).2 = Throw err)) as Strategy.
  { intros f1 f2 t2 x1 x2 S Hf12 Decl.
    assert (f1 <> f2) as Hne by (by destruct Hf12 as [[-> ->] | [-> ->]]).
    assert (f1 = Polling \/ f1 = Eventsource) as H1 by (destruct Hf12 as [[? ?] | [? ?]]; auto).
    destruct (strategy_effect h2 d doc2 f1 f2 t2 x1 x2 i u2 D2) as
      (h' & c & after & Run3 & O3 & D3 & S3 & W3 & Keep & New & Len & Old & Main & B3 & Two & Err);
      [|done|].
    { intros p. rewrite G2, Bg. cbn. rewrite P1. by apply Vp. }
    change (properties h2) with (properties h1) in *. rewrite P1 in *.
    exists h', c, after. rewrite S, Run3. split_and!; try done.
    - intros g q. rewrite <- G2. apply Keep.
    - intros g q G. destruct (New g q G) as [?|(N & Hg & L)]; [left; by rewrite <- G2|].
      right. rewrite <- G2. split; [done|]. split; [by apply Decl|done].
    - intros q s Q Hp He. apply Old; [done|]. rewrite G2, Bg.
      by destruct H1 as [-> | ->].
    - intros b g -> [->|[-> Hx2]]%Decl; [done|by eapply Two].
    - intros err ->. destruct (Err err eq_refl) as (s & y & Hs). eauto. }
  assert (exists h' c after,
            strategies x d i u2 h2 = (h', c) /\
            objects h' = objects h2 /\
            documents h' = <[d := after]> (documents h2) /\
            show after = show doc2 /\ scope after = scope doc2 /\
            (forall g q, getField g before = Some q -> getField g after = Some q) /\
            (forall g q, getField g after = Some q ->
               getField g before = Some q \/
               getField g before = None /\ declares x g /\
               length (properties h) <= q < length (properties h')) /\
            length (properties h) <= length (properties h') /\
            (forall q s, properties h !! q = Some s ->
               fieldOf h o polling <> Some q -> fieldOf h o eventsource <> Some q ->
               properties h' !! q = Some s) /\
            (forall b, c = Normal b -> b = u2 || bool_decide (after <> doc2)) /\
            (forall b g, c = Normal b -> declares x g -> is_Some (getField g after)) /\
            (forall err, c = Throw err ->
               exists s y i, (processCzmlIntervals s y i).2 = Throw err))
    as (h' & c & after & Run3 & O3 & D3 & W3 & S3 & Keep & New & Len & Old & B3 & Decl & Err).
  { destruct (Czml.polling x) as [pd|] eqn:Pd.
    { apply (Strategy Polling RefreshInterval CzmlNumber pd (Czml.refreshInterval x));
        auto using strategies_polling. intros g. by apply (declares_polling x pd). }
    destruct (Czml.eventsource x) as [ed|] eqn:Ed.
    { apply (Strategy Eventsource Eventname CzmlString ed (Czml.eventname x));
        auto using strategies_eventsource. intros g. by apply (declares_eventsource x ed). }
    exists h2, (Normal u2), doc2.
    unfold DynamicExternalDocument.strategies. rewrite Pd, Ed.
    split_and!; try done.
    - by rewrite list_insert_id.
    - intros g q. by rewrite G2.
    - intros g q. rewrite G2. auto.
    - cbn. by rewrite P1.
    - intros q s Q _ _. cbn. by rewrite P1.
    - intros b [= <-]. rewrite (bool_decide_eq_false_2 (doc2 <> doc2)) by tauto.
      by rewrite orb_false_r.
    - intros b g _ Hg. by apply (declares_nothing x g) in Hg. }
  exists h', c, d, before, after. rewrite Run, Run3.
  split_and!; try done.
  - rewrite O3. exact O1.
  - rewrite D3. by apply (lookup_insert_same _ _ _ doc2).
  - intros d' Hd'. rewrite D3. cbn. rewrite !list_lookup_insert_ne by done. by apply F1.
  - congruence.
  - congruence.
  - intros b Hb. rewrite (B3 b Hb). by apply Flag.
  - intros err Hc. right. by apply Err.
Qed.

Lemma documentOf_lookup h o (e : DynamicObject attributes) d doc :
  objects h !! o = Some e -> external e = Some d -> documents h !! d = Some doc ->
  documentOf h o = Some doc.
Proof. intros E X D. unfold documentOf. rewrite E. cbn. rewrite X. cbn. done. Qed.

Lemma documentOf_None h o (e : DynamicObject attributes) :
  objects h !! o = Some e -> external e = None -> documentOf h o = None.
Proof. intros E X. unfold documentOf. rewrite E. cbn. by rewrite X. Qed.

Lemma documentOf_after h o (e : DynamicObject attributes) d after h' :
  objects h !! o = Some e ->
  objects h' = <[o := set_external (Some d) e]> (objects h) ->
  documents h' !! d = Some after ->
  documentOf h' o = Some after.
Proof.
  intros E O D. apply (documentOf_lookup h' o (set_external (Some d) e) d); [|done|done].
  rewrite O. by apply (lookup_insert_same _ _ _ e).
Qed.

(** *** More on processCzmlPacket *)

(** X12: where [processCzmlPacket] returns, the value it returns tells
    whether the document of the DynamicObject is what it was: it is true
    exactly when the document was created or one of its fields was set.
    Feeding a property that was there does not count: on false the
    DynamicObjects and all documents are what they were. *)
Theorem processCzmlPacket_reports_change h o e packet h' b :
  objects h !! o = Some e ->
  (forall d, external e = Some d -> is_Some (documents h !! d)) ->
  (forall f p, f = Polling \/ f = Eventsource ->
     fieldOf h o (getField f) = Some p -> is_Some (properties h !! p)) ->
  processCzmlPacket o packet h = (h', Normal b) ->
  b = bool_decide (documentOf h' o <> documentOf h o) /\
  (b = false -> objects h' = objects h /\ documents h' = documents h).
Proof.
  intros E V Vp Run.
  destruct (Czml.external packet) as [x|] eqn:X; cycle 1.
  { rewrite processCzmlPacket_groups, X in Run. injection Run as <- <-.
    split; [|done]. by rewrite bool_decide_eq_false_2 by tauto. }
  destruct (processCzmlPacket_effect h o e packet x E V Vp X)
    as (h0 & c & d & before & after & Run' & Hb & Hd & O' & D' & F' & _ & _ & _ & _ & _ & _ &
        B & _).
  rewrite Run in Run'. injection Run' as <- <-.
  rewrite (documentOf_after h o e d after h' E O' D'), (B b eq_refl).
  destruct (external e) as [d0|] eqn:X0.
  - destruct (V d0 eq_refl) as [doc D0]. cbn in Hd. subst d.
    rewrite (documentOf_lookup h o e d0 doc E X0 D0) in *. cbn in Hb. subst before.
    rewrite (bool_decide_eq_false_2 (Some d0 = None)) by done. cbn [orb].
    split; [apply bool_decide_ext; split; congruence|].
    intros Same%bool_decide_eq_false. apply dec_stable in Same. subst after.
    split.
    + rewrite O'. by rewrite set_external_same, list_insert_id.
    + apply list_eq. intros i. destruct (decide (i = d0)) as [->|Hi]; [congruence|auto].
  - rewrite (documentOf_None h o e E X0). rewrite bool_decide_eq_true_2 by done.
    rewrite (bool_decide_eq_true_2 (Some after <> None)) by done. by split.
Qed.

(** X13: processing a packet a second time reports no change: where the
    first call returned, a second call with the same packet that returns,
    returns false and leaves the document of the DynamicObject as the
    first call left it. *)
Theorem processCzmlPacket_again h o e packet h1 b1 h2 b2 :
  objects h !! o = Some e ->
  (forall d, external e = Some d -> is_Some (documents h !! d)) ->
  (forall f p, f = Polling \/ f = Eventsource ->
     fieldOf h o (getField f) = Some p -> is_Some (properties h !! p)) ->
  processCzmlPacket o packet h = (h1, Normal b1) ->
  processCzmlPacket o packet h1 = (h2, Normal b2) ->
  b2 = false /\ documentOf h2 o = documentOf h1 o.
Proof.
  intros E V Vp Run1 Run2.
  destruct (Czml.external packet) as [x|] eqn:X; cycle 1.
  { rewrite processCzmlPacket_groups, X in Run1, Run2.
    injection Run1 as <- <-. by injection Run2 as <- <-. }
  destruct (processCzmlPacket_effect h o e packet x E V Vp X)
    as (h0 & c & d & before & after & Run' & Hb & Hd & O' & D' & F' & W' & S' & Keep & New &
        Len & _ & _ & Decl & _ & Bad).
  rewrite Run1 in Run'. injection Run' as <- <-.
  destruct (intervalOf x) as [i|err] eqn:I; [|by destruct (Bad err eq_refl) as [[=] _]].
  assert (objects h1 !! o = Some (set_external (Some d) e)) as E1
    by (rewrite O'; by apply (lookup_insert_same _ _ _ e)).
  assert (documentOf h1 o = Some after) as Doc1
    by (exact (documentOf_after h o e d after h1 E O' D')).
  destruct (processCzmlPacket_effect h1 o _ packet x E1)
    as (h0 & c & d2 & before2 & after2 & Run' & Hb2 & Hd2 & O2 & D2 & F2 & W2 & S2 & Keep2 &
        New2 & Len2 & _ & B2 & _); [| |done|].
  { cbn. intros d0 [= <-]. eauto. }
  { intros f p Hf. unfold fieldOf. rewrite Doc1. cbn. intros G.
    apply lookup_lt_is_Some.
    destruct (New f p G) as [G0|(_ & _ & ?)]; [|lia].
    enough (is_Some (properties h !! p)) as ?%lookup_lt_is_Some by lia.
    apply (Vp f p Hf). rewrite <- fieldOf_default by (by destruct f). by rewrite <- Hb. }
  rewrite Run2 in Run'. injection Run' as <- <-.
  rewrite Doc1 in Hb2. cbn in Hb2, Hd2. subst before2 d2. rewrite I in S2.
  assert (after2 = after) as ->.
  { assert (forall g, getField g after2 = getField g after) as G.
    { intros g. destruct (getField g after) as [q|] eqn:Ga; [by apply Keep2|].
      destruct (getField g after2) as [q|] eqn:Ga2; [|done].
      destruct (New2 g q Ga2) as [?|(_ & Hg & _)]; [congruence|].
      destruct (Decl _ g eq_refl Hg) as [q' ?]. congruence. }
    apply document_eq.
    - apply (G Polling).
    - congruence.
    - rewrite S2, S'. destruct (scope before), (Czml.scope x); done.
    - apply (G RefreshInterval).
    - apply (G Eventsource).
    - apply (G Eventname). }
  split; [|rewrite Doc1; exact (documentOf_after h1 o _ d after h2 E1 O2 D2)].
  rewrite (B2 b2 eq_refl), (bool_decide_eq_false_2 (after <> after)) by tauto.
  rewrite orb_false_r. by apply bool_decide_eq_false_2.
Qed.

(** X14: an [interval] that [fromIso8601] rejects ends the call with the
    exception of [fromIso8601], after the DynamicObject was given a
    document if it had none and before anything else is looked at: no
    field is set, no property is created or fed, whatever the packet
    declares. Where the DynamicObject had a document the heap is what it
    was. *)
Theorem malformed_interval_aborts h o e packet x s err :
  objects h !! o = Some e ->
  (forall d, external e = Some d -> is_Some (documents h !! d)) ->
  Czml.external packet = Some x ->
  Czml.interval x = Some s ->
  fromIso8601 s = Throw err ->
  exists h',
    processCzmlPacket o packet h = (h', Throw err) /\
    (is_Some (external e) -> h' = h) /\
    documentOf h' o = Some (default emptyDocument (documentOf h o)) /\
    properties h' = properties h /\
    (forall o', o' <> o -> objects h' !! o' = objects h !! o') /\
    (forall d doc, documents h !! d = Some doc -> documents h' !! d = Some doc).
Proof.
  intros E V X I Bad.
  destruct (run_externalGroup h o e E V) as (h1 & d & Run1 & O1 & P1 & D1 & F1 & C1).
  exists h1. split_and!.
  - rewrite processCzmlPacket_groups, X. unfold bind at 1. rewrite Run1.
    unfold bind. rewrite run_intervalGroup. unfold DynamicExternalDocument.intervalOf.
    by rewrite I, Bad.
  - intros [d0 X0]. rewrite X0 in C1. by destruct C1.
  - by eapply documentOf_after.
  - done.
  - intros o' Hne. rewrite O1. by apply list_lookup_insert_ne.
  - intros d' doc D. destruct (decide (d' = d)) as [->|Hne]; [|by rewrite F1].
    destruct (external e) as [d0|] eqn:X0.
    + destruct C1 as [_ ->]. done.
    + subst d. apply lookup_lt_Some in D. lia.
Qed.

(** X15: [refreshInterval] is read only with [polling], and [eventname]
    only with [eventsource] and without [polling]: two packets that differ
    in a field so left out are processed alike, on every heap. *)
Theorem dependent_fields_need_their_parent o packet packet' x x' :
  Czml.external packet = Some x ->
  Czml.external packet' = Some x' ->
  Czml.interval x' = Czml.interval x ->
  Czml.scope x' = Czml.scope x ->
  Czml.polling x' = Czml.polling x ->
  Czml.eventsource x' = Czml.eventsource x ->
  (is_Some (Czml.polling x) -> Czml.refreshInterval x' = Czml.refreshInterval x) ->
  (Czml.polling x = None -> is_Some (Czml.eventsource x) ->
   Czml.eventname x' = Czml.eventname x) ->
  processCzmlPacket o packet' = processCzmlPacket o packet.
Proof.
  intros X X' I S P Es R N.
  rewrite !processCzmlPacket_groups, X, X'.
  unfold DynamicExternalDocument.intervalGroup, DynamicExternalDocument.scopeGroup,
    DynamicExternalDocument.strategies.
  rewrite I, S, P, Es.
  destruct (Czml.polling x) as [pd|]; [by rewrite R by eauto|].
  destruct (Czml.eventsource x) as [ed|]; [by rewrite N by eauto|done].
Qed.

(** *** Heaps without dangling references *)

Lemma length_lookup_eq {A} (l l' : list A) :
  (forall i, is_Some (l' !! i) <-> is_Some (l !! i)) -> length l' = length l.
Proof.
  intros H. pose proof (H (length l)) as H1. pose proof (H (length l')) as H2.
  rewrite !lookup_lt_is_Some in H1, H2. lia.
Qed.

Lemma wellFormed_object h o :
  wellFormed h -> o < length (objects h) ->
  exists e,
    objects h !! o = Some e /\
    (forall d, external e = Some d -> is_Some (documents h !! d)) /\
    (forall f p, f = Polling \/ f = Eventsource ->
       fieldOf h o (getField f) = Some p -> is_Some (properties h !! p)) /\
    (forall f p, getField f (default emptyDocument (documentOf h o)) = Some p ->
       is_Some (properties h !! p)).
Proof.
  intros (W1 & W2 & _) [e E]%lookup_lt_is_Some_2. exists e. split; [done|].
  split; [intros d; by apply (W1 o e d)|].
  assert (forall f p, fieldOf h o (getField f) = Some p -> is_Some (properties h !! p)) as Vf.
  { intros f p. unfold fieldOf, documentOf. rewrite E. cbn.
    destruct (external e) as [d|]; [|done]. cbn.
    destruct (documents h !! d) as [doc|] eqn:D; [|done]. cbn. by apply (W2 d doc f p). }
  split; [intros f p _; apply Vf|].
  intros f p. rewrite fieldOf_default by (by destruct f). apply Vf.
Qed.

Lemma wellFormed_processCzmlPacket h o packet :
  wellFormed h -> o < length (objects h) ->
  wellFormed (processCzmlPacket o packet h).1 /\
  length (objects (processCzmlPacket o packet h).1) = length (objects h).
Proof.
  intros W Ho.
  destruct (Czml.external packet) as [x|] eqn:X;
    [|by rewrite processCzmlPacket_groups, X].
  destruct (wellFormed_object h o W Ho) as (e & E & V & Vp & Vb).
  destruct W as (W1 & W2 & W3).
  destruct (processCzmlPacket_effect h o e packet x E V Vp X)
    as (h' & c & d & before & after & Run & Hb & Hd & O' & D' & F' & _ & _ & Keep & New &
        Len & _).
  rewrite Run. cbn [fst]. subst before.
  assert (forall o1 e1, objects h' !! o1 = Some e1 ->
            o1 = o /\ e1 = set_external (Some d) e \/ o1 <> o /\ objects h !! o1 = Some e1)
    as Objects.
  { intros o1 e1. rewrite O'. destruct (decide (o1 = o)) as [->|Hne].
    - rewrite (lookup_insert_same _ _ _ e) by done. intros [= <-]. by left.
    - rewrite list_lookup_insert_ne by done. by right. }
  assert (forall o2 e2, o2 <> o -> objects h !! o2 = Some e2 -> external e2 <> Some d)
    as Own.
  { intros o2 e2 Hne E2 X2. destruct (external e) as [d0|] eqn:X0; cbn in Hd; subst d.
    - by apply Hne, (W3 o2 o e2 e d0).
    - apply (W1 o2 e2 _ E2), lookup_lt_is_Some in X2. lia. }
  split; [|by rewrite O', length_insert]. split_and!.
  - intros o1 e1 d1 [[-> ->]|[Hne E1]]%Objects X1.
    + injection X1 as <-. eauto.
    + rewrite F' by (intros ->; by eapply Own). by eapply W1.
  - intros d1 doc1 f p D1 G. apply lookup_lt_is_Some.
    destruct (decide (d1 = d)) as [->|Hne].
    + assert (doc1 = after) as -> by congruence.
      destruct (New f p G) as [G0|(_ & _ & ?)]; [|lia].
      apply Vb, lookup_lt_is_Some in G0. lia.
    + rewrite F' in D1 by done. apply (W2 d1 doc1 f p D1), lookup_lt_is_Some in G. lia.
  - intros o1 o2 e1 e2 d1 [[-> ->]|[Hne1 E1]]%Objects [[-> ->]|[Hne2 E2]]%Objects X1 X2;
      [done| | |by eapply W3].
    + injection X1 as <-. by destruct (Own o2 e2).
    + injection X2 as <-. by destruct (Own o1 e1).
Qed.

Lemma wellFormed_mergeProperties h t s :
  wellFormed h -> t < length (objects h) -> s < length (objects h) ->
  (mergeProperties t s h).2 = Normal tt /\
  wellFormed (mergeProperties t s h).1 /\
  length (objects (mergeProperties t s h).1) = length (objects h).
Proof.
  intros W Ht Hs.
  destruct (wellFormed_object h t W Ht) as (target & Et & Vt & _ & Vb).
  destruct (wellFormed_object h s W Hs) as (source & Es & Vs & _).
  destruct (external source) as [ds|] eqn:Xs; cycle 1.
  { unfold mergeProperties, bind. by rewrite (getExternal_Some h s source Es), Xs. }
  destruct (Vs ds eq_refl) as [sdoc Ds].
  destruct (mergeProperties_effect h t s target source ds sdoc Es Xs Ds Et Vt)
    as (h' & dt & before & after & Run & Hb & Ot & Hd1 & Hd2 & Da & Hp1 & Hp2 & _ & Hr & He &
        Hn & _ & _ & Hf & Hprops & Hobjs).
  rewrite Run. cbn [fst snd]. subst before.
  destruct W as (W1 & W2 & W3).
  assert (forall o1 e1, objects h' !! o1 = Some e1 ->
            o1 = t /\ e1 = {| external := Some dt; others := others target |} \/
            o1 <> t /\ objects h !! o1 = Some e1) as Objects.
  { intros o1 e1. destruct (decide (o1 = t)) as [->|Hne].
    - rewrite Ot. intros [= <-]. by left.
    - rewrite Hobjs by done. by right. }
  assert (forall o2 e2, o2 <> t -> objects h !! o2 = Some e2 -> external e2 <> Some dt)
    as Own.
  { intros o2 e2 Hne E2 X2. destruct (external target) as [d0|] eqn:X0.
    - rewrite <- (Hd1 d0 eq_refl) in X0. by apply Hne, (W3 o2 t e2 target dt).
    - rewrite (Hd2 eq_refl) in X2. apply (W1 o2 e2 _ E2), lookup_lt_is_Some in X2. lia. }
  split; [done|]. split; cycle 1.
  { apply length_lookup_eq. intros o1. destruct (decide (o1 = t)) as [->|Hne].
    - rewrite Ot, Et. split; eauto.
    - by rewrite Hobjs. }
  split_and!.
  - intros o1 e1 d1 [[-> ->]|[Hne E1]]%Objects X1.
    + injection X1 as <-. eauto.
    + rewrite Hf by (intros ->; by eapply Own). by eapply W1.
  - intros d1 doc1 f p D1 G. rewrite Hprops.
    destruct (decide (d1 = dt)) as [->|Hne].
    + assert (doc1 = after) as -> by congruence.
      destruct f; cbn in G.
      * destruct (polling (default emptyDocument (documentOf h t))) as [p0|] eqn:P0.
        -- rewrite (Hp1 p0 eq_refl) in G. injection G as <-. by apply (Vb Polling).
        -- rewrite (Hp2 eq_refl) in G. by apply (W2 ds sdoc Polling).
      * rewrite Hr in G. by apply (Vb RefreshInterval).
      * rewrite He in G. by apply (Vb Eventsource).
      * rewrite Hn in G. by apply (Vb Eventname).
    + rewrite Hf in D1 by done. by apply (W2 d1 doc1 f p D1).
  - intros o1 o2 e1 e2 d1 [[-> ->]|[Hne1 E1]]%Objects [[-> ->]|[Hne2 E2]]%Objects X1 X2;
      [done| | |by eapply W3].
    + injection X1 as <-. by destruct (Own o2 e2).
    + injection X2 as <-. by destruct (Own o1 e1).
Qed.

Lemma wellFormed_undefineProperties h o :
  wellFormed h -> o < length (objects h) ->
  (undefineProperties o h).2 = Normal tt /\
  wellFormed (undefineProperties o h).1 /\
  length (objects (undefineProperties o h).1) = length (objects h).
Proof.
  intros (W1 & W2 & W3) [e E]%lookup_lt_is_Some_2.
  unfold undefineProperties. rewrite (setExternal_Some h o e None E). cbn.
  assert (forall o1 e1, <[o := set_external None e]> (objects h) !! o1 = Some e1 ->
            forall d, external e1 = Some d -> o1 <> o /\ objects h !! o1 = Some e1) as Objects.
  { intros o1 e1. destruct (decide (o1 = o)) as [->|Hne].
    - rewrite (lookup_insert_same _ _ _ e) by done. by intros [= <-] d.
    - rewrite list_lookup_insert_ne by done. by intros E1 d. }
  split; [done|]. split; [|by rewrite length_insert]. split_and!; cbn.
  - intros o1 e1 d E1 X1. destruct (Objects o1 e1 E1 d X1). by eapply W1.
  - exact W2.
  - intros o1 o2 e1 e2 d E1 E2 X1 X2.
    destruct (Objects o1 e1 E1 d X1), (Objects o2 e2 E2 d X2). by eapply W3.
Qed.

Lemma wellFormed_afterCall h c :
  wellFormed h ->
  (forall o, o ∈ argumentsOf c -> o < length (objects h)) ->
  wellFormed (afterCall h c) /\ length (objects (afterCall h c)) = length (objects h).
Proof.
  intros W Args. destruct c as [o packet|t s|o]; cbn.
  - apply wellFormed_processCzmlPacket; [done|]. apply Args. cbn.
    by apply list_elem_of_singleton.
  - apply wellFormed_mergeProperties; [done| |]; apply Args; cbn; rewrite !elem_of_cons; auto.
  - apply wellFormed_undefineProperties; [done|]. apply Args. cbn.
    by apply list_elem_of_singleton.
Qed.

(** X16: the three functions keep the heap free of dangling references
    and never make two DynamicObjects share a document: where every
    DynamicObject's document and every document's properties are in the
    heap, and no document belongs to two DynamicObjects, the same holds
    after any sequence of calls on DynamicObjects of the heap, calls that
    throw included; the calls create and remove no DynamicObject. *)
Theorem wellFormed_invariant h (calls : list (call data)) :
  wellFormed h ->
  (forall c o, c ∈ calls -> o ∈ argumentsOf c -> o < length (objects h)) ->
  wellFormed (afterCalls calls h) /\
  length (objects (afterCalls calls h)) = length (objects h).
Proof.
  revert h. induction calls as [|c calls IH]; intros h W Args; [done|].
  change (afterCalls (c :: calls) h) with (afterCalls calls (afterCall h c)).
  destruct (wellFormed_afterCall h c W) as [W' L'].
  { intros o. apply Args. apply elem_of_cons. by left. }
  destruct (IH (afterCall h c) W') as [W'' L''].
  { intros c' o Hc Ho. rewrite L'. apply (Args c' o); [|done]. apply elem_of_cons. by right. }
  split; [exact W''|exact (eq_trans L'' L')].
Qed.


(** X18: a call of [processCzmlPacket] for one DynamicObject leaves every
    other DynamicObject and its document as they were, and feeds at most
    the [polling] or [eventsource] property of the DynamicObject it is
    called on: every other property keeps its state. *)
Theorem processCzmlPacket_frame h o packet :
  wellFormed h -> o < length (objects h) ->
  (forall o', o' <> o ->
     objects (processCzmlPacket o packet h).1 !! o' = objects h !! o' /\
     documentOf (processCzmlPacket o packet h).1 o' = documentOf h o') /\
  (forall q state, properties h !! q = Some state ->
     fieldOf h o polling <> Some q -> fieldOf h o eventsource <> Some q ->
     properties (processCzmlPacket o packet h).1 !! q = Some state).
Proof.
  intros W Ho.
  destruct (Czml.external packet) as [x|] eqn:X;
    [|by rewrite processCzmlPacket_groups, X].
  destruct (wellFormed_object h o W Ho) as (e & E & V & Vp & _).
  destruct W as (W1 & W2 & W3).
  destruct (processCzmlPacket_effect h o e packet x E V Vp X)
    as (h' & c & d & before & after & Run & Hb & Hd & O' & D' & F' & _ & _ & _ & _ & _ & Old &
        _).
  rewrite Run. cbn [fst]. split; [|exact Old].
  intros o' Hne.
  assert (objects h' !! o' = objects h !! o') as Same
    by (rewrite O'; by apply list_lookup_insert_ne).
  split; [done|]. unfold documentOf. rewrite Same.
  destruct (objects h !! o') as [e'|] eqn:E'; [|done]. cbn.
  destruct (external e') as [d'|] eqn:X'; [|done]. cbn.
  apply F'. intros ->.
  destruct (external e) as [d0|] eqn:X0; cbn in Hd; subst d.
  - by apply Hne, (W3 o' o e' e d0).
  - apply (W1 o' e' _ E'), lookup_lt_is_Some in X'. lia.
Qed.

(** *** mergeProperties and undefineProperties among the other calls *)

Lemma fieldOf_Some {A} h o (f : DynamicExternalDocument -> option A) v :
  fieldOf h o f = Some v ->
  exists (e : DynamicObject attributes) d doc,
    objects h !! o = Some e /\ external e = Some d /\ documents h !! d = Some doc /\
    f doc = Some v.
Proof.
  unfold fieldOf, documentOf. destruct (objects h !! o) as [e|]; [|done]. cbn.
  destruct (external e) as [d|] eqn:X; [|done]. cbn.
  destruct (documents h !! d) as [doc|] eqn:D; [|done]. cbn. eauto 10.
Qed.

(** X19: the property that [mergeProperties] gives the target is the
    property of the source, not a copy: after a merge onto a target
    without [polling], a packet with polling data processed for the target
    feeds the property that the document of the source refers to as well,
    so the polling of the source changes with it. *)
Theorem merged_polling_is_shared h t s packet x pollingData i p state :
  wellFormed h ->
  fieldOf h s polling = Some p ->
  fieldOf h t polling = None ->
  t < length (objects h) ->
  properties h !! p = Some state ->
  Czml.external packet = Some x ->
  Czml.polling x = Some pollingData ->
  intervalOf x = Normal i ->
  fieldOf (mergeProperties t s h).1 t polling = Some p /\
  fieldOf (processCzmlPacket t packet (mergeProperties t s h).1).1 t polling = Some p /\
  fieldOf (processCzmlPacket t packet (mergeProperties t s h).1).1 s polling = Some p /\
  stateOf (processCzmlPacket t packet (mergeProperties t s h).1).1 (Some p) =
    Some (processCzmlIntervals state pollingData i).1.
Proof.
  intros W Fs Ft Ht Ps X P I.
  destruct (fieldOf_Some h s polling p Fs) as (source & ds & sdoc & Es & Xs & Ds & Psdoc).
  assert (s < length (objects h)) as Hs by (by apply lookup_lt_Some in Es).
  destruct (wellFormed_object h t W Ht) as (target & Et & Vt & _).
  assert (t <> s) as Hts by (intros ->; congruence).
  destruct (wellFormed_mergeProperties h t s W Ht Hs) as (_ & W1 & L1).
  destruct (mergeProperties_effect h t s target source ds sdoc Es Xs Ds Et Vt)
    as (h1 & dt & before & after & Run & Hb & Ot & Hd1 & Hd2 & Da & Hp1 & Hp2 & _ & _ & _ &
        _ & _ & Hsrc & Hf & Hprops & Hobjs).
  rewrite Run in *. cbn [fst] in *.
  assert (polling before = None) as Pb
    by (rewrite Hb, fieldOf_default by done; exact Ft).
  assert (polling after = Some p) as Pa by (by rewrite Hp2, Psdoc).
  assert (fieldOf h1 t polling = Some p) as Ft1 by (by rewrite (fieldOf_after h1 t (others target) dt after)).
  assert (objects h1 !! s = Some source) as Es1 by (by rewrite Hobjs).
  assert (ds <> dt) as Hds.
  { intros ->. destruct W1 as (_ & _ & W3).
    by apply Hts, (W3 t s _ source dt Ot Es1). }
  pose proof (fieldOf_default h1 t polling eq_refl) as Bp. rewrite Ft1 in Bp.
  destruct (run_with_strategy h1 t _ packet x i Polling RefreshInterval CzmlNumber
              pollingData (Czml.refreshInterval x) _ Ot
              ltac:(cbn; intros d0 [= <-]; eauto) X I
              (strategies_polling x pollingData i P) ltac:(done) eq_refl)
    as (h2 & c & d & after2 & q & s0 & Run2 & O2 & Oth2 & Hd & D2 & F2 & Hq & Hs0 & G1 & P1 &
        _).
  { cbn [getField]. rewrite Bp. intros q [= <-]. rewrite Hprops. eauto. }
  cbn [getField] in Hq, Hs0, G1. rewrite Bp in Hq, Hs0. cbn in Hq, Hs0.
  rewrite Hprops, Ps in Hs0. cbn in Hs0. subst q s0.
  assert (d = dt) as -> by (by apply Hd).
  rewrite Run2. cbn [fst]. split_and!.
  - done.
  - by rewrite (fieldOf_after h2 t (others target) dt after2).
  - rewrite (fieldOf_lookup h2 s source ds sdoc); [done| |done|].
    + by rewrite Oth2.
    + by rewrite F2.
  - done.
Qed.

(** X20: [mergeProperties] is idempotent: merging the same source a
    second time changes nothing. It changes nothing at all where the
    source has no document, where the target has a polling property, and
    where target and source are one DynamicObject. *)
Theorem mergeProperties_idempotent h t s :
  wellFormed h -> t < length (objects h) -> s < length (objects h) ->
  mergeProperties t s (mergeProperties t s h).1 = ((mergeProperties t s h).1, Normal tt) /\
  (documentOf h s = None -> mergeProperties t s h = (h, Normal tt)) /\
  (is_Some (fieldOf h t polling) -> mergeProperties t s h = (h, Normal tt)) /\
  (t = s -> mergeProperties t s h = (h, Normal tt)).
Proof.
  intros W Ht Hs.
  assert (forall h, wellFormed h -> t < length (objects h) -> s < length (objects h) ->
            exists h1 e1 d1 doc1,
              mergeProperties t s h = (h1, Normal tt) /\
              (documentOf h s = None -> h1 = h) /\
              (documentOf h s <> None ->
               objects h1 !! t = Some e1 /\ external e1 = Some d1 /\
               documents h1 !! d1 = Some doc1 /\
               (forall e, objects h !! t = Some e -> others e1 = others e) /\
               (forall o, o <> t -> objects h1 !! o = objects h !! o) /\
               (forall d, d <> d1 -> documents h1 !! d = documents h !! d) /\
               properties h1 = properties h /\
               (forall e d, objects h !! t = Some e -> external e = Some d -> d1 = d) /\
               (forall doc, documentOf h t = Some doc ->
                  doc1 = set_polling (defaultValue (polling doc) (fieldOf h s polling)) doc) /\
               (documentOf h t = None ->
                  doc1 = set_polling (fieldOf h s polling) emptyDocument) /\
               (t <> s -> documentOf h1 s = documentOf h s))) as Merge.
  { clear h W Ht Hs. intros h W Ht Hs.
    destruct (wellFormed_object h t W Ht) as (target & Et & Vt & _).
    destruct (wellFormed_object h s W Hs) as (source & Es & Vs & _).
    destruct (external source) as [ds|] eqn:Xs; cycle 1.
    { exists h, target, 0, emptyDocument. split_and!.
      - unfold mergeProperties, bind. by rewrite (getExternal_Some h s source Es), Xs.
      - done.
      - intros N. destruct N. by apply (documentOf_None h s source). }
    destruct (Vs ds eq_refl) as [sdoc Ds].
    assert (documentOf h s = Some sdoc) as Docs by (by apply (documentOf_lookup h s source ds)).
    assert (fieldOf h s polling = polling sdoc) as Fs by (unfold fieldOf; by rewrite Docs).
    destruct (mergeProperties_effect h t s target source ds sdoc Es Xs Ds Et Vt)
      as (h1 & dt & before & after & Run & Hb & Ot & Hd1 & Hd2 & Da & Hp1 & Hp2 & Hsc & Hr &
          He & Hn & Hw & Hsrc & Hf & Hprops & Hobjs).
    exists h1, {| external := Some dt; others := others target |}, dt, after.
    split; [done|]. split; [by rewrite Docs|]. intros _.
    assert (after = set_polling (defaultValue (polling before) (polling sdoc)) before) as Ha.
    { apply document_eq; try done. cbn.
      destruct (polling before) as [p0|] eqn:P0; [by apply Hp1|by apply Hp2]. }
    split_and!; try done.
    - intros e. rewrite Et. by intros [= <-].
    - intros e d. rewrite Et. intros [= <-]. apply Hd1.
    - intros doc Dt. rewrite Ha, Hb, Dt, Fs. done.
    - intros Dt. rewrite Ha, Hb, Dt, Fs. done.
    - intros Hne. rewrite Docs. apply (documentOf_lookup h1 s source ds); [|done|done].
      by rewrite Hobjs. }
  destruct (Merge h W Ht Hs)
    as (h1 & e1 & d1 & doc1 & Run & NoDoc & Doc).
  destruct (wellFormed_mergeProperties h t s W Ht Hs) as (_ & W1 & L1).
  rewrite Run in *. cbn [fst] in *.
  destruct (wellFormed_object h t W Ht) as (target & Et & Vt & _).
  assert (documentOf h s <> None ->
          (is_Some (fieldOf h t polling) \/ t = s) -> h1 = h) as Unchanged.
  { intros Docs Hyp.
    destruct (Doc Docs) as (E1 & X1 & D1 & Oth & Obj & Docu & Props & Dd & Dsome & Dnone & _).
    assert (exists d tdoc, external target = Some d /\ documents h !! d = Some tdoc /\
              documentOf h t = Some tdoc /\
              defaultValue (polling tdoc) (fieldOf h s polling) = polling tdoc)
      as (d & tdoc & Xt & Dt & Doct & Pt).
    { destruct Hyp as [[p Fp]| <-].
      - destruct (fieldOf_Some h t polling p Fp) as (e & d & doc & E & X0 & D & Pd).
        assert (e = target) as -> by congruence.
        exists d, doc. split_and!; try done; [by eapply documentOf_lookup|by rewrite Pd].
      - assert (exists doc, documentOf h t = Some doc) as [doc Dt]
          by (destruct (documentOf h t); [eauto|done]).
        pose proof Dt as Dt'. unfold documentOf in Dt'. rewrite Et in Dt'. cbn in Dt'.
        destruct (external target) as [d|] eqn:X0; [|done]. cbn in Dt'.
        exists d, doc. split_and!; try done.
        unfold fieldOf. rewrite Dt. cbn. by destruct (polling doc). }
    assert (d1 = d) as -> by (by apply (Dd target d)).
    assert (doc1 = tdoc) as ->.
    { rewrite (Dsome tdoc Doct), Pt. apply set_polling_same. }
    apply heap_eq; [| |done].
    - apply list_eq. intros o. destruct (decide (o = t)) as [->|Hne]; [|by apply Obj].
      rewrite E1, Et. f_equal. pose proof (Oth target Et) as Ho.
      destruct e1, target; cbn in *. congruence.
    - apply list_eq. intros d'. destruct (decide (d' = d)) as [->|Hne]; [congruence|].
      by apply Docu. }
  split_and!.
  - destruct (decide (documentOf h s = None)) as [N|Docs].
    { rewrite (NoDoc N). by rewrite <- (NoDoc N) at 2. }
    destruct (Doc Docs) as (E1 & X1 & D1 & Oth & Obj & Docu & Props & Dd & Dsome & Dnone & Src).
    destruct (Merge h1 W1) as (h2 & e2 & d2 & doc2 & Run2 & NoDoc2 & Doc2); [lia|lia|].
    rewrite Run2. f_equal.
    assert (documentOf h1 t = Some doc1) as Doc1 by (by eapply documentOf_lookup).
    assert (polling doc1 = defaultValue (fieldOf h t polling) (fieldOf h s polling)) as P1.
    { destruct (documentOf h t) as [tdoc|] eqn:Dt.
      - rewrite (Dsome tdoc eq_refl). unfold fieldOf. by rewrite Dt.
      - rewrite (Dnone eq_refl). unfold fieldOf. by rewrite Dt. }
    assert (documentOf h1 s <> None) as Docs1.
    { destruct (decide (t = s)) as [<-|Hne]; [by rewrite Doc1|by rewrite Src]. }
    assert (defaultValue (polling doc1) (fieldOf h1 s polling) = polling doc1) as Same.
    { destruct (polling doc1) as [p1|] eqn:Pd1; [done|]. cbn.
      destruct (decide (t = s)) as [<-|Hne].
      - unfold fieldOf. rewrite Doc1. done.
      - unfold fieldOf. rewrite (Src Hne). fold (fieldOf h s polling).
        destruct (fieldOf h t polling); [done|]. done. }
    destruct (Doc2 Docs1)
      as (E2 & X2 & D2 & Oth2 & Obj2 & Docu2 & Props2 & Dd2 & Dsome2 & _).
    assert (d2 = d1) as -> by (by apply (Dd2 e1 d1)).
    assert (doc2 = doc1) as ->.
    { rewrite (Dsome2 doc1 Doc1), Same. apply set_polling_same. }
    apply heap_eq; [| |done].
    + apply list_eq. intros o. destruct (decide (o = t)) as [->|Hne]; [|by apply Obj2].
      rewrite E2, E1. f_equal. pose proof (Oth2 e1 E1) as Ho.
      destruct e2, e1; cbn in *. congruence.
    + apply list_eq. intros d'. destruct (decide (d' = d1)) as [->|Hne]; [congruence|].
      by apply Docu2.
  - intros N. by rewrite (NoDoc N).
  - intros Hp. destruct (decide (documentOf h s = None)) as [N|Docs]; [by rewrite (NoDoc N)|].
    rewrite Unchanged; auto.
  - intros Hts. destruct (decide (documentOf h s = None)) as [N|Docs]; [by rewrite (NoDoc N)|].
    rewrite Unchanged; auto.
Qed.

(** X21: [undefineProperties] makes the DynamicObject start over: the
    next packet gives it a new document, so the scope of that packet is
    taken whatever the scope was before; the old document stays in the
    heap as it was, with no DynamicObject referring to it through this
    call. *)
Theorem undefineProperties_forgets h o e packet x i a :
  objects h !! o = Some e ->
  Czml.external packet = Some x ->
  Czml.scope x = Some a ->
  intervalOf x = Normal i ->
  fieldOf (processCzmlPacket o packet (undefineProperties o h).1).1 o scope = Some a /\
  objects (processCzmlPacket o packet (undefineProperties o h).1).1 !! o =
    Some {| external := Some (length (documents h)); others := others e |} /\
  (forall d doc, documents h !! d = Some doc ->
     documents (processCzmlPacket o packet (undefineProperties o h).1).1 !! d = Some doc).
Proof.
  intros E X A I. unfold undefineProperties. rewrite (setExternal_Some h o e None E).
  cbn [fst].
  set (h1 := set_objects (<[o := set_external None e]> (objects h)) h).
  assert (objects h1 !! o = Some (set_external None e)) as E1
    by (by apply (lookup_insert_same _ _ _ e)).
  assert (documentOf h1 o = None) as N1 by (by apply (documentOf_None h1 o _ E1)).
  destruct (processCzmlPacket_effect h1 o _ packet x E1)
    as (h2 & c & d & before & after & Run & Hb & Hd & O2 & D2 & F2 & _ & S2 & _);
    [done| |done|].
  { intros f p _. unfold fieldOf. by rewrite N1. }
  rewrite Run. cbn [fst]. rewrite N1 in Hb. cbn in Hb, Hd. subst before d.
  rewrite I in S2. cbn in S2. rewrite A in S2.
  assert (objects h2 !! o =
          Some {| external := Some (length (documents h)); others := others e |}) as E2.
  { rewrite O2. cbn. rewrite list_insert_insert_eq. by apply (lookup_insert_same _ _ _ e). }
  split_and!.
  - by rewrite (fieldOf_after h2 o _ _ after scope E2 D2).
  - done.
  - intros d doc D. rewrite F2; [done|]. apply lookup_lt_Some in D.
    change (documents h1) with (documents h). lia.
Qed.

(** *** Fields are written once, under packets and merges *)

Lemma preserves_writeOnce_mergeProperties t s : preserves writeOnce (mergeProperties t s).
Proof.
  unfold mergeProperties.
  apply preserves_bind; [apply _|apply (preserves_getExternal writeOnce)|intros [ds|]];
    [|apply preserves_writeOnce_ret].
  apply preserves_bind; [apply _| |intros dt].
  { apply preserves_writeOnce_external; auto using @preserves_writeOnce_ret. }
  apply preserves_guarded; [apply _|apply (preserves_get writeOnce)|].
  intros h a h' Ga.
  assert (h' = h) as -> by (revert Ga; unfold get; destruct (documents h !! dt); by intros [= <-]).
  unfold bind. destruct (get ds polling h) as [h0 [b|err]] eqn:Gb;
    (assert (h0 = h) as -> by (revert Gb; unfold get; destruct (documents h !! ds); by intros [= <-]));
    [|reflexivity]. cbn.
  unfold get in Ga. unfold set. destruct (documents h !! dt) as [doc|] eqn:D; [|reflexivity].
  injection Ga as <-. cbn.
  eapply writeOnce_set_document; [done|done|].
  intros f p. destruct f; cbn; try done. by intros ->.
Qed.

(** X22: without [undefineProperties], what a document holds is never
    taken back or replaced: after any sequence of [processCzmlPacket] and
    [mergeProperties] calls, on any DynamicObjects, calls that throw
    included, every DynamicObject has the [scope] and the property fields
    it had, with the values they had. In particular the first merge that
    brings a [polling] wins. *)
Theorem fields_are_never_replaced h (calls : list (call data)) :
  (forall c o, c ∈ calls -> c <> UndefineProperties o) ->
  (forall o a, fieldOf h o scope = Some a ->
     fieldOf (afterCalls calls h) o scope = Some a) /\
  (forall o f p, fieldOf h o (getField f) = Some p ->
     fieldOf (afterCalls calls h) o (getField f) = Some p).
Proof.
  intros NoUndefine.
  assert (writeOnce h (afterCalls calls h)) as W.
  { revert h. induction calls as [|c calls IH]; intros h; [reflexivity|].
    change (afterCalls (c :: calls) h) with (afterCalls calls (afterCall h c)).
    transitivity (afterCall h c).
    - destruct c as [o packet|t s|o]; cbn.
      + apply preserves_writeOnce_processCzmlPacket.
      + apply preserves_writeOnce_mergeProperties.
      + destruct (NoUndefine (UndefineProperties o) o); [|done]. apply elem_of_cons. by left.
    - apply IH. intros c' o Hc. apply NoUndefine. apply elem_of_cons. by right. }
  split.
  - intros o a. by apply writeOnce_fieldOf_scope.
  - intros o f p. by apply writeOnce_fieldOf_property.
Qed.

(** *** Nothing assigns [show] *)

(** One call: every document of the heap is still there and the [show] of
    every document is what it was, undefined in a new one. *)
Lemma show_afterCall h c :
  wellFormed h ->
  (forall o, o ∈ argumentsOf c -> o < length (objects h)) ->
  (forall d doc, documents h !! d = Some doc -> is_Some (documents (afterCall h c) !! d)) /\
  (forall d doc', documents (afterCall h c) !! d = Some doc' ->
     show doc' = documents h !! d ≫= show).
Proof.
  intros W Args.
  assert (forall h' d after,
            (forall d', d' <> d -> documents h' !! d' = documents h !! d') ->
            documents h' !! d = Some after ->
            show after = documents h !! d ≫= show ->
            (forall d0 doc, documents h !! d0 = Some doc -> is_Some (documents h' !! d0)) /\
            (forall d0 doc', documents h' !! d0 = Some doc' ->
               show doc' = documents h !! d0 ≫= show)) as Step.
  { intros h' d after F D S. split.
    - intros d0 doc D0. destruct (decide (d0 = d)) as [->|Hne]; [eauto|].
      rewrite F by done. eauto.
    - intros d0 doc' D0. destruct (decide (d0 = d)) as [->|Hne].
      + by assert (doc' = after) as -> by congruence.
      + rewrite F in D0 by done. by rewrite D0. }
  assert (forall o (e : DynamicObject attributes) d,
            objects h !! o = Some e ->
            (forall d0, external e = Some d0 -> is_Some (documents h !! d0)) ->
            d = default (length (documents h)) (external e) ->
            show (default emptyDocument (documentOf h o)) = documents h !! d ≫= show) as Before.
  { intros o e d E V ->. unfold documentOf. rewrite E. cbn.
    destruct (external e) as [d0|] eqn:X0; cbn.
    - by destruct (V d0 eq_refl) as [doc ->].
    - by rewrite lookup_ge_None_2. }
  destruct c as [o packet|t s|o]; cbn.
  - assert (o < length (objects h)) as Ho by (apply Args; cbn; by apply list_elem_of_singleton).
    destruct (Czml.external packet) as [x|] eqn:X; cycle 1.
    { rewrite processCzmlPacket_groups, X. cbn. split; [eauto|]. by intros d doc' ->. }
    destruct (wellFormed_object h o W Ho) as (e & E & V & Vp & _).
    destruct (processCzmlPacket_effect h o e packet x E V Vp X)
      as (h' & c & d & before & after & Run & Hb & Hd & _ & D' & F' & S' & _).
    rewrite Run. cbn [fst]. apply (Step h' d after F' D').
    rewrite S', Hb. by apply (Before o e).
  - assert (t < length (objects h)) as Ht by (apply Args; cbn; rewrite !elem_of_cons; auto).
    assert (s < length (objects h)) as Hs by (apply Args; cbn; rewrite !elem_of_cons; auto).
    destruct (wellFormed_object h t W Ht) as (target & Et & Vt & _).
    destruct (wellFormed_object h s W Hs) as (source & Es & Vs & _).
    destruct (external source) as [ds|] eqn:Xs; cycle 1.
    { unfold mergeProperties, bind. rewrite (getExternal_Some h s source Es), Xs. cbn.
      split; [eauto|]. by intros d doc' ->. }
    destruct (Vs ds eq_refl) as [sdoc Ds].
    destruct (mergeProperties_effect h t s target source ds sdoc Es Xs Ds Et Vt)
      as (h' & dt & before & after & Run & Hb & _ & Hd1 & Hd2 & Da & _ & _ & _ & _ & _ & _ &
          Hw & _ & Hf & _).
    rewrite Run. cbn [fst]. apply (Step h' dt after Hf Da).
    rewrite Hw, Hb. apply (Before t target); [done|done|].
    destruct (external target) as [d0|] eqn:X0; cbn; [by apply Hd1|by apply Hd2].
  - assert (o < length (objects h)) as [e E]%lookup_lt_is_Some_2
      by (apply Args; cbn; by apply list_elem_of_singleton).
    unfold undefineProperties. rewrite (setExternal_Some h o e None E). cbn.
    split; [eauto|]. by intros d doc' ->.
Qed.

(** X23: none of the three functions assigns [show]: after any sequence
    of calls on DynamicObjects of a heap without dangling references, the
    [show] of every document is what it was before the calls, and
    undefined in every document the calls created. *)
Theorem show_is_never_assigned h (calls : list (call data)) d doc' :
  wellFormed h ->
  (forall c o, c ∈ calls -> o ∈ argumentsOf c -> o < length (objects h)) ->
  documents (afterCalls calls h) !! d = Some doc' ->
  show doc' = documents h !! d ≫= show.
Proof.
  revert h. induction calls as [|c calls IH]; intros h W Args;
    [intros D; change (documents h !! d = Some doc') in D; by rewrite D|].
  change (afterCalls (c :: calls) h) with (afterCalls calls (afterCall h c)).
  destruct (wellFormed_afterCall h c W) as [W' L'].
  { intros o. apply Args. apply elem_of_cons. by left. }
  destruct (show_afterCall h c W) as [Kept Show].
  { intros o. apply Args. apply elem_of_cons. by left. }
  intros D. rewrite (IH (afterCall h c) W'); [| |done].
  - destruct (documents (afterCall h c) !! d) as [doc1|] eqn:D1; cbn; [by apply Show|].
    destruct (documents h !! d) as [doc|] eqn:D0; [|done].
    destruct (Kept d doc D0) as [? ?]. congruence.
  - intros c' o Hc Ho. rewrite L'. apply (Args c' o); [|done]. apply elem_of_cons. by right.
Qed.

(** *** Polling data accumulates *)

Local Abbreviation fedWith := (fedWith processCzmlIntervals).

(** Packets with polling data, processed where the DynamicObject has a
    polling property [p] in state [state]. *)
Lemma polling_feeds h o p state (feeds : list (Czml.packet data * (data * option TimeInterval))) :
  (exists e d, objects h !! o = Some e /\ external e = Some d /\
               is_Some (documents h !! d)) ->
  fieldOf h o polling = Some p ->
  properties h !! p = Some state ->
  (forall packet pollingData i, (packet, (pollingData, i)) ∈ feeds ->
     exists x, Czml.external packet = Some x /\ Czml.polling x = Some pollingData /\
               intervalOf x = Normal i) ->
  fieldOf (afterPackets ((fun f => (o, f.1)) <$> feeds) h) o polling = Some p /\
  stateOf (afterPackets ((fun f => (o, f.1)) <$> feeds) h) (Some p) =
    Some (fedWith state (snd <$> feeds)).
Proof.
  revert h state. induction feeds as [|[packet [pollingData i]] feeds IH];
    intros h state (e & d & E & X0 & D) Fp Ps Feeds; [done|].
  destruct (Feeds packet pollingData i) as (x & X & P & I); [apply elem_of_cons; by left|].
  pose proof (fieldOf_default h o polling eq_refl) as Bp. rewrite Fp in Bp.
  destruct (run_with_strategy h o e packet x i Polling RefreshInterval CzmlNumber
              pollingData (Czml.refreshInterval x) _ E
              ltac:(intros d0 X1; assert (d0 = d) as -> by congruence; exact D) X I
              (strategies_polling x pollingData i P) ltac:(done) eq_refl)
    as (h' & c & d' & after & q & s0 & Run & O' & _ & _ & D' & _ & Hq & Hs & G1 & P1 & _).
  { cbn [getField]. rewrite Bp. intros q [= <-]. eauto. }
  cbn [getField] in Hq, Hs, G1. rewrite Bp in Hq, Hs. cbn in Hq, Hs. rewrite Ps in Hs.
  cbn in Hs. subst q s0.
  change (afterPackets ((fun f => (o, f.1)) <$> (packet, (pollingData, i)) :: feeds) h)
    with (afterPackets ((fun f => (o, f.1)) <$> feeds) (processCzmlPacket o packet h).1).
  change (fedWith state (snd <$> (packet, (pollingData, i)) :: feeds))
    with (fedWith (processCzmlIntervals state pollingData i).1 (snd <$> feeds)).
  rewrite Run. cbn [fst].
  apply (IH h').
  - exists {| external := Some d'; others := others e |}, d'. eauto.
  - by rewrite (fieldOf_after h' o (others e) d' after).
  - done.
  - intros packet' pd' i' Hin. apply Feeds. apply elem_of_cons. by right.
Qed.

(** X24: the polling data of successive packets accumulates in one
    property, in the order of the packets: after a sequence of packets
    with polling data whose intervals parse, the [polling] field refers to
    the property it referred to before the first, or to the one the first
    created, and the state of that property is the state before (a new
    CzmlString property's, if there was none) with the data of the
    packets fed to it in order, each with the interval of its packet;
    that a call threw after feeding does not matter. *)
Theorem polling_accumulates
    h o e (feeds : list (Czml.packet data * (data * option TimeInterval))) :
  objects h !! o = Some e ->
  (forall d, external e = Some d -> is_Some (documents h !! d)) ->
  (forall p, fieldOf h o polling = Some p -> is_Some (properties h !! p)) ->
  (forall packet pollingData i, (packet, (pollingData, i)) ∈ feeds ->
     exists x, Czml.external packet = Some x /\ Czml.polling x = Some pollingData /\
               intervalOf x = Normal i) ->
  feeds <> [] ->
  exists p,
    p = default (length (properties h)) (fieldOf h o polling) /\
    fieldOf (afterPackets ((fun f => (o, f.1)) <$> feeds) h) o polling = Some p /\
    stateOf (afterPackets ((fun f => (o, f.1)) <$> feeds) h) (Some p) =
      Some (fedWith (default (newDynamicProperty CzmlString) (stateOf h (fieldOf h o polling)))
              (snd <$> feeds)).
Proof.
  intros E V Vp Feeds Hne.
  destruct feeds as [|[packet [pollingData i]] feeds]; [done|].
  destruct (Feeds packet pollingData i) as (x & X & P & I); [apply elem_of_cons; by left|].
  pose proof (fieldOf_default h o polling eq_refl) as Bp.
  destruct (run_with_strategy h o e packet x i Polling RefreshInterval CzmlNumber
              pollingData (Czml.refreshInterval x) _ E V X I
              (strategies_polling x pollingData i P) ltac:(done) eq_refl)
    as (h' & c & d' & after & q & s0 & Run & O' & _ & _ & D' & _ & Hq & Hs & G1 & P1 & _).
  { cbn [getField]. rewrite Bp. exact Vp. }
  cbn [getField] in Hq, Hs, G1. rewrite Bp in Hq, Hs. subst q s0.
  eexists. split; [reflexivity|].
  change (afterPackets ((fun f => (o, f.1)) <$> (packet, (pollingData, i)) :: feeds) h)
    with (afterPackets ((fun f => (o, f.1)) <$> feeds) (processCzmlPacket o packet h).1).
  set (start := default (newDynamicProperty CzmlString) (stateOf h (fieldOf h o polling))) in *.
  change (fedWith start (snd <$> (packet, (pollingData, i)) :: feeds))
    with (fedWith (processCzmlIntervals start pollingData i).1 (snd <$> feeds)).
  rewrite Run. cbn [fst].
  apply (polling_feeds h').
  - exists {| external := Some d'; others := others e |}, d'. eauto.
  - by rewrite (fieldOf_after h' o (others e) d' after).
  - done.
  - intros packet' pd' i' Hin. apply Feeds. apply elem_of_cons. by right.
Qed.

(** *** Arguments that are no DynamicObject *)

(** X26: the three functions do not check their DynamicObject arguments:
    on a reference that denotes no DynamicObject, [processCzmlPacket]
    (with a packet that has [external]) and [undefineProperties] end with
    a TypeError, and so does [mergeProperties] when the source is none, or
    when the target is none and the source has a document; the heap is
    left as it was. Where the source has no document, [mergeProperties]
    returns without looking at the target. *)
Theorem undefined_DynamicObject_TypeError h o t s source packet :
  objects h !! o = None ->
  objects h !! s = Some source ->
  (is_Some (Czml.external packet) ->
   exists message, processCzmlPacket o packet h = (h, Throw (TypeError message))) /\
  (exists message, undefineProperties o h = (h, Throw (TypeError message))) /\
  (exists message, mergeProperties t o h = (h, Throw (TypeError message))) /\
  (is_Some (external source) ->
   exists message, mergeProperties o s h = (h, Throw (TypeError message))) /\
  (external source = None -> mergeProperties o s h = (h, Normal tt)).
Proof.
  intros N Es. split_and!.
  - intros [x X]. rewrite processCzmlPacket_groups, X.
    unfold bind, DynamicExternalDocument.externalGroup, bind, getExternal. rewrite N.
    by eexists.
  - unfold undefineProperties, setExternal. rewrite N. by eexists.
  - unfold mergeProperties, bind, getExternal. rewrite N. by eexists.
  - intros [ds Xs]. unfold mergeProperties. unfold bind at 1.
    rewrite (getExternal_Some h s source Es), Xs.
    unfold bind, getExternal. rewrite N. by eexists.
  - intros Xs. unfold mergeProperties, bind. by rewrite (getExternal_Some h s source Es), Xs.
Qed.

(** *** The eventname property, once created *)

Local Abbreviation fedOnce :=
  (fedOnce (DynamicProperty := DynamicProperty) (attributes := attributes)).

Lemma fedOnce_step h o f n state packet :
  fedOnce h o f n state -> fedOnce (processCzmlPacket o packet h).1 o f n state.
Proof.
  intros (e & E & V & F & P & Q).
  destruct (Czml.external packet) as [x|] eqn:X;
    [|rewrite processCzmlPacket_groups, X; by exists e].
  destruct (processCzmlPacket_effect h o e packet x E V)
    as (h' & c & d & before & after & Run & Hb & Hd & O' & D' & _ & _ & _ & Keep & New & Len &
        Old & _); [|done|].
  { intros g q Hg G. by apply (Q g q Hg). }
  rewrite Run. cbn [fst].
  assert (forall g, getField g before = fieldOf h o (getField g)) as Bg
    by (intros g; rewrite Hb; apply fieldOf_default; by destruct g).
  assert (objects h' !! o = Some {| external := Some d; others := others e |}) as E'
    by (rewrite O'; by apply (lookup_insert_same _ _ _ e)).
  assert (n < length (properties h)) as Hn by (by apply lookup_lt_Some in P).
  exists {| external := Some d; others := others e |}. split_and!.
  - done.
  - cbn. intros d0 [= <-]. eauto.
  - rewrite (fieldOf_after h' o (others e) d after) by done. apply Keep. by rewrite Bg.
  - apply Old; [done| |].
    + intros G. by destruct (Q Polling n (or_introl eq_refl) G).
    + intros G. by destruct (Q Eventsource n (or_intror eq_refl) G).
  - intros g q Hg. rewrite (fieldOf_after h' o (others e) d after) by done. intros G.
    destruct (New g q G) as [G0|(_ & _ & ?)].
    + rewrite Bg in G0. destruct (Q g q Hg G0) as [? ?%lookup_lt_is_Some].
      split; [done|]. apply lookup_lt_is_Some. lia.
    + split; [lia|]. apply lookup_lt_is_Some. lia.
Qed.

Lemma fedOnce_steps h o f n state packets :
  fedOnce h o f n state ->
  fedOnce (afterPackets ((fun packet => (o, packet)) <$> packets) h) o f n state.
Proof.
  revert h. induction packets as [|packet packets IH]; intros h H; [done|].
  cbn. by apply IH, fedOnce_step.
Qed.

(** X27: on a DynamicObject whose document has no eventname, a packet
    that declares eventsource and eventname and no polling, whose
    interval parses and whose eventsource data is processed without an
    exception, creates the eventname property, a new property of value
    type CzmlString fed with the packet's data. Whatever packets are
    processed on the object after that, the field refers to that property
    and the property has the state it was created with: an eventname is
    fed once. *)
Theorem eventname_is_fed_once
    h o e packet x eventsourceData eventnameData i :
  objects h !! o = Some e ->
  (forall d, external e = Some d -> is_Some (documents h !! d)) ->
  (forall f q, f = Polling \/ f = Eventsource ->
               fieldOf h o (getField f) = Some q -> is_Some (properties h !! q)) ->
  Czml.external packet = Some x ->
  Czml.polling x = None ->
  Czml.eventsource x = Some eventsourceData ->
  Czml.eventname x = Some eventnameData ->
  intervalOf x = Normal i ->
  fieldOf h o eventname = None ->
  (processCzmlIntervals
     (default (newDynamicProperty CzmlString) (stateOf h (fieldOf h o eventsource)))
     eventsourceData i).2 = Normal tt ->
  exists n,
    length (properties h) <= n /\
    fieldOf (processCzmlPacket o packet h).1 o eventname = Some n /\
    stateOf (processCzmlPacket o packet h).1 (Some n) =
      Some (processCzmlIntervals (newDynamicProperty CzmlString) eventnameData i).1 /\
    (processCzmlPacket o packet h).2 =
      match (processCzmlIntervals (newDynamicProperty CzmlString) eventnameData i).2 with
      | Normal _ => Normal true
      | Throw err => Throw err
      end /\
    forall later,
      fieldOf (afterPackets ((fun packet => (o, packet)) <$> later)
                 (processCzmlPacket o packet h).1) o eventname = Some n /\
      stateOf (afterPackets ((fun packet => (o, packet)) <$> later)
                 (processCzmlPacket o packet h).1) (Some n) =
        Some (processCzmlIntervals (newDynamicProperty CzmlString) eventnameData i).1.
Proof.
  intros E V Vf X NoP Es En I N Fed.
  pose proof (fieldOf_default h o polling eq_refl) as Bp.
  pose proof (fieldOf_default h o eventname eq_refl) as Bn.
  pose proof (fieldOf_default h o eventsource eq_refl) as Bs.
  destruct (run_with_strategy h o e packet x i Eventsource Eventname CzmlString
              eventsourceData (Czml.eventname x) _ E V X I
              (strategies_eventsource x eventsourceData i NoP Es) ltac:(done) eq_refl)
    as (h' & c & d & after & p & s0 & Run & O' & _ & _ & D' & _ & Hp & Hs & G1 & P1 &
        Old & _ & _ & Oth & _ & New & _).
  { cbn. rewrite Bs. intros q Q. apply (Vf Eventsource q); [by right|done]. }
  cbn in Hp, Hs, G1, New. rewrite Bs in Hp, Hs. rewrite Bn, N in New. subst s0.
  destruct (New eventnameData En eq_refl Fed) as (n & Rn & Len & Hpn & Pn & Hc).
  rewrite Run. cbn [fst snd]. exists n.
  assert (fieldOf h' o eventname = Some n) as Fn
    by (by rewrite (fieldOf_after h' o (others e) d after)).
  assert (fedOnce h' o Eventname n
            (processCzmlIntervals (newDynamicProperty CzmlString) eventnameData i).1)
    as Once.
  { exists {| external := Some d; others := others e |}. split_and!; try done.
    - cbn. intros d0 [= <-]. eauto.
    - intros g q Hg. rewrite (fieldOf_after h' o (others e) d after) by done.
      destruct Hg as [-> | ->]; intros Q.
      + rewrite (Oth Polling) in Q by done. cbn in Q. rewrite Bp in Q.
        destruct (Vf Polling q (or_introl eq_refl) Q) as [sq Sq].
        assert (q <> n) by (apply lookup_lt_Some in Sq; lia). split; [done|].
        destruct (decide (q = p)) as [->|Hqp]; [by eexists|].
        exists sq. by apply Old.
      + assert (q = p) as -> by (cbn in Q; congruence). split; [lia|by eexists]. }
  split; [done|]. split; [done|]. split; [done|]. split; [done|].
  intros later.
  destruct (fedOnce_steps h' o Eventname n _ later Once) as (e' & _ & _ & F' & P' & _).
  by split.
Qed.

End Facts.

End DynamicExternalDocumentFacts.

(** ** The theorems at concrete packets *)

Module Examples.

Import DynamicExternalDocument DynamicExternalDocumentFacts Concrete.

Lemma processCzmlPacket_without_external_witness :
  processCzmlPacket 0 {| Czml.external := None |} oneObject = (oneObject, Normal false) /\
  documentOf (processCzmlPacket 0 {| Czml.external := None |} oneObject).1 0 =
    documentOf oneObject 0.
Proof.
  apply (processCzmlPacket_without_external fromIso8601 newDynamicProperty
           processCzmlIntervals oneObject 0 {| Czml.external := None |}).
  reflexivity.
Defined.

Lemma undefineProperties_clears_witness :
  exists h',
    undefineProperties 0 polled = (h', Normal tt) /\
    objects h' !! 0 = Some {| external := None; others := "entity" |} /\
    documentOf h' 0 = None /\
    (forall o', o' <> 0 -> objects h' !! o' = objects polled !! o') /\
    documents h' = documents polled /\
    properties h' = properties polled.
Proof.
  apply (undefineProperties_clears polled 0 {| external := Some 0; others := "entity" |}).
  reflexivity.
Defined.

Lemma mergeProperties_merges_polling_only_witness :
  exists h' after,
    mergeProperties 0 1 targetAndSource = (h', Normal tt) /\
    documentOf h' 0 = Some after /\
    polling after = Some 0 /\
    scope after = None.
Proof.
  destruct (mergeProperties_merges_polling_only targetAndSource 0 1
              (object "target") {| external := Some 0; others := "source" |}
              0 (set_polling (Some 0) emptyDocument))
    as (h' & d & before & after & Run & Hb & Ho & _ & _ & Hafter & _ & Hp & Hs & _);
    [first [reflexivity | intros; discriminate] .. |].
  exists h', after. split; [exact Run|].
  split; [unfold documentOf; rewrite Ho; cbn; exact Hafter|].
  split; [rewrite Hp; [reflexivity | rewrite Hb; reflexivity]
         | rewrite Hs, Hb; reflexivity].
Defined.

Lemma scope_is_write_once_witness :
  fieldOf (processCzmlPacket 0 (scopePacket "B")
             (processCzmlPacket 0 (scopePacket "A") oneObject).1).1 0 scope = Some "A".
Proof.
  destruct (scope_is_write_once fromIso8601 newDynamicProperty processCzmlIntervals
              oneObject 0 (object "entity") (scopePacket "A") (scopeData "A") None "A")
    as [_ Later]; [first [reflexivity | intros; discriminate] .. |].
  exact (Later [(0, scopePacket "B")]).
Defined.

Lemma polling_precedes_eventsource_witness :
  processCzmlPacket 0 (pollingPacket "url1" None) oneObject =
  processCzmlPacket 0 (bothPacket "url1" "stream1" "name1") oneObject /\
  fieldOf (processCzmlPacket 0 (bothPacket "url1" "stream1" "name1") oneObject).1 0
    eventsource = None /\
  fieldOf (processCzmlPacket 0 (bothPacket "url1" "stream1" "name1") oneObject).1 0
    eventname = None /\
  exists p,
    fieldOf (processCzmlPacket 0 (bothPacket "url1" "stream1" "name1") oneObject).1 0
      polling = Some p /\
    stateOf (processCzmlPacket 0 (bothPacket "url1" "stream1" "name1") oneObject).1 (Some p)
    = Some {| valueType := CzmlString; bindings := [(None, "url1")] |}.
Proof.
  destruct (polling_precedes_eventsource fromIso8601 newDynamicProperty processCzmlIntervals
              oneObject 0 (object "entity") (bothPacket "url1" "stream1" "name1")
              (bothData "url1" "stream1" "name1") "url1")
    as (Same & Es & En & Fed); [first [reflexivity | intros; discriminate] .. |].
  split; [apply (Same (pollingPacket "url1" None) _ eq_refl); reflexivity|].
  split; [exact Es|]. split; [exact En|].
  destruct (Fed None eq_refl) as (p & Fp & _ & Sp). exists p. split; [exact Fp|exact Sp].
Defined.

Lemma eventsource_after_polling_witness :
  exists q,
    fieldOf (processCzmlPacket 0 (eventsourcePacket "stream1") polled).1 0 polling = Some 0 /\
    fieldOf (processCzmlPacket 0 (eventsourcePacket "stream1") polled).1 0 eventsource
      = Some q /\
    stateOf (processCzmlPacket 0 (eventsourcePacket "stream1") polled).1 (Some q) =
      Some {| valueType := CzmlString; bindings := [(None, "stream1")] |}.
Proof.
  destruct (eventsource_after_polling fromIso8601 newDynamicProperty processCzmlIntervals
              polled 0 {| external := Some 0; others := "entity" |} 0
              (set_polling (Some 0) emptyDocument) 0
              {| valueType := CzmlString; bindings := [(None, "url1")] |}
              (eventsourcePacket "stream1") (eventsourceData "stream1") "stream1" None)
    as (q & Fp & Fq & _ & Sq & _); [first [reflexivity | intros; discriminate] .. |].
  exists q. split; [exact Fp|]. split; [exact Fq|exact Sq].
Defined.

Lemma refreshInterval_is_write_once_witness :
  exists r,
    fieldOf (processCzmlPacket 0 (pollingPacket "url2" (Some "60"))
               (processCzmlPacket 0 (pollingPacket "url1" (Some "30")) oneObject).1).1 0
      refreshInterval = Some r /\
    stateOf (processCzmlPacket 0 (pollingPacket "url2" (Some "60"))
               (processCzmlPacket 0 (pollingPacket "url1" (Some "30")) oneObject).1).1
      (Some r) = Some {| valueType := CzmlNumber; bindings := [(None, "30")] |}.
Proof.
  destruct (refreshInterval_is_write_once fromIso8601 newDynamicProperty processCzmlIntervals
              oneObject 0 (object "entity") (pollingPacket "url1" (Some "30"))
              (pollingData "url1" (Some "30")) "url1" "30" None)
    as (r & _ & _ & _ & _ & Later); [first [reflexivity | intros; discriminate] .. |].
  exists r. exact (Later [pollingPacket "url2" (Some "60")]).
Defined.

(** *** The heaps of the examples are well formed *)

Lemma wellFormed_targetAndSource : wellFormed targetAndSource.
Proof.
  split_and!.
  - intros [|[|o]] e d; cbn; intros [= <-]; cbn; intros [= <-]. by eexists.
  - intros [|d] doc f p; cbn; intros [= <-]; destruct f; cbn; intros [= <-]. by eexists.
  - intros [|[|o1]] [|[|o2]] e1 e2 d; cbn; intros [= <-] [= <-]; cbn; by intros [= <-].
Qed.

Lemma processCzmlPacket_reports_change_witness :
  false = bool_decide (documentOf (processCzmlPacket 0 (pollingPacket "url2" None) polled).1 0
                       <> documentOf polled 0) /\
  (false = false ->
   objects (processCzmlPacket 0 (pollingPacket "url2" None) polled).1 = objects polled /\
   documents (processCzmlPacket 0 (pollingPacket "url2" None) polled).1 = documents polled).
Proof.
  apply (processCzmlPacket_reports_change fromIso8601 newDynamicProperty processCzmlIntervals
           polled 0 {| external := Some 0; others := "entity" |}
           (pollingPacket "url2" None)).
  - reflexivity.
  - intros d E. inversion E. subst. eexists. reflexivity.
  - intros f p _. destruct f; cbn; intros E; inversion E. subst. eexists. reflexivity.
  - reflexivity.
Defined.

Lemma processCzmlPacket_again_witness :
  false = false /\
  documentOf (processCzmlPacket 0 (pollingPacket "url1" (Some "30"))
                (processCzmlPacket 0 (pollingPacket "url1" (Some "30")) oneObject).1).1 0 =
  documentOf (processCzmlPacket 0 (pollingPacket "url1" (Some "30")) oneObject).1 0.
Proof.
  apply (processCzmlPacket_again fromIso8601 newDynamicProperty processCzmlIntervals
           oneObject 0 (object "entity") (pollingPacket "url1" (Some "30")) _ true).
  - reflexivity.
  - intros d E. discriminate.
  - intros f p _ E. destruct f; discriminate.
  - reflexivity.
  - reflexivity.
Defined.

Lemma malformed_interval_aborts_witness :
  exists h',
    processCzmlPacket 0 (packetOf malformedData) oneObject =
      (h', Throw (OtherError "MalformedIntervalError" "2012-03-15T10:00:00Z")) /\
    (is_Some (external (object "entity")) -> h' = oneObject) /\
    documentOf h' 0 = Some (default emptyDocument (documentOf oneObject 0)) /\
    properties h' = properties oneObject /\
    (forall o', o' <> 0 -> objects h' !! o' = objects oneObject !! o') /\
    (forall d doc, documents oneObject !! d = Some doc -> documents h' !! d = Some doc).
Proof.
  apply (malformed_interval_aborts fromIso8601 newDynamicProperty processCzmlIntervals
           oneObject 0 (object "entity") (packetOf malformedData) malformedData
           "2012-03-15T10:00:00Z").
  - reflexivity.
  - intros d E. discriminate.
  - reflexivity.
  - reflexivity.
  - reflexivity.
Defined.

Lemma dependent_fields_need_their_parent_witness :
  processCzmlPacket 0 (packetOf (orphanData (Some "30") (Some "name1"))) =
  processCzmlPacket 0 (packetOf (orphanData None None)).
Proof.
  apply (dependent_fields_need_their_parent fromIso8601 newDynamicProperty
           processCzmlIntervals 0 (packetOf (orphanData None None))
           (packetOf (orphanData (Some "30") (Some "name1")))
           (orphanData None None) (orphanData (Some "30") (Some "name1"))).
  - reflexivity.
  - reflexivity.
  - reflexivity.
  - reflexivity.
  - reflexivity.
  - reflexivity.
  - intros [p E]. discriminate.
  - intros _ [p E]. discriminate.
Defined.

Lemma threeCalls_arguments c o :
  c ∈ threeCalls -> o ∈ argumentsOf c -> o < length (objects targetAndSource).
Proof.
  unfold threeCalls. rewrite !elem_of_cons, elem_of_nil.
  intros [->|[->|[->|[]]]]; cbn; rewrite !elem_of_cons, elem_of_nil;
    intros H; destruct_or?; subst; cbn; lia.
Qed.

Lemma wellFormed_invariant_witness :
  wellFormed (afterCalls threeCalls targetAndSource) /\
  length (objects (afterCalls threeCalls targetAndSource)) = length (objects targetAndSource).
Proof.
  apply (wellFormed_invariant fromIso8601 newDynamicProperty processCzmlIntervals
           targetAndSource threeCalls).
  - exact wellFormed_targetAndSource.
  - exact threeCalls_arguments.
Defined.


Lemma processCzmlPacket_frame_witness :
  (forall o', o' <> 0 ->
     objects (processCzmlPacket 0 (pollingPacket "url2" None) targetAndSource).1 !! o' =
       objects targetAndSource !! o' /\
     documentOf (processCzmlPacket 0 (pollingPacket "url2" None) targetAndSource).1 o' =
       documentOf targetAndSource o') /\
  (forall q state, properties targetAndSource !! q = Some state ->
     fieldOf targetAndSource 0 polling <> Some q ->
     fieldOf targetAndSource 0 eventsource <> Some q ->
     properties (processCzmlPacket 0 (pollingPacket "url2" None) targetAndSource).1 !! q =
       Some state).
Proof.
  apply (processCzmlPacket_frame fromIso8601 newDynamicProperty processCzmlIntervals
           targetAndSource 0 (pollingPacket "url2" None)).
  - exact wellFormed_targetAndSource.
  - simpl. lia.
Defined.

Lemma merged_polling_is_shared_witness :
  fieldOf (mergeProperties 0 1 targetAndSource).1 0 polling = Some 0 /\
  fieldOf (afterCalls twoCalls targetAndSource) 0 polling = Some 0 /\
  fieldOf (afterCalls twoCalls targetAndSource) 1 polling = Some 0 /\
  stateOf (afterCalls twoCalls targetAndSource) (Some 0) =
    Some {| valueType := CzmlString; bindings := [(None, "url1"); (None, "url2")] |}.
Proof.
  apply (merged_polling_is_shared fromIso8601 newDynamicProperty processCzmlIntervals
           targetAndSource 0 1 (pollingPacket "url2" None) (pollingData "url2" None)
           "url2" None 0 {| valueType := CzmlString; bindings := [(None, "url1")] |}).
  - exact wellFormed_targetAndSource.
  - reflexivity.
  - reflexivity.
  - simpl. lia.
  - reflexivity.
  - reflexivity.
  - reflexivity.
  - reflexivity.
Defined.

Lemma mergeProperties_idempotent_witness :
  mergeProperties 0 1 (mergeProperties 0 1 targetAndSource).1 =
    ((mergeProperties 0 1 targetAndSource).1, Normal tt) /\
  (documentOf targetAndSource 1 = None ->
   mergeProperties 0 1 targetAndSource = (targetAndSource, Normal tt)) /\
  (is_Some (fieldOf targetAndSource 0 polling) ->
   mergeProperties 0 1 targetAndSource = (targetAndSource, Normal tt)) /\
  (0 = 1 -> mergeProperties 0 1 targetAndSource = (targetAndSource, Normal tt)).
Proof.
  apply (mergeProperties_idempotent targetAndSource 0 1).
  - exact wellFormed_targetAndSource.
  - simpl. lia.
  - simpl. lia.
Defined.

Lemma undefineProperties_forgets_witness :
  fieldOf (processCzmlPacket 0 (scopePacket "B")
             (undefineProperties 0 (processCzmlPacket 0 (scopePacket "A") oneObject).1).1).1
    0 scope = Some "B" /\
  objects (processCzmlPacket 0 (scopePacket "B")
             (undefineProperties 0 (processCzmlPacket 0 (scopePacket "A") oneObject).1).1).1
    !! 0 = Some {| external := Some 1; others := "entity" |} /\
  (forall d doc,
     documents (processCzmlPacket 0 (scopePacket "A") oneObject).1 !! d = Some doc ->
     documents (processCzmlPacket 0 (scopePacket "B")
                  (undefineProperties 0
                     (processCzmlPacket 0 (scopePacket "A") oneObject).1).1).1 !! d
     = Some doc).
Proof.
  apply (undefineProperties_forgets fromIso8601 newDynamicProperty processCzmlIntervals
           (processCzmlPacket 0 (scopePacket "A") oneObject).1 0
           {| external := Some 0; others := "entity" |}
           (scopePacket "B") (scopeData "B") None "B").
  - reflexivity.
  - reflexivity.
  - reflexivity.
  - reflexivity.
Defined.

Lemma twoCalls_keep c o : c ∈ twoCalls -> c <> UndefineProperties o.
Proof.
  unfold twoCalls. rewrite !elem_of_cons, elem_of_nil. intros [->|[->|[]]]; discriminate.
Qed.

Lemma fields_are_never_replaced_witness :
  (forall o a, fieldOf targetAndSource o scope = Some a ->
     fieldOf (afterCalls twoCalls targetAndSource) o scope = Some a) /\
  (forall o f p, fieldOf targetAndSource o (getField f) = Some p ->
     fieldOf (afterCalls twoCalls targetAndSource) o (getField f) = Some p).
Proof.
  apply (fields_are_never_replaced fromIso8601 newDynamicProperty processCzmlIntervals
           targetAndSource twoCalls).
  exact twoCalls_keep.
Defined.

Lemma show_is_never_assigned_witness :
  show (set_polling (Some 0) emptyDocument) = documents targetAndSource !! 0 ≫= show.
Proof.
  apply (show_is_never_assigned fromIso8601 newDynamicProperty processCzmlIntervals
           targetAndSource threeCalls 0 (set_polling (Some 0) emptyDocument)).
  - exact wellFormed_targetAndSource.
  - exact threeCalls_arguments.
  - reflexivity.
Defined.

Lemma twoFeeds_polling packet pollingData i :
  (packet, (pollingData, i)) ∈ twoFeeds ->
  exists x, Czml.external packet = Some x /\ Czml.polling x = Some pollingData /\
            intervalOf fromIso8601 x = Normal i.
Proof.
  unfold twoFeeds. rewrite !elem_of_cons, elem_of_nil.
  intros [[= -> -> ->]|[[= -> -> ->]|[]]]; eexists; split_and!; reflexivity.
Qed.

Lemma polling_accumulates_witness :
  exists p,
    p = default (length (properties oneObject)) (fieldOf oneObject 0 polling) /\
    fieldOf (processCzmlPacket 0 (pollingPacket "url2" (Some "30"))
               (processCzmlPacket 0 (pollingPacket "url1" None) oneObject).1).1 0 polling
      = Some p /\
    stateOf (processCzmlPacket 0 (pollingPacket "url2" (Some "30"))
               (processCzmlPacket 0 (pollingPacket "url1" None) oneObject).1).1 (Some p)
      = Some {| valueType := CzmlString; bindings := [(None, "url1"); (None, "url2")] |}.
Proof.
  apply (polling_accumulates fromIso8601 newDynamicProperty processCzmlIntervals
           oneObject 0 (object "entity") twoFeeds).
  - reflexivity.
  - intros d E. discriminate.
  - intros p E. discriminate.
  - exact twoFeeds_polling.
  - discriminate.
Defined.

Lemma undefined_DynamicObject_TypeError_witness :
  (is_Some (Czml.external (scopePacket "A")) ->
   exists message,
     processCzmlPacket 2 (scopePacket "A") targetAndSource =
       (targetAndSource, Throw (TypeError message))) /\
  (exists message,
     undefineProperties 2 targetAndSource = (targetAndSource, Throw (TypeError message))) /\
  (exists message,
     mergeProperties 0 2 targetAndSource = (targetAndSource, Throw (TypeError message))) /\
  (is_Some (external {| external := Some 0; others := "source" |}) ->
   exists message,
     mergeProperties 2 1 targetAndSource = (targetAndSource, Throw (TypeError message))) /\
  (external {| external := Some 0; others := "source" |} = None ->
   mergeProperties 2 1 targetAndSource = (targetAndSource, Normal tt)).
Proof.
  apply (undefined_DynamicObject_TypeError fromIso8601 newDynamicProperty processCzmlIntervals
           targetAndSource 2 0 1 {| external := Some 0; others := "source" |}
           (scopePacket "A")).
  - reflexivity.
  - reflexivity.
Defined.

Lemma eventname_is_fed_once_witness :
  exists n,
    fieldOf (processCzmlPacket 0 (packetOf (namedData "stream2" "name2"))
               (processCzmlPacket 0 (packetOf (namedData "stream1" "name1")) oneObject).1).1 0
      eventname = Some n /\
    stateOf (processCzmlPacket 0 (packetOf (namedData "stream2" "name2"))
               (processCzmlPacket 0 (packetOf (namedData "stream1" "name1")) oneObject).1).1
      (Some n) = Some {| valueType := CzmlString; bindings := [(None, "name1")] |}.
Proof.
  destruct (eventname_is_fed_once fromIso8601 newDynamicProperty processCzmlIntervals
              oneObject 0 (object "entity") (packetOf (namedData "stream1" "name1"))
              (namedData "stream1" "name1") "stream1" "name1" None)
    as (n & _ & _ & _ & _ & Later); [first [reflexivity | intros; discriminate] .. |].
  exists n. exact (Later [packetOf (namedData "stream2" "name2")]).
Defined.

End Examples.
